(** * typhon.spareice.datasets: placeholder templates and time coverages

    A shallow embedding of the [Dataset] class of
    [src/typhon/spareice/datasets.py]: the placeholder grammar, the
    resolution of a file's time coverage from its name, the file search
    and the persistence of the time-coverage cache.

    Python values are modelled as follows.
    - [str] is [string]; characters are bytes, so [\d] and [\w] are the
      ASCII classes.
    - [int] is [Z].
    - a [dict] with string keys is a [gmap string _].
    - [datetime] is a record of its seven fields; [timedelta] is a number
      of microseconds.
    - a raised exception is the [Raise] case of [result]; only the class
      of the exception is kept. *)

From stdpp Require Import gmap strings list fin_maps sorting.
From Stdlib Require Import ZArith Ascii Lia.

Local Open Scope Z_scope.

(** ** Exceptions *)

Inductive exn : Set :=
| TypeError
| ValueError
| KeyError
| IndexError
| OverflowError
| NameError
| NoFilesError
| NoHandlerError
| Unmodelled.   (* the input leaves the fragment of [str.format] / [re]
                   syntax that this development covers *)

Inductive result (A : Type) : Type :=
| Ok (a : A)
| Raise (e : exn).
Arguments Ok {A} a.
Arguments Raise {A} e.

Global Instance result_ret : MRet result := fun _ a => Ok a.
Global Instance result_bind : MBind result := fun _ _ f r =>
  match r with
  | Ok a => f a
  | Raise e => Raise e
  end.

Definition is_ok {A} (r : result A) : bool :=
  match r with Ok _ => true | Raise _ => false end.

Global Instance exn_eq_dec : EqDecision exn.
Proof. solve_decision. Defined.

(** ** Characters, decimal numerals *)

Module Chars.

Definition code (c : ascii) : Z := Z.of_N (N_of_ascii c).

Definition is_digit (c : ascii) : bool :=
  (48 <=? code c) && (code c <=? 57).

Definition is_alpha (c : ascii) : bool :=
  ((65 <=? code c) && (code c <=? 90)) || ((97 <=? code c) && (code c <=? 122)).

(** The class [\w] of [re] (ASCII). *)
Definition is_word (c : ascii) : bool :=
  is_digit c || is_alpha c || (code c =? 95).

Definition digit_val (c : ascii) : Z := code c - 48.

Definition digit_char (d : Z) : ascii := ascii_of_N (Z.to_N (48 + d)).

Definition newline : ascii := ascii_of_N 10.

(** The lower-case letter of an ASCII capital, any other character
    unchanged. *)
Definition lower (c : ascii) : ascii :=
  if (65 <=? code c) && (code c <=? 90) then ascii_of_N (Z.to_N (code c + 32))
  else c.

End Chars.

Module Str.

Fixpoint length (s : string) : nat :=
  match s with
  | EmptyString => O
  | String _ s' => S (length s')
  end.

Fixpoint all (p : ascii → bool) (s : string) : bool :=
  match s with
  | EmptyString => true
  | String c s' => p c && all p s'
  end.

Fixpoint take (n : nat) (s : string) : string :=
  match n, s with
  | S n', String c s' => String c (take n' s')
  | _, _ => EmptyString
  end.

Fixpoint drop (n : nat) (s : string) : string :=
  match n, s with
  | S n', String _ s' => drop n' s'
  | _, _ => s
  end.

(** [s[-n:]] *)
Definition last_n (n : nat) (s : string) : string :=
  drop (length s - n) s.

Fixpoint prefix (p s : string) : bool :=
  match p, s with
  | EmptyString, _ => true
  | String a p', String b s' => Ascii.eqb a b && prefix p' s'
  | String _ _, EmptyString => false
  end.

(** [s.index(sub)], [None] when [sub] does not occur ([sub in s] is
    [is_Some]). *)
Fixpoint index (sub s : string) : option nat :=
  if prefix sub s then Some O
  else match s with
       | EmptyString => None
       | String _ s' => S <$> index sub s'
       end.

Definition contains (sub s : string) : bool :=
  match index sub s with Some _ => true | None => false end.

(** The characters of a string, each as a string of length one: what
    indexing a [str] yields. *)
Fixpoint chars (s : string) : list string :=
  match s with
  | EmptyString => []
  | String c s' => String c EmptyString :: chars s'
  end.

Fixpoint concat (l : list string) : string :=
  match l with
  | [] => EmptyString
  | s :: l' => s +:+ concat l'
  end.

(** [s.split(sep)] for a one-character separator. *)
Fixpoint split_go (sep : ascii) (cur : string) (s : string) : list string :=
  match s with
  | EmptyString => [String.rev cur]
  | String c s' =>
      if Ascii.eqb c sep then String.rev cur :: split_go sep EmptyString s'
      else split_go sep (String c cur) s'
  end.
Definition split (sep : ascii) (s : string) : list string :=
  split_go sep EmptyString s.

(** [sep.join(l)] *)
Fixpoint join (sep : string) (l : list string) : string :=
  match l with
  | [] => EmptyString
  | [s] => s
  | s :: l' => s +:+ sep +:+ join sep l'
  end.

(** [s.replace("*", ".*?")] *)
Fixpoint replace_star (s : string) : string :=
  match s with
  | EmptyString => EmptyString
  | String c s' =>
      if Ascii.eqb c "*" then ".*?" +:+ replace_star s'
      else String c (replace_star s')
  end.

End Str.

Module Num.

(** The [w] lowest decimal digits of [n], most significant first. *)
Fixpoint zpad (w : nat) (n : Z) : string :=
  match w with
  | O => EmptyString
  | S w' => String (Chars.digit_char ((n / 10 ^ Z.of_nat w') mod 10)) (zpad w' n)
  end.

Fixpoint ndigits_go (fuel : nat) (n : Z) : nat :=
  match fuel with
  | O => 1%nat
  | S f => if n <? 10 then 1%nat else S (ndigits_go f (n / 10))
  end.

(** Number of decimal digits of [n >= 0]. *)
Definition ndigits (n : Z) : nat := ndigits_go (Z.to_nat (Z.log2 n)) n.

(** [str(n)] *)
Definition py_str (n : Z) : string :=
  if n <? 0 then String "-"%char (zpad (ndigits (- n)) (- n))
  else zpad (ndigits n) n.

Fixpoint zeros (k : nat) : string :=
  match k with
  | O => EmptyString
  | S k' => String "0"%char (zeros k')
  end.

(** ["{:0wd}".format(n)] for [n >= 0]: at least [w] characters. *)
Definition format_d (w : nat) (n : Z) : string :=
  let s := py_str n in
  zeros (w - Str.length s) +:+ s.

Fixpoint int_go (s : string) (acc : Z) : option Z :=
  match s with
  | EmptyString => Some acc
  | String c s' =>
      if Chars.is_digit c then int_go s' (10 * acc + Chars.digit_val c)
      else None
  end.

(** [int(s)] on the strings that reach it here: a non-empty run of
    digits, or a single arbitrary character. *)
Definition py_int (s : string) : result Z :=
  match s with
  | EmptyString => Raise ValueError
  | _ => match int_go s 0 with
         | Some n => Ok n
         | None => Raise ValueError
         end
  end.

End Num.


(** ** The [datetime] type of the Python standard library *)

Module Datetime.

Record datetime : Set := mk {
  year : Z; month : Z; day : Z;
  hour : Z; minute : Z; second : Z; microsecond : Z
}.

Global Instance datetime_eq_dec : EqDecision datetime.
Proof. solve_decision. Defined.

Definition MINYEAR : Z := 1.
Definition MAXYEAR : Z := 9999.

Definition is_leap (y : Z) : bool :=
  (y mod 4 =? 0) && (negb (y mod 100 =? 0) || (y mod 400 =? 0)).

Definition days_in_month (y m : Z) : Z :=
  if m =? 2 then (if is_leap y then 29 else 28)
  else if (m =? 4) || (m =? 6) || (m =? 9) || (m =? 11) then 30
  else 31.

(** Days of the year [y] before the first of month [m]. *)
Definition days_before_month (y m : Z) : Z :=
  nth (Z.to_nat m) [0; 0; 31; 59; 90; 120; 151; 181; 212; 243; 273; 304; 334] 0
  + (if (2 <? m) && is_leap y then 1 else 0).

Definition days_before_year (y : Z) : Z :=
  let y1 := y - 1 in y1 * 365 + y1 / 4 - y1 / 100 + y1 / 400.

(** The proleptic Gregorian ordinal, 0001-01-01 being day 1. *)
Definition ymd2ord (y m d : Z) : Z :=
  days_before_year y + days_before_month y m + d.

Definition toordinal (t : datetime) : Z :=
  ymd2ord (year t) (month t) (day t).

(** The checks of the constructor on values of the right type. *)
Definition valid (t : datetime) : bool :=
  (MINYEAR <=? year t) && (year t <=? MAXYEAR)
  && (1 <=? month t) && (month t <=? 12)
  && (1 <=? day t) && (day t <=? days_in_month (year t) (month t))
  && (0 <=? hour t) && (hour t <=? 23)
  && (0 <=? minute t) && (minute t <=? 59)
  && (0 <=? second t) && (second t <=? 59)
  && (0 <=? microsecond t) && (microsecond t <=? 999999).

Definition allowed_keys : gset string :=
  {[ "year"; "month"; "day"; "hour"; "minute"; "second"; "microsecond" ]}.

(** [datetime( **kwargs )] with integer values.  A keyword that the
    constructor does not know, or a missing [year], [month] or [day],
    is a [TypeError]; a value out of range is a [ValueError]. *)
Definition of_kwargs (kw : gmap string Z) : result datetime :=
  if negb (bool_decide (dom kw ⊆ allowed_keys)) then Raise TypeError
  else
    match kw !! "year", kw !! "month", kw !! "day" with
    | Some y, Some m, Some d =>
        let t := mk y m d (default 0 (kw !! "hour"))
                    (default 0 (kw !! "minute"))
                    (default 0 (kw !! "second"))
                    (default 0 (kw !! "microsecond")) in
        if valid t then Ok t else Raise ValueError
    | _, _, _ => Raise TypeError
    end.

(** Comparison is lexicographic on the fields. *)
Definition key (t : datetime) : list Z :=
  [year t; month t; day t; hour t; minute t; second t; microsecond t].

Fixpoint lex_compare (a b : list Z) : comparison :=
  match a, b with
  | x :: a', y :: b' =>
      match x ?= y with
      | Eq => lex_compare a' b'
      | c => c
      end
  | [], [] => Eq
  | [], _ :: _ => Lt
  | _ :: _, [] => Gt
  end.

Definition compare (a b : datetime) : comparison := lex_compare (key a) (key b).
Definition ltb (a b : datetime) : bool :=
  match compare a b with Lt => true | _ => false end.
Definition leb (a b : datetime) : bool :=
  match compare a b with Gt => false | _ => true end.
Definition eqb (a b : datetime) : bool := bool_decide (a = b).

(** *** [timedelta], in microseconds *)

Definition timedelta := Z.
Definition milliseconds (n : Z) : timedelta := n * 1000.
Definition seconds (n : Z) : timedelta := n * 1000000.
Definition minutes (n : Z) : timedelta := n * 60000000.
Definition hours (n : Z) : timedelta := n * 3600000000.
Definition days (n : Z) : timedelta := n * 86400000000.

Definition next_day (d : Z * Z * Z) : Z * Z * Z :=
  let '(y, m, dd) := d in
  if dd <? days_in_month y m then (y, m, dd + 1)
  else if m <? 12 then (y, m + 1, 1)
  else (y + 1, 1, 1).

Definition prev_day (d : Z * Z * Z) : Z * Z * Z :=
  let '(y, m, dd) := d in
  if 1 <? dd then (y, m, dd - 1)
  else if 1 <? m then (y, m - 1, days_in_month y (m - 1))
  else (y - 1, 12, 31).

(** The calendar date [n] days after (before, when [n < 0]) a date. *)
Definition shift_days (n : Z) (d : Z * Z * Z) : Z * Z * Z :=
  if 0 <=? n then Nat.iter (Z.to_nat n) next_day d
  else Nat.iter (Z.to_nat (- n)) prev_day d.

Definition time_of_day (t : datetime) : Z :=
  ((hour t * 60 + minute t) * 60 + second t) * 1000000 + microsecond t.

(** [t + delta]; leaving the years 1..9999 is an [OverflowError]. *)
Definition add (t : datetime) (delta : timedelta) : result datetime :=
  let total := time_of_day t + delta in
  let '(y, m, d) := shift_days (total / days 1) (year t, month t, day t) in
  let r := total mod days 1 in
  if (y <? MINYEAR) || (MAXYEAR <? y) then Raise OverflowError
  else Ok (mk y m d (r / hours 1) ((r / minutes 1) mod 60)
              ((r / seconds 1) mod 60) (r mod seconds 1)).

(** Midnight of a date. *)
Definition midnight (d : Z * Z * Z) : datetime :=
  let '(y, m, dd) := d in mk y m dd 0 0 0 0.

Definition date_of (t : datetime) : Z * Z * Z := (year t, month t, day t).

End Datetime.

Import Datetime.


(** ** [str.format] with keyword arguments *)

Module Format.

Definition is_special (c : ascii) : bool :=
  Ascii.eqb c "." || Ascii.eqb c "[" || Ascii.eqb c "!" || Ascii.eqb c ":".

(** The index type of the interpreter, [Py_ssize_t], on a platform of
    64 bits. *)
Definition PY_SSIZE_T_MAX : Z := 2 ^ 63 - 1.

Inductive index : Set :=
| Number (n : Z)       (* the name is a number *)
| NotNumber            (* a character that is no digit was met *)
| TooManyDigits.       (* the number does not fit [Py_ssize_t] *)

(** [get_integer]: the number that the digits of [s] write.  The
    characters are read from the left, and the overflow is detected as
    soon as a digit brings the number over [PY_SSIZE_T_MAX], before the
    characters after it are looked at. *)
Fixpoint get_integer (s : string) (accumulator : Z) : index :=
  match s with
  | EmptyString => Number accumulator
  | String c s' =>
      if Chars.is_digit c then
        let digitval := Chars.digit_val c in
        if (PY_SSIZE_T_MAX - digitval) / 10 <? accumulator then TooManyDigits
        else get_integer s' (accumulator * 10 + digitval)
      else NotNumber
  end.

(** The value of the replacement field [name].  An empty or numeric
    name is positional, and there are no positional arguments; a number
    that does not fit the index type is refused with [ValueError]
    ("Too many decimal digits in format string").  Attribute access,
    indexing, conversions and format specifications are not covered. *)
Definition field (kw : gmap string string) (name : string) : result string :=
  if negb (Str.all (fun c => negb (is_special c)) name) then Raise Unmodelled
  else match get_integer name 0 with
       | TooManyDigits => Raise ValueError
       | Number _ => Raise IndexError
       | NotNumber =>
           match kw !! name with
           | Some v => Ok v
           | None => Raise KeyError
           end
       end.

(** [cur] is [Some acc] inside a replacement field, [acc] being the
    name read so far, reversed.  [skip] is set after the first brace of
    a doubled brace. *)
Fixpoint go (kw : gmap string string) (skip : bool) (cur : option string)
    (s : string) : result string :=
  match s with
  | EmptyString =>
      match cur with
      | None => Ok EmptyString
      | Some _ => Raise ValueError
      end
  | String c s' =>
      if skip then rest ← go kw false None s'; Ok (String c rest)
      else
        match cur with
        | Some acc =>
            if Ascii.eqb c "}" then
              v ← field kw (String.rev acc);
              rest ← go kw false None s';
              Ok (v +:+ rest)
            else if Ascii.eqb c "{" then Raise ValueError
            else go kw false (Some (String c acc)) s'
        | None =>
            if Ascii.eqb c "{" then
              if Str.prefix "{" s' then go kw true None s'
              else go kw false (Some EmptyString) s'
            else if Ascii.eqb c "}" then
              if Str.prefix "}" s' then go kw true None s'
              else Raise ValueError
            else rest ← go kw false None s'; Ok (String c rest)
        end
  end.

Definition format (template : string) (kw : gmap string string) : result string :=
  go kw false None template.

End Format.

(** ** The fragment of [re] that compiled templates use *)

Module Re.

Inductive atom : Set :=
| Lit (c : ascii)      (* an ordinary character *)
| Dot                  (* [.] : any character but a newline *)
| Group (n : nat)      (* [(\d{n})] : a group capturing [n] digits *)
| LazyAny.             (* [.*?] *)

Definition regex := list atom.

Definition is_meta (c : ascii) : bool :=
  existsb (Ascii.eqb c)
    ["\"; "^"; "$"; "."; "|"; "?"; "*"; "+"; "("; ")"; "["; "]"; "{"; "}"]%char.

(** [s] starts with [(\d{n})] for a one-digit [n]. *)
Definition group_width (s : string) : option nat :=
  if Str.prefix "(\d{" s && Str.prefix "})" (Str.drop 5 s) then
    match Str.drop 4 s with
    | String n _ => if Chars.is_digit n then Some (Z.to_nat (Chars.digit_val n)) else None
    | EmptyString => None
    end
  else None.

(** [skip] counts the characters of the current atom still to pass. *)
Fixpoint compile_go (skip : nat) (s : string) : result regex :=
  match s with
  | EmptyString => Ok []
  | String c s' =>
      match skip with
      | S k => compile_go k s'
      | O =>
          if negb (is_meta c) then r ← compile_go 0 s'; Ok (Lit c :: r)
          else if Ascii.eqb c "." then
            if Str.prefix "*?" s' then r ← compile_go 2 s'; Ok (LazyAny :: r)
            else r ← compile_go 0 s'; Ok (Dot :: r)
          else if Ascii.eqb c "(" then
            match group_width s with
            | Some n => r ← compile_go 6 s'; Ok (Group n :: r)
            | None => Raise Unmodelled
            end
          else Raise Unmodelled
      end
  end.

(** [re.compile(s)] *)
Definition compile (s : string) : result regex := compile_go 0 s.

Definition groups (r : regex) : nat :=
  List.length (List.filter (fun a => match a with Group _ => true | _ => false end) r).

(** Match [r] at the start of [s]: the captured groups and the rest of
    [s], following the backtracking order of [re]. *)
Fixpoint match_here (r : regex) (s : string) : option (list string * string) :=
  match r with
  | [] => Some ([], s)
  | Lit c :: r' =>
      match s with
      | String c' s' => if Ascii.eqb c c' then match_here r' s' else None
      | EmptyString => None
      end
  | Dot :: r' =>
      match s with
      | String c' s' => if Ascii.eqb c' Chars.newline then None else match_here r' s'
      | EmptyString => None
      end
  | Group n :: r' =>
      let g := Str.take n s in
      if (Str.length g =? n)%nat && Str.all Chars.is_digit g then
        match match_here r' (Str.drop n s) with
        | Some (caps, rest) => Some (g :: caps, rest)
        | None => None
        end
      else None
  | LazyAny :: r' =>
      (fix lazy (s : string) : option (list string * string) :=
         match match_here r' s with
         | Some x => Some x
         | None =>
             match s with
             | String c' s' => if Ascii.eqb c' Chars.newline then None else lazy s'
             | EmptyString => None
             end
         end) s
  end.

(** [regex.match(s)] succeeds. *)
Definition matches (r : regex) (s : string) : bool :=
  match match_here r s with Some _ => true | None => false end.

(** The leftmost match: its groups and its text. *)
Fixpoint search (r : regex) (s : string) : option (list string * string) :=
  match match_here r s with
  | Some (caps, rest) => Some (caps, Str.take (Str.length s - Str.length rest) s)
  | None =>
      match s with
      | String _ s' => search r s'
      | EmptyString => None
      end
  end.

(** [regex.findall(s)[0]], as the sequence that indexing it reads: with
    two groups or more it is the tuple of the groups; with one group it
    is the string of that group, and with none the matched text, whose
    items are characters. *)
Definition findall_first (r : regex) (s : string) : option (list string) :=
  match search r s with
  | Some ([], whole) => Some (Str.chars whole)
  | Some ([g], _) => Some (Str.chars g)
  | Some (caps, _) => Some caps
  | None => None
  end.

(** [re.findall("\{(\w+)\}", s)] *)
Fixpoint find_fields_go (cur : option string) (s : string) : list string :=
  match s with
  | EmptyString => []
  | String c s' =>
      if Ascii.eqb c "{" then find_fields_go (Some EmptyString) s'
      else
        match cur with
        | Some acc =>
            if Chars.is_word c then find_fields_go (Some (String c acc)) s'
            else if Ascii.eqb c "}" && negb (String.eqb acc EmptyString)
            then String.rev acc :: find_fields_go None s'
            else find_fields_go None s'
        | None => find_fields_go None s'
        end
  end.
Definition find_fields (s : string) : list string := find_fields_go None s.

End Re.


(** ** The class [Dataset] *)

Definition interval : Set := datetime * datetime.

(** The class attribute [Dataset.placeholder] as the class body leaves
    it.  It is one dictionary, shared by all instances. *)
Definition placeholder_table : gmap string string :=
  list_to_map
    [ ("year", "(\d{4})"); ("year2", "(\d{2})"); ("month", "(\d{2})");
      ("day", "(\d{2})"); ("doy", "(\d{3})"); ("hour", "(\d{2})");
      ("minute", "(\d{2})"); ("second", "(\d{2})");
      ("millisecond", "(\d{3})");
      ("end_year", "(\d{4})"); ("end_year2", "(\d{2})");
      ("end_month", "(\d{2})"); ("end_day", "(\d{2})");
      ("end_doy", "(\d{3})"); ("end_hour", "(\d{2})");
      ("end_minute", "(\d{2})"); ("end_second", "(\d{2})");
      ("end_millisecond", "(\d{3})");
      ("name", "") ].

(** The attribute [time_coverage]: one of the strings ["filename"] and
    ["content"], or an explicit pair. *)
Inductive coverage : Set :=
| ByFilename
| ByContent
| Explicit (times : interval).

(** The argument [retrieve_method] when it is given. *)
Inductive method : Set := Filename | Content.

Record Dataset : Type := mkDataset {
  name : string;
  files : string;
  files_placeholders : list string;
  single_file : bool;
  (* [handler.get_info(file)["times"]], [None] without a handler *)
  handler : option (string → result interval);
  continuous : bool;
  max_processes : Z;
  time_coverage : coverage;
  times_cache_filename : option string;
  time_coverages_cache : gmap string interval
}.

Definition set_cache (c : gmap string interval) (d : Dataset) : Dataset :=
  mkDataset (name d) (files d) (files_placeholders d) (single_file d)
            (handler d) (continuous d) (max_processes d) (time_coverage d)
            (times_cache_filename d) c.

Definition lookup_or {A} (e : exn) (o : option A) : result A :=
  match o with
  | Some a => Ok a
  | None => Raise e
  end.

(** The loop of [_create_date_from_placeholders].  [prefix] is the
    string that the method works with after [if prefix is None: prefix =
    ""], so the test [prefix is None] inside the loop never holds. *)
Fixpoint create_date_loop (prefix : string) (exclude : option string)
    (values : list string) (index : nat) (placeholders : list string)
    (date_args : gmap string Z) : result (gmap string Z) :=
  match placeholders with
  | [] => Ok date_args
  | placeholder :: rest =>
      v ← lookup_or IndexError (values !! index);
      value ← Num.py_int v;
      let date_args' :=
        if String.eqb placeholder (prefix +:+ "year2") then
          if value <? 65 then <["year" := 2000 + value]> date_args
          else <["year" := 1900 + value]> date_args
        else if String.eqb placeholder (prefix +:+ "millisecond") then
          <[prefix +:+ "microsecond" := value * 1000]> date_args
        else if match exclude with
                | None => true
                | Some ex => negb (Str.prefix ex placeholder)
                end && Str.prefix prefix placeholder then
          <[Str.drop (Str.length prefix) placeholder := value]> date_args
        else date_args in
      create_date_loop prefix exclude values (S index) rest date_args'
  end.

Definition _create_date_from_placeholders (placeholders : list string)
    (values : list string) (prefix : option string) (exclude : option string)
    (default_args : option (gmap string Z)) : result (gmap string Z) :=
  let prefix := default EmptyString prefix in
  let date_args := default ∅ default_args in
  date_args ← create_date_loop prefix exclude values 0 placeholders date_args;
  if bool_decide (prefix +:+ "doy" ∈ placeholders) then
    y ← lookup_or KeyError (date_args !! "year");
    first ← of_kwargs (<["year" := y]> (<["month" := 1]> (<["day" := 1]> ∅)));
    doy ← lookup_or KeyError (date_args !! "doy");
    date ← add first (days (doy - 1));
    Ok (delete "doy" (<["day" := day date]> (<["month" := month date]> date_args)))
  else Ok date_args.

(** [None] is the value of a Python function that ends without
    [return]. *)
Definition _get_time_resolution (date_args : gmap string Z) : option timedelta :=
  if bool_decide (is_Some (date_args !! "millisecond")) then Some (milliseconds 1)
  else if bool_decide (is_Some (date_args !! "second")) then Some (seconds 1)
  else if bool_decide (is_Some (date_args !! "minute")) then Some (minutes 1)
  else if bool_decide (is_Some (date_args !! "hour")) then Some (hours 1)
  else if bool_decide (is_Some (date_args !! "day")) then Some (days 1)
  else None.

(** [datetime + x]: adding [None] is a [TypeError]. *)
Definition add_opt (t : datetime) (delta : option timedelta) : result datetime :=
  match delta with
  | Some dt => add t dt
  | None => Raise TypeError
  end.

(** The regular expression of the template:
    [re.compile(self.files.format( **Dataset.placeholder ).replace("*", ".*?"))] *)
Definition template_regex (table : gmap string string) (template : string)
    : result Re.regex :=
  regex ← Format.format template table;
  Re.compile (Str.replace_star regex).

Definition get_info (d : Dataset) (filename : string) : result interval :=
  match handler d with
  | None => Raise NoHandlerError
  | Some info => info filename
  end.

(** The branch [retrieve_method == "filename"] of
    [retrieve_time_coverage]. *)
Definition coverage_from_filename (table : gmap string string) (d : Dataset)
    (filename : string) : result interval :=
  if single_file d then Raise ValueError
  else
    regex ← template_regex table (files d);
    values ← lookup_or ValueError (Re.findall_first regex filename);
    start_date_args ← _create_date_from_placeholders
      (files_placeholders d) values None (Some "end_") None;
    end_date_args ← _create_date_from_placeholders
      (files_placeholders d) values (Some "end_") None (Some start_date_args);
    start_date ← of_kwargs start_date_args;
    end_date ← of_kwargs end_date_args;
    end_date ←
      (if continuous d && eqb start_date end_date
       then add_opt end_date (_get_time_resolution start_date_args)
       else Ok end_date);
    end_date ←
      (if ltb end_date start_date then add end_date (days 1) else Ok end_date);
    Ok (start_date, end_date).

(** [retrieve_time_coverage]: the time coverage and the dataset with its
    cache updated.  [table] is the value of [Dataset.placeholder] at the
    time of the call. *)
Definition retrieve_time_coverage (table : gmap string string) (d : Dataset)
    (filename : string) (retrieve_method : option method)
    : result (interval * Dataset) :=
  match time_coverages_cache d !! filename with
  | Some times => Ok (times, d)
  | None =>
      let by_method (m : method) :=
        time_coverage ←
          match m with
          | Filename => coverage_from_filename table d filename
          | Content => get_info d filename
          end;
        Ok (time_coverage,
            set_cache (<[filename := time_coverage]> (time_coverages_cache d)) d) in
      match retrieve_method with
      | Some m => by_method m
      | None =>
          match time_coverage d with
          | Explicit times => Ok (times, d)
          | ByFilename => by_method Filename
          | ByContent => by_method Content
          end
      end
  end.

(** [generate_filename]; the times are [datetime] objects already. *)
Definition filename_fields (d : Dataset) (start_time end_time : datetime)
    : gmap string string :=
  let doy (t : datetime) := toordinal t - ymd2ord (year t) 1 1 + 1 in
  list_to_map
    [ ("year", Num.py_str (year start_time));
      ("year2", Str.last_n 2 (Num.py_str (year start_time)));
      ("month", Num.format_d 2 (month start_time));
      ("day", Num.format_d 2 (day start_time));
      ("doy", Num.format_d 3 (doy start_time));
      ("hour", Num.format_d 2 (hour start_time));
      ("minute", Num.format_d 2 (minute start_time));
      ("second", Num.format_d 2 (second start_time));
      ("millisecond", Num.format_d 3 (microsecond start_time / 1000));
      ("end_year", Num.py_str (year end_time));
      ("end_year2", Str.last_n 2 (Num.py_str (year end_time)));
      ("end_month", Num.format_d 2 (month end_time));
      ("end_day", Num.format_d 2 (day end_time));
      ("end_doy", Num.format_d 3 (doy end_time));
      ("end_hour", Num.format_d 2 (hour end_time));
      ("end_minute", Num.format_d 2 (minute end_time));
      ("end_second", Num.format_d 2 (second end_time));
      ("end_millisecond", Num.format_d 3 (microsecond end_time / 1000));
      ("name", name d) ].

Definition generate_filename (d : Dataset) (template : string)
    (start_time : datetime) (end_time : option datetime) : result string :=
  let end_time := default start_time end_time in
  Format.format template (filename_fields d start_time end_time).

(** ** Class-level state, construction and the saved cache *)

(** [strftime("%Y-%m-%dT%H:%M:%S.%f")].  [%Y] is printed as the C
    library of Linux prints it, without padding; the other fields have a
    fixed width. *)
Definition strftime (t : datetime) : string :=
  Num.py_str (year t) +:+ "-" +:+ Num.zpad 2 (month t) +:+ "-" +:+ Num.zpad 2 (day t)
  +:+ "T" +:+ Num.zpad 2 (hour t) +:+ ":" +:+ Num.zpad 2 (minute t)
  +:+ ":" +:+ Num.zpad 2 (second t) +:+ "." +:+ Num.zpad 6 (microsecond t).

Module Strptime.

Definition parser (A : Type) : Type := string → option (A * string).

Definition dv (c : ascii) : Z := Chars.digit_val c.
Definition between (lo hi : Z) (c : ascii) : bool :=
  Chars.is_digit c && (lo <=? dv c) && (dv c <=? hi).

(** A literal character of the format.  The regular expression of the
    format is compiled with [re.IGNORECASE], so a letter of the format
    is matched in either case. *)
Definition lit (c : ascii) : parser unit := fun s =>
  match s with
  | String c' s' =>
      if Ascii.eqb (Chars.lower c) (Chars.lower c') then Some (tt, s') else None
  | EmptyString => None
  end.

(** [%Y]: [\d\d\d\d] *)
Definition p_Y : parser Z := fun s =>
  let g := Str.take 4 s in
  if (Str.length g =? 4)%nat && Str.all Chars.is_digit g
  then match Num.int_go g 0 with
       | Some n => Some (n, Str.drop 4 s)
       | None => None
       end
  else None.

(** A field of one or two digits: the alternatives of two characters
    come first, as in the regular expression of the directive. *)
Definition two_or_one (two : ascii → ascii → bool) (one : ascii → bool)
    : parser Z := fun s =>
  match s with
  | String a (String b s') =>
      if two a b then Some (10 * dv a + dv b, s')
      else if one a then Some (dv a, String b s')
      else None
  | String a EmptyString => if one a then Some (dv a, EmptyString) else None
  | EmptyString => None
  end.

(** [%m]: [1[0-2]|0[1-9]|[1-9]] *)
Definition p_m : parser Z :=
  two_or_one (fun a b => (between 1 1 a && between 0 2 b)
                         || (between 0 0 a && between 1 9 b))
             (between 1 9).

(** [%d]: [3[01]|[12]\d|0[1-9]|[1-9]| [1-9]] *)
Definition p_d : parser Z := fun s =>
  match two_or_one (fun a b => (between 3 3 a && between 0 1 b)
                               || (between 1 2 a && between 0 9 b)
                               || (between 0 0 a && between 1 9 b))
                   (between 1 9) s with
  | Some r => Some r
  | None =>
      match s with
      | String a (String b s') =>
          if Ascii.eqb a " " && between 1 9 b then Some (dv b, s') else None
      | _ => None
      end
  end.

(** [%H]: [2[0-3]|[0-1]\d|\d] *)
Definition p_H : parser Z :=
  two_or_one (fun a b => (between 2 2 a && between 0 3 b)
                         || (between 0 1 a && between 0 9 b))
             (between 0 9).

(** [%M]: [[0-5]\d|\d] *)
Definition p_M : parser Z :=
  two_or_one (fun a b => between 0 5 a && between 0 9 b) (between 0 9).

(** [%S]: [6[0-1]|[0-5]\d|\d] *)
Definition p_S : parser Z :=
  two_or_one (fun a b => (between 6 6 a && between 0 1 b)
                         || (between 0 5 a && between 0 9 b))
             (between 0 9).

(** [%f]: [[0-9]{1,6}], greedy; the digits are padded with zeros on
    the right to six. *)
Fixpoint digits_upto (n : nat) (s : string) : string * string :=
  match n, s with
  | S n', String c s' =>
      if Chars.is_digit c
      then let '(g, rest) := digits_upto n' s' in (String c g, rest)
      else (EmptyString, s)
  | _, _ => (EmptyString, s)
  end.

Definition p_f : parser Z := fun s =>
  let '(g, rest) := digits_upto 6 s in
  match g with
  | EmptyString => None
  | _ => match Num.int_go (g +:+ Num.zeros (6 - Str.length g)) 0 with
         | Some n => Some (n, rest)
         | None => None
         end
  end.

Definition andthen {A B} (p : parser A) (f : A → parser B) : parser B :=
  fun s => match p s with
           | Some (a, s') => f a s'
           | None => None
           end.

Definition fields : parser datetime :=
  andthen p_Y (fun y => andthen (lit "-") (fun _ =>
  andthen p_m (fun m => andthen (lit "-") (fun _ =>
  andthen p_d (fun d => andthen (lit "T") (fun _ =>
  andthen p_H (fun h => andthen (lit ":") (fun _ =>
  andthen p_M (fun mi => andthen (lit ":") (fun _ =>
  andthen p_S (fun sec => andthen (lit ".") (fun _ =>
  andthen p_f (fun us => fun s => Some (mk y m d h mi sec us, s)))))))))))))).

(** [datetime.strptime(s, "%Y-%m-%dT%H:%M:%S.%f")]: a string that the
    format does not match, text left over, and values out of range are
    all [ValueError]s. *)
Definition strptime (s : string) : result datetime :=
  match fields s with
  | Some (t, EmptyString) => if valid t then Ok t else Raise ValueError
  | _ => Raise ValueError
  end.

End Strptime.

(** The content of a file on disk, as [json.load] sees it: a JSON object
    whose members are arrays of strings, or text that is not JSON. *)
Inductive file_content : Type :=
| Json (obj : gmap string (list string))
| NotJson.

(** What the methods below share with the rest of the process: the class
    attribute [Dataset.placeholder] and the files of saved caches. *)
Record world : Type := mkWorld {
  placeholder : gmap string string;
  disk : gmap string file_content
}.

Definition initial_world : world := mkWorld placeholder_table ∅.

(** The setter of [name].  [obj_id] is [str(id(self))].  The assignment
    [self.placeholder["name"] = value] stores into the dictionary of the
    class, there being no instance attribute of that name. *)
Definition set_name (w : world) (d : Dataset) (obj_id : string)
    (value : option string) : world * Dataset :=
  let value := default obj_id value in
  (mkWorld (<["name" := value]> (placeholder w)) (disk w),
   mkDataset value (files d) (files_placeholders d) (single_file d)
             (handler d) (continuous d) (max_processes d) (time_coverage d)
             (times_cache_filename d) (time_coverages_cache d)).

(** The setter of [files]. *)
Definition set_files (d : Dataset) (value : string) : Dataset :=
  let placeholders := Re.find_fields value in
  mkDataset (name d) value placeholders
            (bool_decide (placeholders = []) && negb (Str.contains "*" value))
            (handler d) (continuous d) (max_processes d) (time_coverage d)
            (times_cache_filename d) (time_coverages_cache d).

(** One member of the saved object: [[strptime(times[0]), strptime(times[1])]] *)
Definition parse_times (times : list string) : result interval :=
  t0 ← lookup_or IndexError (times !! 0%nat);
  t0 ← Strptime.strptime t0;
  t1 ← lookup_or IndexError (times !! 1%nat);
  t1 ← Strptime.strptime t1;
  Ok (t0, t1).

Fixpoint parse_members (l : list (string * list string))
    : result (list (string * interval)) :=
  match l with
  | [] => Ok []
  | (file, times) :: l' =>
      t ← parse_times times;
      rest ← parse_members l';
      Ok ((file, t) :: rest)
  end.

(** [load_time_coverages].  Text that is not JSON only gives a warning.
    When several members are malformed Python raises for the first one in
    the order of the file, the model for the first one in the order of
    [map_to_list]. *)
Definition load_time_coverages (w : world) (d : Dataset)
    (filename : option string) : result Dataset :=
  match filename with
  | None => Ok d
  | Some f =>
      match disk w !! f with
      | None => Ok d
      | Some NotJson => Ok d
      | Some (Json obj) =>
          time_coverages ← parse_members (map_to_list obj);
          Ok (set_cache (list_to_map time_coverages ∪ time_coverages_cache d) d)
      end
  end.

(** [save_time_coverages] *)
Definition save_time_coverages (w : world) (d : Dataset)
    (filename : option string) : world :=
  match filename with
  | None => w
  | Some f =>
      let time_coverages :=
        (fun times : interval => [strftime times.1; strftime times.2])
          <$> time_coverages_cache d in
      mkWorld (placeholder w) (<[f := Json time_coverages]> (disk w))
  end.

Definition set_time_coverage (tc : coverage) (d : Dataset) : Dataset :=
  mkDataset (name d) (files d) (files_placeholders d) (single_file d)
            (handler d) (continuous d) (max_processes d) tc
            (times_cache_filename d) (time_coverages_cache d).

Definition datetime_min : datetime := mk 1 1 1 0 0 0 0.
Definition datetime_max : datetime := mk 9999 12 31 23 59 59 999999.

(** [Dataset.__init__].  [handler] is already the handler in use
    ([NetCDF4()] when the caller gives none); [time_coverage] is [None],
    one of the two strings, or a pair of [datetime] objects. *)
Definition init (w : world) (obj_id : string) (files : string)
    (handler : option (string → result interval)) (name : option string)
    (time_coverage : option coverage) (times_cache : option string)
    (continuous : bool) (max_processes : option Z) : result (world * Dataset) :=
  let d0 := mkDataset EmptyString EmptyString [] false handler continuous
                      (default 4 max_processes) ByFilename times_cache ∅ in
  let '(w, d) := set_name w d0 obj_id name in
  let d := set_files d files in
  let tc := match time_coverage with
            | None => if single_file d then Explicit (datetime_min, datetime_max)
                      else ByFilename
            | Some tc => tc
            end in
  let d := set_time_coverage tc d in
  d ← load_time_coverages w d times_cache;
  Ok (w, d).

(** What [atexit] runs for a dataset constructed with [times_cache]. *)
Definition at_exit (w : world) (d : Dataset) : world :=
  save_time_coverages w d (times_cache_filename d).


(** ** Searching files *)

(** What the search asks the file system: [os.path.isfile],
    [os.path.isdir], and for a path the files that the recursive globbing
    of [_get_all_files] reaches from it, in the order of enumeration. *)
Record filesystem : Type := mkFs {
  isfile : string → bool;
  isdir : string → bool;
  walk : string → list string
}.

(** A generator that has been run to its end: the items it yielded and
    the exception that ended it, if one did; [final] is the dataset with
    the cache as the run leaves it. *)
Record outcome : Type := mkOutcome {
  yielded : list (string * interval);
  raised : option exn;
  final : Dataset
}.

Definition stop (e : exn) (d : Dataset) : outcome := mkOutcome [] (Some e) d.

Definition yield_first (item : string * interval) (o : outcome) : outcome :=
  mkOutcome (item :: yielded o) (raised o) (final o).

(** [sorted(items, key=lambda x: x[1][0])]: a stable sort that compares
    keys with [<] only. *)
Fixpoint insert_by_start (x : string * interval) (l : list (string * interval))
    : list (string * interval) :=
  match l with
  | [] => [x]
  | y :: l' =>
      if ltb (y.2.1) (x.2.1) then y :: insert_by_start x l'
      else x :: y :: l'
  end.

Definition sorted_by_start (l : list (string * interval)) : list (string * interval) :=
  foldr insert_by_start [] l.

(** [list(pd.date_range(first, last))] for a midnight [first]: one
    timestamp per day, up to [last]. *)
Definition date_range (first last : datetime) : list datetime :=
  (fun i => midnight (shift_days (Z.of_nat i) (date_of first)))
    <$> seq 0 (Z.to_nat (toordinal last - toordinal first + 1)).

Fixpoint list_min (l : list nat) : option nat :=
  match l with
  | [] => None
  | x :: l' => match list_min l' with
               | Some m => Some (Nat.min x m)
               | None => Some x
               end
  end.

Section FindFiles.

(** [IntervalTree.overlaps] is imported from [typhon.trees]. *)
Variable overlaps : interval → interval → bool.
Variable fs : filesystem.
Variable table : gmap string string.

Definition _get_all_files (path : string) (regex : Re.regex) : list string :=
  List.filter (Re.matches regex) (walk fs path).

Definition _get_files_path (d : Dataset) (date : datetime)
    (path_parts : list string) (day_index : nat) : result string :=
  let path_name := Str.join "/" (take (day_index + 1) path_parts) in
  let day_indices :=
    match Str.index "{day}" path_name with
    | Some i => [(i + 5)%nat]
    | None => []
    end ++
    match Str.index "{doy}" path_name with
    | Some i => [(i + 5)%nat]
    | None => []
    end in
  cut ← lookup_or ValueError (list_min day_indices);
  daily_path ← generate_filename d (Str.take cut path_name) date None;
  Ok (if isdir fs daily_path then daily_path +:+ "/" else daily_path).

Definition _check_file (d : Dataset) (filename : string)
    (start end_ : datetime) : result (bool * Dataset) :=
  '(times, d) ← retrieve_time_coverage table d filename None;
  Ok (overlaps times (start, end_), d).

(** The generator expression [found_files], for the files of one
    directory and then for all dates. *)
Fixpoint scan_files (d : Dataset) (start end_ : datetime)
    (filenames : list string) : outcome :=
  match filenames with
  | [] => mkOutcome [] None d
  | filename :: rest =>
      match _check_file d filename start end_ with
      | Raise e => stop e d
      | Ok (false, d) => scan_files d start end_ rest
      | Ok (true, d) =>
          match retrieve_time_coverage table d filename None with
          | Raise e => stop e d
          | Ok (times, d) =>
              yield_first (filename, times) (scan_files d start end_ rest)
          end
      end
  end.

Fixpoint scan_dates (d : Dataset) (start end_ : datetime)
    (path_parts : list string) (day_index : nat) (regex : Re.regex)
    (dates : list datetime) : outcome :=
  match dates with
  | [] => mkOutcome [] None d
  | date :: rest =>
      match _get_files_path d date path_parts day_index with
      | Raise e => stop e d
      | Ok path =>
          let o := scan_files d start end_ (_get_all_files path regex) in
          match raised o with
          | Some _ => o
          | None =>
              let o' := scan_dates (final o) start end_ path_parts day_index
                                   regex rest in
              mkOutcome (yielded o ++ yielded o') (raised o') (final o')
          end
      end
  end.

(** The index of the first part of the path with a day placeholder, 0
    when there is none. *)
Fixpoint find_day_index (index : nat) (path_parts : list string) : nat :=
  match path_parts with
  | [] => O
  | part :: rest =>
      if Str.contains "{day}" part || Str.contains "{doy}" part then index
      else find_day_index (S index) rest
  end.

Definition search_dates (start end_ : datetime) : result (list datetime) :=
  first ← add (midnight (date_of start)) (days (-1));
  let dates := date_range first end_ in
  Ok (if (1 <? length dates)%nat && bool_decide (last dates = Some end_)
      then removelast dates else dates).

(** [sorted] consumes its argument before anything is yielded. *)
Definition in_order (sort : bool) (o : outcome) : outcome :=
  if sort then
    match raised o with
    | Some e => stop e (final o)
    | None => mkOutcome (sorted_by_start (yielded o)) None (final o)
    end
  else o.

(** [find_files], run to its end. *)
Definition find_files (d : Dataset) (start end_ : datetime) (sort : bool)
    (no_files_error : bool) : outcome :=
  if single_file d then
    if isfile fs (files d) then
      match retrieve_time_coverage table d (files d) None with
      | Raise e => stop e d
      | Ok (time_coverage, d) =>
          if overlaps time_coverage (start, end_)
          then mkOutcome [(files d, time_coverage)] None d
          else if no_files_error then stop NoFilesError d
          else mkOutcome [] None d
      end
    else stop ValueError d
  else
    let path_parts := Str.split "/" (files d) in
    let day_index := find_day_index 0 path_parts in
    match template_regex table (files d) with
    | Raise e => stop e d
    | Ok regex =>
        match search_dates start end_ with
        | Raise e => stop e d
        | Ok dates =>
            let found_files :=
              scan_dates d start end_ path_parts day_index regex dates in
            if negb no_files_error then in_order sort found_files
            else
              match yielded found_files, raised found_files with
              | [], None => stop NoFilesError (final found_files)
              | [], Some e => stop e (final found_files)
              | _ :: _, _ => in_order sort found_files
              end
        end
    end.

End FindFiles.

(** Modelled from the spec: [IntervalTree.overlaps] of [typhon.trees],
    which is not among the sources.  Two intervals overlap when each
    starts before the other ends; touching end points do not count. *)
Definition overlaps_spec (a b : interval) : bool :=
  ltb a.1 b.2 && ltb b.1 a.2.

(** ** Running the model *)

(** The time coverage alone. *)
Definition resolve (table : gmap string string) (d : Dataset)
    (filename : string) : result interval :=
  '(times, _) ← retrieve_time_coverage table d filename None;
  Ok times.

(** [Dataset(files, name=name, continuous=continuous)] in a fresh
    process, and the class table that the construction leaves. *)
Definition new_dataset (files name : string) (continuous : bool)
    : result (world * Dataset) :=
  init initial_world "140277501327120" files None (Some name) None None
       continuous None.

(** Construct the dataset, then retrieve the time coverage of a file. *)
Definition resolve_new (files : string) (continuous : bool) (filename : string)
    : result interval :=
  '(w, d) ← new_dataset files "TestData" continuous;
  resolve (placeholder w) d filename.

(** Construct the dataset, generate the name of the file of a time, then
    retrieve the time coverage of that file. *)
Definition round_trip (files : string) (continuous : bool) (t : datetime)
    : result interval :=
  '(w, d) ← new_dataset files "TestData" continuous;
  filename ← generate_filename d files t None;
  resolve (placeholder w) d filename.

(** [t] lies in the half-open interval. *)
Definition covers (times : interval) (t : datetime) : bool :=
  leb times.1 t && ltb t times.2.


(** ** Definitions that the statements and proofs use *)

(** The [n] integers from [lo] on. *)
Definition zrange (lo : Z) (n : nat) : list Z :=
  (fun i => lo + Z.of_nat i) <$> seq 0 n.

(** The key and the value that one round of the loop of
    [_create_date_from_placeholders] stores for a placeholder. *)
Definition written (prefix : string) (exclude : option string)
    (placeholder : string) (value : Z) : option (string * Z) :=
  if String.eqb placeholder (prefix +:+ "year2") then
    Some ("year", if value <? 65 then 2000 + value else 1900 + value)
  else if String.eqb placeholder (prefix +:+ "millisecond") then
    Some (prefix +:+ "microsecond", value * 1000)
  else if match exclude with
          | None => true
          | Some ex => negb (Str.prefix ex placeholder)
          end && Str.prefix prefix placeholder then
    Some (Str.drop (Str.length prefix) placeholder, value)
  else None.

Definition written_key (prefix : string) (exclude : option string)
    (placeholder : string) : option string :=
  fst <$> written prefix exclude placeholder 0.

(** Month and day of a date are in range. *)
Definition date_ok (d : Z * Z * Z) : Prop :=
  1 <= d.1.2 <= 12 ∧ 1 <= d.2 <= days_in_month d.1.1 d.1.2.

(** The fields of the time of day are in range. *)
Definition time_ok (t : datetime) : Prop :=
  0 <= hour t <= 23 ∧ 0 <= minute t <= 59 ∧ 0 <= second t <= 59
  ∧ 0 <= microsecond t <= 999999.

Definition ord (d : Z * Z * Z) : Z := ymd2ord d.1.1 d.1.2 d.2.

(** Microseconds since the midnight before 0001-01-01. *)
Definition stamp (t : datetime) : Z :=
  toordinal t * days 1 + time_of_day t.

(** A time that [strftime] prints with a year of four digits. *)
Definition representable (t : datetime) : Prop :=
  valid t = true ∧ 1000 <= year t.

(** The two digits of [n] are accepted by the two-character alternatives
    [two] of a directive, with the value [n]. *)
Definition zpad2_ok (two : ascii → ascii → bool) (n : Z) : bool :=
  match Num.zpad 2 n with
  | String a (String b EmptyString) =>
      two a b && (10 * Strptime.dv a + Strptime.dv b =? n)
  | _ => false
  end.

(** What [save_time_coverages] writes for one entry of the cache. *)
Definition saved_times (times : interval) : list string :=
  [strftime times.1; strftime times.2].

(** The start of the first item is not after the start of the second. *)
Definition start_le (a b : string * interval) : Prop :=
  leb a.2.1 b.2.1 = true.




(** A directory of two files of one minute each. *)
Definition two_files : filesystem :=
  mkFs (fun _ => false)
       (fun p => String.eqb p "/dir/2017/11/12")
       (fun p => if String.eqb p "/dir/2017/11/12/"
                 then ["/dir/2017/11/12/1230.nc"; "/dir/2017/11/12/0130.nc"]
                 else []).

Definition minutely : Dataset :=
  mkDataset "TestData" "/dir/{year}/{month}/{day}/{hour}{minute}.nc"
            ["year"; "month"; "day"; "hour"; "minute"] false None true 4
            ByFilename None ∅.





(** The placeholders of the start of the time coverage. *)
Inductive start_field : Set :=
| Fyear | Fyear2 | Fmonth | Fday | Fdoy | Fhour | Fminute | Fsecond
| Fmillisecond.

Global Instance start_field_eq_dec : EqDecision start_field.
Proof. solve_decision. Defined.

Definition field_name (f : start_field) : string :=
  match f with
  | Fyear => "year" | Fyear2 => "year2" | Fmonth => "month" | Fday => "day"
  | Fdoy => "doy" | Fhour => "hour" | Fminute => "minute"
  | Fsecond => "second" | Fmillisecond => "millisecond"
  end.

(** The number of digits of the group of a placeholder. *)
Definition field_width (f : start_field) : nat :=
  match f with
  | Fyear => 4 | Fdoy | Fmillisecond => 3 | _ => 2
  end.

(** The day of the year, as [generate_filename] computes it. *)
Definition day_of_year (t : datetime) : Z :=
  toordinal t - ymd2ord (year t) 1 1 + 1.

(** The number that [generate_filename] prints for a placeholder. *)
Definition field_value (f : start_field) (t : datetime) : Z :=
  match f with
  | Fyear => year t | Fyear2 => year t mod 100 | Fmonth => month t
  | Fday => day t | Fdoy => day_of_year t | Fhour => hour t
  | Fminute => minute t | Fsecond => second t
  | Fmillisecond => microsecond t / 1000
  end.

(** A path template, piece by piece: a character that stands for itself
    in [str.format] and in [re] (the dot included, which as a regular
    expression matches itself among others), the wildcard, or a
    placeholder of the start. *)
Inductive piece : Set :=
| Text (c : ascii)
| Star
| Field (f : start_field).

Definition plain (c : ascii) : bool :=
  negb (Re.is_meta c) || Ascii.eqb c ".".

Definition piece_ok (p : piece) : bool :=
  match p with
  | Text c => plain c
  | _ => true
  end.

Definition is_star (p : piece) : bool :=
  match p with Star => true | _ => false end.

(** The text of a template. *)
Fixpoint render (ps : list piece) : string :=
  match ps with
  | [] => EmptyString
  | Text c :: ps' => String c (render ps')
  | Star :: ps' => String "*" (render ps')
  | Field f :: ps' => "{" +:+ field_name f +:+ "}" +:+ render ps'
  end.

Fixpoint fields_of (ps : list piece) : list start_field :=
  match ps with
  | [] => []
  | Field f :: ps' => f :: fields_of ps'
  | _ :: ps' => fields_of ps'
  end.

(** The regular expression of a template. *)
Fixpoint regex_of (ps : list piece) : Re.regex :=
  match ps with
  | [] => []
  | Text c :: ps' =>
      (if Ascii.eqb c "." then Re.Dot else Re.Lit c) :: regex_of ps'
  | Star :: ps' => Re.LazyAny :: regex_of ps'
  | Field f :: ps' => Re.Group (field_width f) :: regex_of ps'
  end.

(** The name of the file of a time. *)
Fixpoint fill (ps : list piece) (t : datetime) : string :=
  match ps with
  | [] => EmptyString
  | Text c :: ps' => String c (fill ps' t)
  | Star :: ps' => String "*" (fill ps' t)
  | Field f :: ps' => Num.zpad (field_width f) (field_value f t) +:+ fill ps' t
  end.

(** The entry of a placeholder in the class table. *)
Definition field_regex (f : start_field) : string :=
  match f with
  | Fyear => "(\d{4})"
  | Fdoy | Fmillisecond => "(\d{3})"
  | _ => "(\d{2})"
  end.

(** The text of the regular expression of a template, before
    [re.compile]. *)
Definition regex_text (ps : list piece) : string :=
  Str.concat ((fun p => match p with
                        | Text c => String c EmptyString
                        | Star => "*"
                        | Field f => field_regex f
                        end) <$> ps).

(** A class table with the entries of the class body, whatever the name
    that was stored last. *)
Definition standard_table (table : gmap string string) : Prop :=
  ∀ f, table !! field_name f = placeholder_table !! field_name f.

(** The widths of the groups of a regular expression. *)
Fixpoint group_widths (r : Re.regex) : list nat :=
  match r with
  | [] => []
  | Re.Group n :: r' => n :: group_widths r'
  | _ :: r' => group_widths r'
  end.

(** A captured group: [n] digits. *)
Definition digits_of_width (g : string) (n : nat) : Prop :=
  Str.length g = n ∧ Str.all Chars.is_digit g = true.

(** The keyword of [datetime] that the start pass stores for a
    placeholder ([doy] is replaced by month and day afterwards). *)
Definition key_of (f : start_field) : string :=
  match f with
  | Fyear | Fyear2 => "year" | Fmonth => "month" | Fday => "day"
  | Fdoy => "doy" | Fhour => "hour" | Fminute => "minute"
  | Fsecond => "second" | Fmillisecond => "microsecond"
  end.

(** The value that the start pass stores for the file of the time [t]. *)
Definition arg_of (f : start_field) (t : datetime) : Z :=
  match f with
  | Fyear | Fyear2 => year t | Fmonth => month t | Fday => day t
  | Fdoy => day_of_year t | Fhour => hour t | Fminute => minute t
  | Fsecond => second t
  | Fmillisecond => microsecond t / 1000 * 1000
  end.

(** The digits that [generate_filename] writes for a placeholder. *)
Definition field_digits (t : datetime) (f : start_field) : string :=
  Num.zpad (field_width f) (field_value f t).

(** The year can be written, and read back, with the placeholder. *)
Definition year_fits (f : start_field) (t : datetime) : Prop :=
  match f with
  | Fyear => 1000 <= year t
  | Fyear2 => 1965 <= year t <= 2064
  | _ => True
  end.

Definition store (t : datetime) (m : gmap string Z) (f : start_field)
    : gmap string Z :=
  <[key_of f := arg_of f t]> m.

(** The placeholder [f] is among [fs]. *)
Definition has (fs : list start_field) (f : start_field) : bool :=
  bool_decide (f ∈ fs).

(** The time [t] cut down to the fields that the placeholders [fs] give
    (the date is always given). *)
Definition truncated (fs : list start_field) (t : datetime) : datetime :=
  mk (year t) (month t) (day t)
     (if has fs Fhour then hour t else 0)
     (if has fs Fminute then minute t else 0)
     (if has fs Fsecond then second t else 0)
     (if has fs Fmillisecond then microsecond t / 1000 * 1000 else 0).

(** The time resolution that [_get_time_resolution] finds for the
    placeholders [fs]: the millisecond is never found. *)
Definition unit_of (fs : list start_field) : timedelta :=
  if has fs Fsecond then seconds 1
  else if has fs Fminute then minutes 1
  else if has fs Fhour then hours 1
  else days 1.

(** The placeholders give a year and a day, and no unit of time without
    the next coarser one. *)
Definition resolvable (fs : list start_field) : Prop :=
  (Fyear ∈ fs ∨ Fyear2 ∈ fs)
  ∧ (Fdoy ∈ fs ∨ (Fmonth ∈ fs ∧ Fday ∈ fs))
  ∧ (Fminute ∈ fs → Fhour ∈ fs)
  ∧ (Fsecond ∈ fs → Fminute ∈ fs)
  ∧ (Fmillisecond ∈ fs → Fsecond ∈ fs).

(** What the start pass leaves for the file of [t]. *)
Definition start_args_of (fs : list start_field) (t : datetime)
    (args : gmap string Z) : Prop :=
  args !! "year" = Some (year t)
  ∧ args !! "month" = Some (month t)
  ∧ args !! "day" = Some (day t)
  ∧ args !! "hour" = (if has fs Fhour then Some (hour t) else None)
  ∧ args !! "minute" = (if has fs Fminute then Some (minute t) else None)
  ∧ args !! "second" = (if has fs Fsecond then Some (second t) else None)
  ∧ args !! "microsecond"
    = (if has fs Fmillisecond then Some (microsecond t / 1000 * 1000) else None)
  ∧ ∀ k, is_Some (args !! k) → k ∈ allowed_keys.

(** The template of the docstring of [Dataset], piece by piece. *)
Definition docstring_pieces : list piece :=
  [Text "/"; Text "d"; Text "i"; Text "r"; Text "/"; Field Fyear; Text "/";
   Field Fmonth; Text "/"; Field Fday; Text "/"; Field Fhour; Field Fminute;
   Field Fsecond; Text "."; Text "n"; Text "c"].

Definition docstring_dataset : Dataset :=
  mkDataset "TestData" "/dir/{year}/{month}/{day}/{hour}{minute}{second}.nc"
            ["year"; "month"; "day"; "hour"; "minute"; "second"] false None
            true 4 ByFilename None ∅.

(** The year that a dataset of daily files with a two-digit year reads
    from the file of the first of January with the digits of [v]. *)
Definition year2_read (v : Z) : option Z :=
  match resolve_new "{year2}/{month}/{day}.dat" false
          (Num.zpad 2 v +:+ "/01/01.dat") with
  | Ok times => Some (year times.1)
  | Raise _ => None
  end.

Definition year2_rule (v : Z) : Z := if v <? 65 then 2000 + v else 1900 + v.

(** ** Further definitions: more of the class, and what the properties
    below are stated with *)

(** [d'] is [d] with a cache that has the entries of the cache of [d],
    and more. *)
Definition extends (d d' : Dataset) : Prop :=
  time_coverages_cache d ⊆ time_coverages_cache d'
  ∧ d' = set_cache (time_coverages_cache d') d.

(** The file is one that the search may yield with the time coverage
    [times]: the time coverage overlaps the query, and it is the one in
    the cache of [d'] or the explicit one of the dataset. *)
Definition found (overlaps : interval → interval → bool) (query : interval)
    (d' : Dataset) (item : string * interval) : Prop :=
  overlaps item.2 query = true
  ∧ (time_coverages_cache d' !! item.1 = Some item.2
     ∨ time_coverage d' = Explicit item.2).

(** The placeholders that give the date of the end. *)
Definition end_date_placeholders : list string :=
  ["end_year"; "end_year2"; "end_month"; "end_day"; "end_doy"].

(** A dataset of files named by the hours of their start and end. *)
Definition hourly : Dataset :=
  mkDataset "TestData" "{year}/{month}/{day}/{hour}-{end_hour}.nc"
            ["year"; "month"; "day"; "hour"; "end_hour"] false None true 4
            ByFilename None ∅.

(** A dataset of all files of a directory. *)
Definition wildcard : Dataset :=
  mkDataset "TestData" "/data/*.nc" [] false None true 4 ByFilename None ∅.

(** The number of days that a search looks at. *)
Definition searched_days (start end_ : datetime) : nat :=
  let n := Z.to_nat (toordinal end_ - toordinal start + 2) in
  if (1 <? n)%nat && bool_decide (end_ = midnight (date_of end_))
  then (n - 1)%nat else n.

(** The number of days of a year. *)
Definition days_in_year (y : Z) : Z := if is_leap y then 366 else 365.

(** The characters of a name, as pieces of a template. *)
Fixpoint texts (s : string) : list piece :=
  match s with
  | EmptyString => []
  | String c s' => Text c :: texts s'
  end.

(** A dataset with its name in the template, and the class table after
    its construction. *)
Definition named : Dataset :=
  mkDataset "A" "/data/{name}/{year}{month}{day}.nc"
            ["name"; "year"; "month"; "day"] false None true 4 ByFilename
            None ∅.

Definition named_table : gmap string string :=
  <["name" := "A"]> placeholder_table.

(** ** [find_file] *)

(** The part of [s] before its last ["/"], if it has one. *)
Fixpoint rsplit_go (s : string) : option string :=
  match s with
  | EmptyString => None
  | String c s' =>
      match rsplit_go s' with
      | Some head => Some (String c head)
      | None => if Ascii.eqb c "/" then Some EmptyString else None
      end
  end.

(** [path.rsplit("/", 1)[0]]: a path without ["/"] is its own head. *)
Definition rsplit_head (path : string) : string :=
  default path (rsplit_go path).

(** The path after [n] rounds of the loop of [find_file]. *)
Fixpoint ancestor (n : nat) (path : string) : string :=
  match n with
  | O => path
  | S n' => ancestor n' (rsplit_head path)
  end.

(** [abs(start - timestamp)] and [abs(end - timestamp)] in microseconds,
    and the smaller of them: one row of
    [np.min(np.abs(np.asarray(times) - timestamp), axis=1)]. *)
Definition distance (timestamp : datetime) (times : interval) : Z :=
  Z.min (Z.abs (stamp times.1 - stamp timestamp))
        (Z.abs (stamp times.2 - stamp timestamp)).

(** [np.argmin]: the first index of the least element. *)
Fixpoint argmin_go (best : nat) (least : Z) (index : nat) (l : list Z) : nat :=
  match l with
  | [] => best
  | x :: l' =>
      if x <? least then argmin_go index x (S index) l'
      else argmin_go best least (S index) l'
  end.

Definition argmin (l : list Z) : nat :=
  match l with
  | [] => O
  | x :: l' => argmin_go 0 x 1 l'
  end.

(** The index of the first element with [p]. *)
Fixpoint find_index {A} (p : A → bool) (l : list A) : option nat :=
  match l with
  | [] => None
  | x :: l' => if p x then Some O else S <$> find_index p l'
  end.

Section FindFile.

(** [IntervalTree.contains] is imported from [typhon.trees];
    [path_exists] is [os.path.exists]. *)
Variable contains : interval → datetime → bool.
Variable path_exists : string → bool.
Variable fs : filesystem.
Variable table : gmap string string.

(** [[self.retrieve_time_coverage(file) for file in files]] *)
Fixpoint retrieve_all (d : Dataset) (files : list string)
    : result (list interval * Dataset) :=
  match files with
  | [] => Ok ([], d)
  | file :: rest =>
      '(times, d) ← retrieve_time_coverage table d file None;
      '(others, d) ← retrieve_all d rest;
      Ok (times :: others, d)
  end.

(** The loop [while not files and path].  It need not end: [None] is
    the loop that has not ended after [fuel] rounds. *)
Fixpoint find_file_loop (fuel : nat) (regex : Re.regex) (d : Dataset)
    (files : list string) (times : list interval) (path : string)
    : option (result (list string * list interval * Dataset)) :=
  if bool_decide (files = []) && negb (String.eqb path "") then
    match fuel with
    | O => None
    | S fuel' =>
        let path := rsplit_head path in
        let files := _get_all_files fs path regex in
        match retrieve_all d files with
        | Raise e => Some (Raise e)
        | Ok (times, d) => find_file_loop fuel' regex d files times path
        end
    end
  else Some (Ok (files, times, d)).

(** [find_file]; the timestamp is a [datetime] object already.  The
    result is the name of a file or [None]. *)
Definition find_file (fuel : nat) (d : Dataset) (timestamp : datetime)
    : option (result (option string * Dataset)) :=
  if single_file d then
    if isfile fs (files d) then Some (Ok (Some (files d), d))
    else Some (Raise ValueError)
  else
    match generate_filename d (files d) timestamp (Some timestamp) with
    | Raise e => Some (Raise e)
    | Ok path =>
        if path_exists path then Some (Ok (Some path, d))
        else
          match template_regex table (files d) with
          | Raise e => Some (Raise e)
          | Ok regex =>
              match find_file_loop fuel regex d [] [] path with
              | None => None
              | Some (Raise e) => Some (Raise e)
              | Some (Ok (files, times, d)) =>
                  if bool_decide (files = []) then Some (Ok (None, d))
                  else
                    let index :=
                      match find_index (fun time_coverage =>
                                          contains time_coverage timestamp)
                                       times with
                      | Some index => index
                      | None => argmin (distance timestamp <$> times)
                      end in
                    Some (file ← lookup_or IndexError (files !! index);
                          Ok (Some file, d))
              end
          end
    end.

End FindFile.

(** The number of ["/"] in a path. *)
Fixpoint slashes (s : string) : nat :=
  match s with
  | EmptyString => O
  | String c s' => ((if Ascii.eqb c "/" then 1 else 0) + slashes s')%nat
  end.

(** The files of [two_files], also under the name of the directory
    without the ["/"] at its end. *)
Definition two_files_dir : filesystem :=
  mkFs (isfile two_files) (isdir two_files)
       (fun p => if String.eqb p "/dir/2017/11/12"
                 then walk two_files "/dir/2017/11/12/"
                 else walk two_files p).

(** A dataset with a relative path. *)
Definition relative : Dataset :=
  mkDataset "TestData" "dir/{year}/{month}/{day}.nc" ["year"; "month"; "day"]
            false None true 4 ByFilename None ∅.

(** A file system without files. *)
Definition no_files : filesystem :=
  mkFs (fun _ => false) (fun _ => false) (fun _ => []).

(** The time coverage that the dataset [d'] knows for a file: the one in
    its cache, or its explicit one. *)
Definition known (d' : Dataset) (file : string) (times : interval) : Prop :=
  time_coverages_cache d' !! file = Some times
  ∨ time_coverage d' = Explicit times.

(** The file was examined by a search with the items [items]: its time
    coverage is known, and when it overlaps the query the file is among
    the items. *)
Definition examined (overlaps : interval → interval → bool) (query : interval)
    (d' : Dataset) (items : list (string * interval)) (file : string) : Prop :=
  ∃ times, known d' file times
           ∧ (overlaps times query = true → (file, times) ∈ items).

(** ** [__contains__] *)

(** What is looked for in a dataset: a timestamp, or a tuple or list of
    such items. *)
#[warnings="-register-all"] Inductive item : Type :=
| Timestamp (t : datetime)
| Items (l : list item).

Section Contains.

Variable overlaps : interval → interval → bool.
Variable fs : filesystem.
Variable table : gmap string string.

(** The branch of [__contains__] for one timestamp: the first item of
    [find_files(start, end, no_files_error=False)] makes it [True]; the
    search sorts, and so has run to its end by then. *)
Definition contains_timestamp (d : Dataset) (start : datetime)
    : result (bool * Dataset) :=
  end_ ← add start (seconds 5);
  let o := find_files overlaps fs table d start end_ true false in
  match raised o with
  | Some e => Raise e
  | None => Ok (negb (bool_decide (yielded o = [])), final o)
  end.

Fixpoint __contains__ (d : Dataset) (it : item) : result (bool * Dataset) :=
  match it with
  | Timestamp t => contains_timestamp d t
  | Items l =>
      (fix all (d : Dataset) (l : list item) : result (bool * Dataset) :=
         match l with
         | [] => Ok (true, d)
         | elem :: l' =>
             match __contains__ d elem with
             | Ok (true, d) => all d l'
             | Ok (false, d) => Ok (false, d)
             | Raise e => Raise e
             end
         end) d l
  end.

End Contains.

(** The timestamps of an item. *)
Fixpoint timestamps (it : item) : list datetime :=
  match it with
  | Timestamp t => [t]
  | Items l =>
      (fix all (l : list item) : list datetime :=
         match l with
         | [] => []
         | elem :: l' => timestamps elem ++ all l'
         end) l
  end.

(** The timestamp is covered: a file whose time coverage the dataset
    knows overlaps the five seconds from it. *)
Definition covered (overlaps : interval → interval → bool) (d' : Dataset)
    (t : datetime) : Prop :=
  ∃ end_ file times,
    add t (seconds 5) = Ok end_
    ∧ overlaps times (t, end_) = true
    ∧ known d' file times.

(** ** [DatasetManager] *)

(** The manager is a [dict] of datasets by their names.
    [datasets += dataset]: a dataset of the same name is replaced, with
    a warning. *)
Definition __iadd__ (self : gmap string Dataset) (dataset : Dataset)
    : gmap string Dataset :=
  <[name dataset := dataset]> self.

(** The keywords that [generate_filename] gives to [str.format]. *)
Definition placeholder_names : list string :=
  ["year"; "year2"; "month"; "day"; "doy"; "hour"; "minute"; "second";
   "millisecond"; "end_year"; "end_year2"; "end_month"; "end_day";
   "end_doy"; "end_hour"; "end_minute"; "end_second"; "end_millisecond";
   "name"].

(** A dataset of daily files. *)
Definition daily : Dataset :=
  mkDataset "TestData" "/dir/{year}/{month}/{day}.nc" ["year"; "month"; "day"]
            false None true 4 ByFilename None ∅.

(** A directory with the copy of a file. *)
Definition with_backup : filesystem :=
  mkFs (fun _ => false) (fun _ => true)
       (fun _ => ["/dir/2017/11/12/1230.nc.bak"]).

(** * Properties *)

Local Arguments String.append !s1 s2 / : simpl nomatch.

(** ** Strings and numerals *)

Section Numerals.

Import Chars Num.

(** A property checked on every number of a range holds on the range. *)
Lemma forall_zrange (P : Z → bool) (lo hi : Z) :
  forallb P (zrange lo (Z.to_nat (hi - lo))) = true →
  ∀ n, lo <= n < hi → P n = true.
Proof.
  intros H n Hn. rewrite forallb_forall in H. apply H.
  apply list_elem_of_In. unfold zrange. apply list_elem_of_fmap.
  exists (Z.to_nat (n - lo)). split; [lia |].
  apply elem_of_seq. lia.
Qed.

Lemma digit_char_spec (d : Z) :
  0 <= d < 10 → is_digit (digit_char d) = true ∧ digit_val (digit_char d) = d.
Proof.
  intros Hd.
  assert (Hc : (is_digit (digit_char d) && (digit_val (digit_char d) =? d)) = true).
  { revert d Hd. apply (forall_zrange
      (fun d => is_digit (digit_char d) && (digit_val (digit_char d) =? d)) 0 10).
    vm_compute. reflexivity. }
  apply andb_true_iff in Hc as [H1 H2]. split; [exact H1 | lia].
Qed.

Lemma str_app_assoc (a b c : string) : (a +:+ b) +:+ c = a +:+ (b +:+ c).
Proof. induction a as [|x a IH]; simpl; [reflexivity | by rewrite IH]. Qed.

Lemma str_app_empty_r (a : string) : a +:+ "" = a.
Proof. induction a as [|x a IH]; simpl; [reflexivity | by rewrite IH]. Qed.

Lemma str_length_app (a b : string) :
  Str.length (a +:+ b) = (Str.length a + Str.length b)%nat.
Proof. induction a as [|x a IH]; simpl; [reflexivity | by rewrite IH]. Qed.

Lemma str_take_app (a b : string) : Str.take (Str.length a) (a +:+ b) = a.
Proof. induction a as [|x a IH]; simpl; [by destruct b | by rewrite IH]. Qed.

Lemma str_drop_app (a b : string) : Str.drop (Str.length a) (a +:+ b) = b.
Proof. induction a as [|x a IH]; simpl; [by destruct b | exact IH]. Qed.

Lemma str_all_app (p : ascii → bool) (a b : string) :
  Str.all p (a +:+ b) = Str.all p a && Str.all p b.
Proof.
  induction a as [|x a IH]; simpl; [reflexivity |].
  rewrite IH. by rewrite andb_assoc.
Qed.

Lemma zpad_length (w : nat) (n : Z) : Str.length (zpad w n) = w.
Proof. induction w as [|w IH]; simpl; [reflexivity | by rewrite IH]. Qed.

Lemma zpad_digits (w : nat) (n : Z) : Str.all is_digit (zpad w n) = true.
Proof.
  induction w as [|w IH]; simpl; [reflexivity |].
  rewrite IH, andb_true_r.
  apply digit_char_spec. apply Z.mod_pos_bound. lia.
Qed.

Lemma int_go_zpad (w : nat) (n : Z) (rest : string) (acc : Z) :
  0 <= n →
  int_go (zpad w n +:+ rest) acc
  = int_go rest (acc * 10 ^ Z.of_nat w + n mod 10 ^ Z.of_nat w).
Proof.
  intros Hn. revert acc. induction w as [|w IH]; intros acc.
  - simpl. f_equal. rewrite Z.mod_1_r. lia.
  - simpl zpad. simpl String.append. simpl int_go.
    destruct (digit_char_spec ((n / 10 ^ Z.of_nat w) mod 10)) as [Hd Hv].
    { apply Z.mod_pos_bound. lia. }
    rewrite Hd, Hv, IH. f_equal.
    replace (Z.of_nat (S w)) with (Z.of_nat w + 1) by lia.
    rewrite Z.pow_add_r by lia. change (10 ^ 1) with 10.
    assert (Hp : 0 < 10 ^ Z.of_nat w) by (apply Z.pow_pos_nonneg; lia).
    rewrite (Z.mul_comm (10 ^ Z.of_nat w) 10).
    rewrite (Z.mul_comm 10 (10 ^ Z.of_nat w)).
    rewrite Z.rem_mul_r by lia. lia.
Qed.

Lemma py_int_zpad (w : nat) (n : Z) :
  (0 < w)%nat → 0 <= n < 10 ^ Z.of_nat w → py_int (zpad w n) = Ok n.
Proof.
  intros Hw Hn. unfold py_int.
  destruct w as [|w]; [lia |].
  pose proof (int_go_zpad (S w) n "" 0 (proj1 Hn)) as H.
  rewrite str_app_empty_r in H. simpl int_go in H at 2.
  rewrite Z.mod_small in H by lia.
  destruct (zpad (S w) n) eqn:E; [discriminate E |].
  rewrite H. f_equal; lia.
Qed.

Lemma ndigits_4 (n : Z) : 1000 <= n < 10000 → ndigits n = 4%nat.
Proof.
  intros Hn. unfold ndigits.
  assert (Hlog : 9 <= Z.log2 n) by (apply Z.log2_le_pow2; lia).
  destruct (Z.to_nat (Z.log2 n)) as [|[|[|k]]] eqn:E; try lia.
  cbn [ndigits_go].
  rewrite (proj2 (Z.ltb_ge n 10)) by lia.
  rewrite (proj2 (Z.ltb_ge (n / 10) 10)) by (Z.div_mod_to_equations; lia).
  rewrite (proj2 (Z.ltb_ge (n / 10 / 10) 10)) by (Z.div_mod_to_equations; lia).
  destruct k; cbn [ndigits_go]; [done|].
  by rewrite (proj2 (Z.ltb_lt (n / 10 / 10 / 10) 10))
    by (Z.div_mod_to_equations; lia).
Qed.

(** The numerals that [generate_filename] and [strftime] print. *)
Lemma py_str_4 (n : Z) : 1000 <= n < 10000 → py_str n = zpad 4 n.
Proof.
  intros Hn. unfold py_str.
  rewrite (proj2 (Z.ltb_ge n 0)) by lia. by rewrite ndigits_4.
Qed.

Lemma year2_str (n : Z) :
  1000 <= n < 10000 → Str.last_n 2 (py_str n) = zpad 2 (n mod 100).
Proof.
  intros Hn. rewrite py_str_4 by done. unfold Str.last_n.
  rewrite zpad_length. change (4 - 2)%nat with 2%nat.
  cbn [zpad Str.drop].
  change (10 ^ Z.of_nat 1) with 10. change (10 ^ Z.of_nat 0) with 1.
  do 2 f_equal; [|f_equal]; Z.div_mod_to_equations; lia.
Qed.

Lemma format_d_2 (n : Z) : 0 <= n < 100 → format_d 2 n = zpad 2 n.
Proof.
  intros Hn. apply String.eqb_eq. revert n Hn.
  apply (forall_zrange (fun n => String.eqb (format_d 2 n) (zpad 2 n)) 0 100).
  vm_compute. reflexivity.
Qed.

Lemma format_d_3 (n : Z) : 0 <= n < 1000 → format_d 3 n = zpad 3 n.
Proof.
  intros Hn. apply String.eqb_eq. revert n Hn.
  apply (forall_zrange (fun n => String.eqb (format_d 3 n) (zpad 3 n)) 0 1000).
  vm_compute. reflexivity.
Qed.

End Numerals.

(** ** The calendar *)

Section Calendar.

Lemma month_cases (m : Z) :
  1 <= m <= 12 →
  m = 1 ∨ m = 2 ∨ m = 3 ∨ m = 4 ∨ m = 5 ∨ m = 6 ∨ m = 7 ∨ m = 8 ∨ m = 9
  ∨ m = 10 ∨ m = 11 ∨ m = 12.
Proof. lia. Qed.

Ltac by_month H :=
  apply month_cases in H;
  repeat (destruct H as [H|H]; [subst|]); [..|subst].

Lemma days_in_month_bounds (y m : Z) :
  1 <= m <= 12 → 28 <= days_in_month y m <= 31.
Proof.
  intros Hm. unfold days_in_month.
  repeat match goal with |- context [if ?b then _ else _] => destruct b end; lia.
Qed.

Lemma days_before_month_succ (y m : Z) :
  1 <= m <= 11 →
  days_before_month y (m + 1) = days_before_month y m + days_in_month y m.
Proof.
  intros Hm. assert (Hm' : 1 <= m <= 12) by lia.
  by_month Hm'; try lia;
    unfold days_before_month, days_in_month; simpl;
    destruct (is_leap y); reflexivity.
Qed.

Lemma days_before_month_bounds (y m : Z) :
  1 <= m <= 12 →
  0 <= days_before_month y m
  ∧ days_before_month y m + days_in_month y m
    <= 365 + (if is_leap y then 1 else 0).
Proof.
  intros Hm. by_month Hm;
    unfold days_before_month, days_in_month; simpl;
    destruct (is_leap y); lia.
Qed.

Lemma days_before_month_12 (y : Z) :
  days_before_month y 12 + 31 = 365 + (if is_leap y then 1 else 0).
Proof. unfold days_before_month; simpl. destruct (is_leap y); lia. Qed.

Lemma days_before_month_mono (y m m' : Z) :
  1 <= m → m < m' → m' <= 12 →
  days_before_month y m + days_in_month y m <= days_before_month y m'.
Proof.
  intros H1 H2 H3.
  assert (Hm : 1 <= m <= 12) by lia. assert (Hm' : 1 <= m' <= 12) by lia.
  by_month Hm; by_month Hm'; try lia;
    unfold days_before_month, days_in_month; simpl;
    destruct (is_leap y); lia.
Qed.

Lemma days_before_year_succ (y : Z) :
  days_before_year (y + 1)
  = days_before_year y + 365 + (if is_leap y then 1 else 0).
Proof.
  unfold days_before_year, is_leap.
  replace (y + 1 - 1) with y by lia.
  destruct (y mod 4 =? 0) eqn:E4; destruct (y mod 100 =? 0) eqn:E100;
    destruct (y mod 400 =? 0) eqn:E400; simpl;
    rewrite ?Z.eqb_eq, ?Z.eqb_neq in *;
    Z.div_mod_to_equations; lia.
Qed.

Lemma days_before_year_mono (y y' : Z) :
  y <= y' → days_before_year y <= days_before_year y'.
Proof.
  intros H. replace y' with (y + Z.of_nat (Z.to_nat (y' - y))) by lia.
  induction (Z.to_nat (y' - y)) as [|n IH]; [by rewrite Z.add_0_r|].
  replace (y + Z.of_nat (S n)) with (y + Z.of_nat n + 1) by lia.
  rewrite days_before_year_succ. destruct (is_leap _); lia.
Qed.

Lemma ord_next_day (d : Z * Z * Z) :
  date_ok d → ord (next_day d) = ord d + 1 ∧ date_ok (next_day d).
Proof.
  destruct d as [[y m] dd]. unfold date_ok, ord, next_day, ymd2ord. simpl.
  intros [Hm Hd].
  destruct (dd <? days_in_month y m) eqn:E1; simpl.
  { rewrite Z.ltb_lt in E1. lia. }
  rewrite Z.ltb_ge in E1.
  destruct (m <? 12) eqn:E2; simpl.
  - rewrite Z.ltb_lt in E2. rewrite days_before_month_succ by lia.
    pose proof (days_in_month_bounds y (m + 1)). lia.
  - rewrite Z.ltb_ge in E2. assert (m = 12) as -> by lia.
    rewrite days_before_year_succ.
    pose proof (days_before_month_12 y).
    assert (days_in_month y 12 = 31) by reflexivity.
    assert (days_before_month (y + 1) 1 = 0) by reflexivity.
    assert (days_in_month (y + 1) 1 = 31) by reflexivity.
    lia.
Qed.

Lemma ord_prev_day (d : Z * Z * Z) :
  date_ok d → ord (prev_day d) = ord d - 1 ∧ date_ok (prev_day d).
Proof.
  destruct d as [[y m] dd]. unfold date_ok, ord, prev_day, ymd2ord. simpl.
  intros [Hm Hd].
  destruct (1 <? dd) eqn:E1; simpl.
  { rewrite Z.ltb_lt in E1. lia. }
  rewrite Z.ltb_ge in E1.
  destruct (1 <? m) eqn:E2; simpl.
  - rewrite Z.ltb_lt in E2.
    pose proof (days_before_month_succ y (m - 1)) as H.
    replace (m - 1 + 1) with m in H by lia.
    pose proof (days_in_month_bounds y (m - 1)). lia.
  - rewrite Z.ltb_ge in E2. assert (m = 1) as -> by lia.
    pose proof (days_before_year_succ (y - 1)) as H.
    replace (y - 1 + 1) with y in H by lia.
    pose proof (days_before_month_12 (y - 1)).
    assert (days_in_month (y - 1) 12 = 31) by reflexivity.
    assert (days_before_month y 1 = 0) by reflexivity.
    lia.
Qed.

(** [shift_days] moves the ordinal by the number of days. *)
Lemma ord_shift_days (n : Z) (d : Z * Z * Z) :
  date_ok d → ord (shift_days n d) = ord d + n ∧ date_ok (shift_days n d).
Proof.
  intros Hd. unfold shift_days. destruct (0 <=? n) eqn:E.
  - rewrite Z.leb_le in E.
    replace n with (Z.of_nat (Z.to_nat n)) at 2 by lia.
    induction (Z.to_nat n) as [|k [IH1 IH2]]; [simpl; split; [lia|done]|].
    simpl Nat.iter. destruct (ord_next_day _ IH2) as [H1 H2].
    split; [lia | done].
  - rewrite Z.leb_gt in E.
    replace n with (- Z.of_nat (Z.to_nat (- n))) at 2 by lia.
    induction (Z.to_nat (- n)) as [|k [IH1 IH2]]; [simpl; split; [lia|done]|].
    simpl Nat.iter. destruct (ord_prev_day _ IH2) as [H1 H2].
    split; [lia | done].
Qed.

(** The ordinal is strictly monotone for the lexicographic order of
    dates. *)
Lemma ord_lt (a b : Z * Z * Z) :
  date_ok a → date_ok b →
  (a.1.1 < b.1.1
   ∨ (a.1.1 = b.1.1 ∧ (a.1.2 < b.1.2 ∨ (a.1.2 = b.1.2 ∧ a.2 < b.2)))) →
  ord a < ord b.
Proof.
  destruct a as [[y m] d], b as [[y' m'] d']. unfold date_ok, ord, ymd2ord.
  simpl. intros [Hm Hd] [Hm' Hd'] H.
  pose proof (days_before_month_bounds y m Hm).
  pose proof (days_before_month_bounds y' m' Hm').
  destruct H as [H|[-> [H|[-> H]]]].
  - pose proof (days_before_year_mono (y + 1) y' ltac:(lia)) as Hy.
    rewrite days_before_year_succ in Hy. lia.
  - pose proof (days_before_month_mono y' m m'). lia.
  - lia.
Qed.

End Calendar.

(** ** Time stamps: comparison and addition *)

Section Stamps.

Lemma valid_spec (t : datetime) :
  valid t = true ↔
  1 <= year t <= 9999 ∧ date_ok (date_of t) ∧ time_ok t.
Proof.
  unfold valid, date_ok, time_ok, date_of, MINYEAR, MAXYEAR. simpl.
  rewrite !andb_true_iff, !Z.leb_le. tauto.
Qed.

Lemma time_of_day_bounds (t : datetime) :
  time_ok t → 0 <= time_of_day t < days 1.
Proof. unfold time_ok, time_of_day, days. lia. Qed.

Lemma stamp_lt_date (a b : datetime) :
  time_ok a → time_ok b → toordinal a < toordinal b → stamp a < stamp b.
Proof.
  intros Ha Hb H. unfold stamp.
  pose proof (time_of_day_bounds a Ha). pose proof (time_of_day_bounds b Hb).
  unfold days in *. lia.
Qed.

(** Comparing two well-formed [datetime] objects compares their time
    stamps. *)
Lemma compare_stamp (a b : datetime) :
  date_ok (date_of a) → time_ok a → date_ok (date_of b) → time_ok b →
  compare a b = (stamp a ?= stamp b).
Proof.
  intros Hda Hta Hdb Htb.
  assert (Hlt : ∀ x y : datetime, date_ok (date_of x) → date_ok (date_of y) →
            time_ok x → time_ok y →
            (year x < year y
             ∨ (year x = year y ∧ (month x < month y
                ∨ (month x = month y ∧ day x < day y)))) →
            stamp x < stamp y).
  { intros x y Hx Hy Hx' Hy' H. apply stamp_lt_date; [done..|].
    apply (ord_lt (date_of x) (date_of y)); done. }
  pose proof (Hlt a b Hda Hdb Hta Htb) as Hab.
  pose proof (Hlt b a Hdb Hda Htb Hta) as Hba.
  destruct a as [y m d h mi s us], b as [y' m' d' h' mi' s' us'].
  unfold time_ok in Hta, Htb. simpl in *.
  unfold compare, key, lex_compare. simpl.
  destruct (Z.compare_spec y y') as [->|Hy|Hy];
    [|symmetry; apply Z.compare_lt_iff; apply Hab; lia
     |symmetry; apply Z.compare_gt_iff; apply Hba; lia].
  destruct (Z.compare_spec m m') as [->|Hm|Hm];
    [|symmetry; apply Z.compare_lt_iff; apply Hab; lia
     |symmetry; apply Z.compare_gt_iff; apply Hba; lia].
  destruct (Z.compare_spec d d') as [->|Hd|Hd];
    [|symmetry; apply Z.compare_lt_iff; apply Hab; lia
     |symmetry; apply Z.compare_gt_iff; apply Hba; lia].
  clear Hab Hba Hlt.
  unfold stamp, toordinal, time_of_day. simpl.
  destruct (Z.compare_spec h h') as [->|Hh|Hh];
    [|symmetry; apply Z.compare_lt_iff; lia
     |symmetry; apply Z.compare_gt_iff; lia].
  destruct (Z.compare_spec mi mi') as [->|Hmi|Hmi];
    [|symmetry; apply Z.compare_lt_iff; lia
     |symmetry; apply Z.compare_gt_iff; lia].
  destruct (Z.compare_spec s s') as [->|Hs|Hs];
    [|symmetry; apply Z.compare_lt_iff; lia
     |symmetry; apply Z.compare_gt_iff; lia].
  destruct (Z.compare_spec us us') as [->|Hus|Hus];
    [|symmetry; apply Z.compare_lt_iff; lia
     |symmetry; apply Z.compare_gt_iff; lia].
  symmetry. apply Z.compare_refl.
Qed.

Lemma ltb_stamp (a b : datetime) :
  valid a = true → valid b = true → ltb a b = true ↔ stamp a < stamp b.
Proof.
  intros (_ & Ha & Ha')%valid_spec (_ & Hb & Hb')%valid_spec.
  unfold ltb. rewrite compare_stamp by done.
  destruct (Z.compare_spec (stamp a) (stamp b)); split; intros; try done; lia.
Qed.

Lemma leb_stamp (a b : datetime) :
  valid a = true → valid b = true → leb a b = true ↔ stamp a <= stamp b.
Proof.
  intros (_ & Ha & Ha')%valid_spec (_ & Hb & Hb')%valid_spec.
  unfold leb. rewrite compare_stamp by done.
  destruct (Z.compare_spec (stamp a) (stamp b)); split; intros; try done; lia.
Qed.

(** [add] adds to the time stamp, and its result is well formed. *)
Lemma add_stamp (t : datetime) (delta : timedelta) (e : datetime) :
  date_ok (date_of t) → time_ok t → add t delta = Ok e →
  stamp e = stamp t + delta ∧ valid e = true.
Proof.
  intros Hd Ht. unfold add.
  pose proof (ord_shift_days ((time_of_day t + delta) / days 1) _ Hd) as Hs.
  fold (date_of t).
  destruct (shift_days _ (date_of t)) as [[y m] dd].
  destruct Hs as [Hord Hok].
  destruct ((y <? MINYEAR) || (MAXYEAR <? y)) eqn:Hy; [discriminate|].
  apply orb_false_iff in Hy as [Hy1 Hy2].
  rewrite Z.ltb_ge in Hy1, Hy2. unfold MINYEAR, MAXYEAR in *.
  intros He. injection He as <-.
  pose proof (Z.mod_pos_bound (time_of_day t + delta) (days 1) eq_refl) as Hr.
  pose proof (Z.div_mod (time_of_day t + delta) (days 1) ltac:(done)) as Hq.
  set (r := (time_of_day t + delta) mod days 1) in *.
  set (q := (time_of_day t + delta) / days 1) in *.
  split.
  - unfold stamp, toordinal, time_of_day at 1. simpl.
    unfold ord, date_of in Hord. simpl in Hord. rewrite Hord.
    unfold toordinal.
    assert (Htod : ((r / hours 1 * 60 + (r / minutes 1) mod 60) * 60
                    + (r / seconds 1) mod 60) * 1000000 + r mod seconds 1 = r).
    { unfold hours, minutes, seconds, days in *.
      clearbody r. clear -Hr. Z.div_mod_to_equations. lia. }
    rewrite Htod. lia.
  - apply valid_spec. unfold date_ok, time_ok, date_of in *. simpl in *.
    split; [lia|]. split; [done|].
    unfold hours, minutes, seconds, days in *.
    clearbody r. clear -Hr. Z.div_mod_to_equations. lia.
Qed.

End Stamps.

(** ** The loop of [_create_date_from_placeholders] *)

Section CreateDate.

Variables (prefix : string) (exclude : option string).

Lemma written_key_value (p : string) (v : Z) :
  fst <$> written prefix exclude p v = written_key prefix exclude p.
Proof.
  unfold written_key, written.
  repeat match goal with |- context [if ?b then _ else _] => destruct b end;
    reflexivity.
Qed.

Lemma loop_cons (values : list string) (i : nat) (p : string)
    (ps : list string) (m : gmap string Z) :
  create_date_loop prefix exclude values i (p :: ps) m
  = (v ← lookup_or IndexError (values !! i);
     value ← Num.py_int v;
     create_date_loop prefix exclude values (S i) ps
       (match written prefix exclude p value with
        | Some (k, x) => <[k := x]> m
        | None => m
        end)).
Proof.
  simpl. destruct (lookup_or IndexError (values !! i)) as [v|e]; [|reflexivity].
  simpl. destruct (Num.py_int v) as [value|e]; [|reflexivity].
  simpl. unfold written.
  repeat match goal with |- context [if ?b then _ else _] => destruct b end;
    reflexivity.
Qed.

(** A key that no placeholder of the list stores keeps its entry. *)
Lemma loop_untouched (k : string) (values : list string) (ps : list string) :
  Forall (fun p => written_key prefix exclude p ≠ Some k) ps →
  ∀ i m m', create_date_loop prefix exclude values i ps m = Ok m' →
  m' !! k = m !! k.
Proof.
  induction 1 as [|p ps Hp _ IH]; intros i m m' Hm.
  - simpl in Hm. by inversion Hm.
  - rewrite loop_cons in Hm.
    destruct (lookup_or IndexError (values !! i)) as [v|e]; [|discriminate].
    simpl in Hm. destruct (Num.py_int v) as [value|e]; [|discriminate].
    simpl in Hm. apply IH in Hm. rewrite Hm.
    pose proof (written_key_value p value) as Hw.
    destruct (written prefix exclude p value) as [[k' x]|]; [|reflexivity].
    simpl in Hw. rewrite <- Hw in Hp.
    apply lookup_insert_ne. congruence.
Qed.

(** The entry of a key is the one of the last placeholder that stores
    it. *)
Lemma loop_last_writer (k : string) (values : list string)
    (ps1 : list string) (p : string) (ps2 : list string) (i : nat)
    (m m' : gmap string Z) :
  Forall (fun q => written_key prefix exclude q ≠ Some k) ps2 →
  written_key prefix exclude p = Some k →
  create_date_loop prefix exclude values i (ps1 ++ p :: ps2) m = Ok m' →
  ∃ v value x, values !! (i + length ps1)%nat = Some v
               ∧ Num.py_int v = Ok value
               ∧ written prefix exclude p value = Some (k, x)
               ∧ m' !! k = Some x.
Proof.
  intros Hps2 Hp. revert i m. induction ps1 as [|q ps1 IH]; intros i m Hm.
  - simpl app in Hm. rewrite loop_cons in Hm.
    replace (i + length [])%nat with i by (simpl; lia).
    destruct (values !! i) as [v|]; [|discriminate]. simpl in Hm.
    destruct (Num.py_int v) as [value|e] eqn:Hv; [|discriminate]. simpl in Hm.
    apply (loop_untouched k) in Hm; [|exact Hps2].
    pose proof (written_key_value p value) as Hw. rewrite Hp in Hw.
    destruct (written prefix exclude p value) as [[k' x]|] eqn:Hwr;
      [|discriminate].
    simpl in Hw. inversion Hw; subst k'.
    rewrite lookup_insert_eq in Hm.
    exists v, value, x. split; [reflexivity|]. split; [exact Hv|].
    split; [exact Hwr | exact Hm].
  - simpl app in Hm. rewrite loop_cons in Hm.
    destruct (lookup_or IndexError (values !! i)) as [v|e]; [|discriminate].
    simpl in Hm. destruct (Num.py_int v) as [value|e]; [|discriminate].
    simpl in Hm. apply IH in Hm.
    replace (i + length (q :: ps1))%nat with (S i + length ps1)%nat
      by (simpl; lia).
    exact Hm.
Qed.

(** The keys of the result are keys of the start or stored keys. *)
Lemma loop_dom (values : list string) (ps : list string) :
  ∀ i m m', create_date_loop prefix exclude values i ps m = Ok m' →
  ∀ k, is_Some (m' !! k) →
  is_Some (m !! k) ∨ Exists (fun p => written_key prefix exclude p = Some k) ps.
Proof.
  induction ps as [|p ps IH]; intros i m m' Hm k Hk.
  - simpl in Hm. inversion Hm; subst. by left.
  - rewrite loop_cons in Hm.
    destruct (lookup_or IndexError (values !! i)) as [v|e]; [|discriminate].
    simpl in Hm. destruct (Num.py_int v) as [value|e]; [|discriminate].
    simpl in Hm. destruct (IH _ _ _ Hm k Hk) as [H|H].
    + pose proof (written_key_value p value) as Hw.
      destruct (written prefix exclude p value) as [[k' x]|]; [|by left].
      simpl in Hw. destruct (decide (k' = k)) as [->|Hne].
      * right. apply Exists_cons_hd. by rewrite <- Hw.
      * left. by rewrite lookup_insert_ne in H.
    + right. by apply Exists_cons_tl.
Qed.

Lemma prefix_drop (q k : string) :
  Str.prefix prefix q = true → Str.drop (Str.length prefix) q = k →
  q = prefix +:+ k.
Proof.
  revert q. induction prefix as [|a pre IH]; intros q Hq Hk.
  - simpl in *. by destruct q.
  - destruct q as [|b q]; [discriminate|]. simpl in *.
    apply andb_true_iff in Hq as [Hab Hq]. apply Ascii.eqb_eq in Hab as ->.
    f_equal. by apply IH.
Qed.

(** The placeholders that store the key [year]. *)
Lemma written_key_year (q : string) :
  written_key prefix exclude q = Some "year" →
  q = prefix +:+ "year" ∨ q = prefix +:+ "year2".
Proof.
  unfold written_key, written.
  destruct (String.eqb q (prefix +:+ "year2")) eqn:E1.
  { apply String.eqb_eq in E1. auto. }
  destruct (String.eqb q (prefix +:+ "millisecond")) eqn:E2.
  { simpl. intros H. exfalso. inversion H as [H1].
    apply (f_equal Str.length) in H1. rewrite str_length_app in H1.
    simpl in H1. lia. }
  destruct (_ && Str.prefix prefix q) eqn:E3; [|discriminate].
  simpl. intros H. inversion H as [H1]. left.
  apply andb_true_iff in E3 as [_ E3]. by apply prefix_drop.
Qed.

End CreateDate.


(** ** The keys of the millisecond *)

Section Millisecond.

(** A key that is there stays: the loop only stores. *)
Lemma loop_keeps (prefix : string) (exclude : option string) (k : string)
    (values : list string) (ps : list string) :
  ∀ i m m', create_date_loop prefix exclude values i ps m = Ok m' →
  is_Some (m !! k) → is_Some (m' !! k).
Proof.
  induction ps as [|p ps IH]; intros i m m' Hm Hk.
  - simpl in Hm. by injection Hm as <-.
  - rewrite loop_cons in Hm.
    destruct (lookup_or IndexError (values !! i)) as [v|e]; [|discriminate].
    simpl in Hm. destruct (Num.py_int v) as [value|e]; [|discriminate].
    simpl in Hm. apply IH in Hm; [done|].
    destruct (written prefix exclude p value) as [[k' x]|]; [|done].
    destruct (decide (k' = k)) as [->|Hne].
    + rewrite lookup_insert_eq. by eexists.
    + by rewrite lookup_insert_ne.
Qed.

(** A placeholder of the list that stores a key leaves the key in the
    result. *)
Lemma loop_stores (prefix : string) (exclude : option string) (k : string)
    (values : list string) (ps : list string) (p : string) :
  p ∈ ps → written_key prefix exclude p = Some k →
  ∀ i m m', create_date_loop prefix exclude values i ps m = Ok m' →
  is_Some (m' !! k).
Proof.
  intros Hin Hp. induction Hin as [p ps|p q ps Hin IH]; intros i m m' Hm.
  - rewrite loop_cons in Hm.
    destruct (lookup_or IndexError (values !! i)) as [v|e]; [|discriminate].
    simpl in Hm. destruct (Num.py_int v) as [value|e]; [|discriminate].
    simpl in Hm. eapply loop_keeps; [exact Hm|].
    pose proof (written_key_value prefix exclude p value) as Hw.
    rewrite Hp in Hw.
    destruct (written prefix exclude p value) as [[k' x]|]; [|discriminate].
    simpl in Hw. injection Hw as ->. rewrite lookup_insert_eq. by eexists.
  - rewrite loop_cons in Hm.
    destruct (lookup_or IndexError (values !! i)) as [v|e]; [|discriminate].
    simpl in Hm. destruct (Num.py_int v) as [value|e]; [|discriminate].
    simpl in Hm. by eapply IH.
Qed.

(** The start pass never stores the key [millisecond], for which
    [_get_time_resolution] looks first. *)
Lemma start_args_no_millisecond (placeholders values : list string)
    (args : gmap string Z) :
  _create_date_from_placeholders placeholders values None (Some "end_") None
  = Ok args →
  args !! "millisecond" = None
  ∧ _get_time_resolution args ≠ Some (milliseconds 1).
Proof.
  intros H.
  assert (Hms : args !! "millisecond" = None).
  { unfold _create_date_from_placeholders in H. cbv [default from_option id] in H.
    destruct (create_date_loop _ _ _ _ _ _) as [m|e] eqn:Hloop; [|discriminate].
    assert (Hm : m !! "millisecond" = None).
    { assert (HF : Forall (fun p => written_key "" (Some "end_") p
                                    ≠ Some "millisecond") placeholders).
      { apply Forall_forall. intros p _. unfold written_key, written.
        change ("" +:+ "year2") with "year2".
        change ("" +:+ "millisecond") with "millisecond".
        destruct (String.eqb p "year2"); [done|].
        destruct (String.eqb p "millisecond") eqn:E; [done|].
        destruct (_ && _); [|done]. simpl. intros [= ->]. done. }
      rewrite (loop_untouched "" (Some "end_") "millisecond" values placeholders
                 HF 0%nat ∅ m Hloop). apply lookup_empty. }
    simpl in H. destruct (bool_decide _); [|by injection H as <-].
    destruct (lookup_or KeyError (m !! "year")); [|discriminate]. simpl in H.
    destruct (of_kwargs _); [|discriminate]. simpl in H.
    destruct (lookup_or KeyError (m !! "doy")); [|discriminate]. simpl in H.
    destruct (add _ _); [|discriminate]. injection H as <-.
    rewrite lookup_delete_ne, !lookup_insert_ne by done. exact Hm. }
  split; [exact Hms|].
  unfold _get_time_resolution. rewrite bool_decide_false by (rewrite Hms; by intros [? ?]).
  repeat case_bool_decide; discriminate.
Qed.

(** With [{end_millisecond}] among the placeholders, the arguments of
    the end hold the key [end_microsecond], and [datetime] refuses
    them. *)
Lemma end_args_type_error (placeholders values : list string)
    (start_args args : gmap string Z) :
  "end_millisecond" ∈ placeholders →
  _create_date_from_placeholders placeholders values (Some "end_") None
    (Some start_args) = Ok args →
  of_kwargs args = Raise TypeError.
Proof.
  intros Hin H.
  assert (Hk : is_Some (args !! "end_microsecond")).
  { unfold _create_date_from_placeholders in H. cbv [default from_option id] in H.
    destruct (create_date_loop _ _ _ _ _ _) as [m|e] eqn:Hloop; [|discriminate].
    assert (Hm : is_Some (m !! "end_microsecond")).
    { eapply loop_stores; [exact Hin| |exact Hloop]. reflexivity. }
    simpl in H. destruct (bool_decide _); [|by injection H as <-].
    destruct (lookup_or KeyError (m !! "year")); [|discriminate]. simpl in H.
    destruct (of_kwargs _); [|discriminate]. simpl in H.
    destruct (lookup_or KeyError (m !! "doy")); [|discriminate]. simpl in H.
    destruct (add _ _); [|discriminate]. injection H as <-.
    rewrite lookup_delete_ne, !lookup_insert_ne by done. exact Hm. }
  unfold of_kwargs. rewrite bool_decide_false; [done|].
  intros Hsub. apply elem_of_dom in Hk. apply Hsub in Hk.
  unfold allowed_keys in Hk.
  rewrite !elem_of_union, !elem_of_singleton in Hk.
  repeat destruct Hk as [Hk|Hk]; discriminate.
Qed.

(** No file of a dataset whose template has [{end_millisecond}] gets a
    time coverage from its name. *)
Lemma end_millisecond_never_resolves (table : gmap string string)
    (d : Dataset) (filename : string) :
  "end_millisecond" ∈ files_placeholders d →
  ∀ times, coverage_from_filename table d filename ≠ Ok times.
Proof.
  intros Hin times. unfold coverage_from_filename.
  destruct (single_file d); [done|].
  destruct (template_regex _ _) as [regex|]; [|done]. simpl.
  destruct (lookup_or ValueError _) as [values|]; [|done]. simpl.
  destruct (_create_date_from_placeholders _ _ None _ _) as [sa|]; [|done].
  simpl.
  destruct (_create_date_from_placeholders _ _ (Some "end_") _ _) as [ea|] eqn:E;
    [|done].
  simpl. rewrite (end_args_type_error _ _ _ _ Hin E).
  by destruct (of_kwargs sa).
Qed.

(** The placeholders of the start pass that store the key
    [microsecond]. *)
Lemma written_key_microsecond (q : string) :
  written_key "" (Some "end_") q = Some "microsecond" →
  q = "millisecond" ∨ q = "microsecond".
Proof.
  unfold written_key, written.
  change ("" +:+ "year2") with "year2".
  change ("" +:+ "millisecond") with "millisecond".
  destruct (String.eqb q "year2"); [discriminate|].
  destruct (String.eqb q "millisecond") eqn:E.
  { apply String.eqb_eq in E. auto. }
  destruct (_ && _); [|discriminate]. simpl. intros [= ->]. auto.
Qed.

(** The start pass stores a matched [{millisecond}] of value [m] as
    [m * 1000] microseconds, and the start that [datetime] builds from
    the arguments has them. *)
Lemma millisecond_start_args (ps1 ps2 : list string) (values : list string)
    (m : Z) (args : gmap string Z) :
  0 <= m < 1000 →
  values !! length ps1 = Some (Num.zpad 3 m) →
  Forall (fun q => q ≠ "millisecond" ∧ q ≠ "microsecond") ps2 →
  _create_date_from_placeholders (ps1 ++ "millisecond" :: ps2) values None
    (Some "end_") None = Ok args →
  args !! "microsecond" = Some (m * 1000)
  ∧ ∀ t, of_kwargs args = Ok t → microsecond t = m * 1000.
Proof.
  intros Hm Hval Hps2 Hrun.
  assert (Hus : args !! "microsecond" = Some (m * 1000)).
  { unfold _create_date_from_placeholders in Hrun.
    cbv [default from_option id] in Hrun.
    destruct (create_date_loop _ _ _ _ _ _) as [kw|e] eqn:Hloop; [|discriminate].
    assert (Hkw : kw !! "microsecond" = Some (m * 1000)).
    { apply loop_last_writer with (k := "microsecond") in Hloop.
      - destruct Hloop as (s & value & x & Hs & Hint & Hw & Hkw).
        change (0 + length ps1)%nat with (length ps1) in Hs.
        assert (Es : s = Num.zpad 3 m) by congruence.
        rewrite Es, py_int_zpad in Hint by (simpl; lia). injection Hint as <-.
        unfold written in Hw. simpl in Hw. injection Hw as <-. exact Hkw.
      - eapply Forall_impl; [exact Hps2|]. intros q [H1 H2] Hq.
        apply written_key_microsecond in Hq. tauto.
      - reflexivity. }
    simpl in Hrun. destruct (bool_decide _); [|by injection Hrun as <-].
    destruct (lookup_or KeyError (kw !! "year")); [|discriminate]. simpl in Hrun.
    destruct (of_kwargs _); [|discriminate]. simpl in Hrun.
    destruct (lookup_or KeyError (kw !! "doy")); [|discriminate]. simpl in Hrun.
    destruct (add _ _); [|discriminate]. injection Hrun as <-.
    rewrite lookup_delete_ne, !lookup_insert_ne by done. exact Hkw. }
  split; [exact Hus|].
  intros t Ht. unfold of_kwargs in Ht. destruct (negb _); [discriminate|].
  destruct (args !! "year"); [|discriminate].
  destruct (args !! "month"); [|discriminate].
  destruct (args !! "day"); [|discriminate].
  destruct (valid _); [|discriminate]. injection Ht as <-.
  cbn [microsecond]. by rewrite Hus.
Qed.

End Millisecond.

(** ** The order of [datetime] *)

Section Order.

Lemma lex_compare_antisym (a b : list Z) :
  lex_compare b a = CompOpp (lex_compare a b).
Proof.
  revert b. induction a as [|x a IH]; intros [|y b]; simpl; try reflexivity.
  rewrite (Z.compare_antisym x y).
  destruct (x ?= y); simpl; [apply IH | reflexivity | reflexivity].
Qed.

Lemma lex_compare_trans (a b c : list Z) :
  lex_compare a b ≠ Gt → lex_compare b c ≠ Gt → lex_compare a c ≠ Gt.
Proof.
  revert b c. induction a as [|x a IH]; intros [|y b] [|z c]; simpl;
    try done.
  destruct (Z.compare_spec x y) as [->|Hxy|Hxy]; [| |done].
  - destruct (Z.compare_spec y z) as [->|Hyz|Hyz]; [|done|done].
    apply IH.
  - intros _. destruct (Z.compare_spec y z) as [->|Hyz|Hyz]; [| |done].
    + intros _. destruct (Z.compare_spec x z); [lia|done|lia].
    + intros _. destruct (Z.compare_spec x z); [lia|done|lia].
Qed.

Lemma leb_ltb (a b : datetime) : leb a b = negb (ltb b a).
Proof.
  unfold leb, ltb, compare. rewrite (lex_compare_antisym (key a) (key b)).
  by destruct (lex_compare (key a) (key b)).
Qed.

Global Instance start_le_trans : Transitive start_le.
Proof.
  intros a b c. unfold start_le, leb, compare.
  pose proof (lex_compare_trans (key a.2.1) (key b.2.1) (key c.2.1)) as H.
  destruct (lex_compare (key a.2.1) (key b.2.1)),
    (lex_compare (key b.2.1) (key c.2.1)),
    (lex_compare (key a.2.1) (key c.2.1)); try done; intros _ _;
    exfalso; by apply H.
Qed.

End Order.


(** ** Templates *)

Section Templates.

Lemma standard_table_lookup (table : gmap string string) (f : start_field) :
  standard_table table → table !! field_name f = Some (field_regex f).
Proof. intros H. rewrite H. by destruct f. Qed.

Lemma field_name_lookup (kw : gmap string string) (f : start_field) (v : string) :
  kw !! field_name f = Some v → Format.field kw (field_name f) = Ok v.
Proof. intros H. unfold Format.field. destruct f; simpl in *; by rewrite H. Qed.

(** [str.format] on a template fills the placeholders. *)
Lemma format_render (kw : gmap string string) (val : start_field → string)
    (ps : list piece) :
  forallb piece_ok ps = true →
  (∀ f, f ∈ fields_of ps → kw !! field_name f = Some (val f)) →
  Format.format (render ps) kw
  = Ok (Str.concat ((fun p => match p with
                              | Text c => String c EmptyString
                              | Star => "*"
                              | Field f => val f
                              end) <$> ps)).
Proof.
  unfold Format.format. induction ps as [|p ps IH]; intros Hok Hkw; [done|].
  simpl in Hok. apply andb_true_iff in Hok as [Hp Hok].
  destruct p as [c| |f].
  - simpl in Hp.
    assert (Hc : Ascii.eqb c "{" = false ∧ Ascii.eqb c "}" = false).
    { unfold plain, Re.is_meta in Hp. simpl in Hp.
      destruct (Ascii.eqb c "{") eqn:E1, (Ascii.eqb c "}") eqn:E2; try done;
        apply Ascii.eqb_eq in E1 || apply Ascii.eqb_eq in E2; subst; done. }
    destruct Hc as [H1 H2]. simpl. rewrite H1, H2.
    rewrite IH; [|done|exact Hkw]. reflexivity.
  - simpl. rewrite IH; [|done|exact Hkw]. reflexivity.
  - assert (Hf : kw !! field_name f = Some (val f)).
    { apply Hkw. simpl. apply list_elem_of_here. }
    rewrite fmap_cons. simpl Str.concat.
    specialize (IH Hok (fun g Hg => Hkw g (list_elem_of_further _ _ _ Hg))).
    apply field_name_lookup in Hf.
    destruct f; simpl; simpl in Hf;
      match goal with
      | |- context [String.rev ?s] =>
          let r := eval vm_compute in (String.rev s) in
          change (String.rev s) with r
      end; rewrite Hf; simpl; rewrite IH; reflexivity.
Qed.

(** The placeholders that the setter of [files] finds. *)
Lemma find_fields_render (ps : list piece) :
  forallb piece_ok ps = true →
  Re.find_fields (render ps) = field_name <$> fields_of ps.
Proof.
  unfold Re.find_fields. induction ps as [|p ps IH]; intros Hok; [done|].
  simpl in Hok. apply andb_true_iff in Hok as [Hp Hok].
  destruct p as [c| |f].
  - simpl in Hp.
    assert (Hc : Ascii.eqb c "{" = false).
    { unfold plain, Re.is_meta in Hp. simpl in Hp.
      destruct (Ascii.eqb c "{") eqn:E1; [|done].
      apply Ascii.eqb_eq in E1; subst; done. }
    simpl. rewrite Hc. by apply IH.
  - simpl. by apply IH.
  - destruct f; simpl; f_equal; by apply IH.
Qed.

Lemma plain_not (c : ascii) (m : ascii) :
  plain c = true → Re.is_meta m = true → m ≠ "."%char → Ascii.eqb c m = false.
Proof.
  intros Hc Hm Hdot. destruct (Ascii.eqb c m) eqn:E; [|done].
  apply Ascii.eqb_eq in E. subst m. unfold plain in Hc. rewrite Hm in Hc.
  simpl in Hc. apply Ascii.eqb_eq in Hc. done.
Qed.

Lemma regex_text_cons (p : piece) (ps : list piece) :
  regex_text (p :: ps)
  = match p with
    | Text c => String c (regex_text ps)
    | Star => String "*" (regex_text ps)
    | Field f => field_regex f +:+ regex_text ps
    end.
Proof. by destruct p. Qed.

Lemma replace_star_cons (c : ascii) (s : string) :
  Ascii.eqb c "*" = false →
  Str.replace_star (String c s) = String c (Str.replace_star s).
Proof. intros H. cbn [Str.replace_star]. by rewrite H. Qed.

Lemma regex_text_no_quantifier (ps : list piece) :
  forallb piece_ok ps = true →
  Str.prefix "*?" (Str.replace_star (regex_text ps)) = false.
Proof.
  destruct ps as [|[c| |f] ps]; [done| |done|by destruct f].
  cbn [forallb piece_ok]. intros [Hc _]%andb_true_iff.
  pose proof (plain_not c "*" Hc eq_refl ltac:(done)) as E.
  rewrite regex_text_cons, replace_star_cons by done.
  cbn [Str.prefix]. by rewrite Ascii.eqb_sym, E.
Qed.

(** [re.compile] on the text of the regular expression of a template. *)
Lemma compile_regex_text (ps : list piece) :
  forallb piece_ok ps = true →
  Re.compile (Str.replace_star (regex_text ps)) = Ok (regex_of ps).
Proof.
  unfold Re.compile. induction ps as [|p ps IH]; intros Hok; [done|].
  pose proof Hok as Hok'. cbn [forallb] in Hok'.
  apply andb_true_iff in Hok' as [Hp Hps]. specialize (IH Hps).
  pose proof (regex_text_no_quantifier ps Hps) as Hq.
  rewrite regex_text_cons. destruct p as [c| |f].
  - cbn [piece_ok] in Hp.
    rewrite replace_star_cons by (by apply plain_not).
    cbn [Re.compile_go regex_of]. unfold plain in Hp.
    destruct (Re.is_meta c) eqn:E2; cbn [negb orb] in Hp |- *.
    + rewrite Hp. apply Ascii.eqb_eq in Hp. subst c.
      rewrite Hq, IH. reflexivity.
    + rewrite IH.
      destruct (Ascii.eqb c ".") eqn:E3; [|reflexivity].
      apply Ascii.eqb_eq in E3. subst. done.
  - simpl. rewrite IH. reflexivity.
  - destruct f; simpl; rewrite IH; reflexivity.
Qed.

Lemma template_regex_render (table : gmap string string) (ps : list piece) :
  standard_table table → forallb piece_ok ps = true →
  template_regex table (render ps) = Ok (regex_of ps).
Proof.
  intros Ht Hok. unfold template_regex.
  rewrite (format_render table field_regex ps Hok)
    by (intros f _; by apply standard_table_lookup).
  simpl. by apply compile_regex_text.
Qed.

Lemma group_widths_regex_of (ps : list piece) :
  group_widths (regex_of ps) = field_width <$> fields_of ps.
Proof.
  induction ps as [|[c| |f] ps IH]; simpl; try done.
  - by destruct (Ascii.eqb c ".").
  - by rewrite IH.
Qed.

(** The groups of a match are runs of digits of the widths of the
    regular expression. *)
Lemma match_here_groups (r : Re.regex) :
  ∀ s caps rest, Re.match_here r s = Some (caps, rest) →
  Forall2 digits_of_width caps (group_widths r).
Proof.
  induction r as [|a r IH]; intros s caps rest H.
  - simpl in H. injection H as <- <-. constructor.
  - destruct a as [c| |n|]; cbn [Re.match_here group_widths] in H |- *.
    + destruct s as [|c' s]; [done|]. destruct (Ascii.eqb c c'); [|done].
      by eapply IH.
    + destruct s as [|c' s]; [done|].
      destruct (Ascii.eqb c' Chars.newline); [done|]. by eapply IH.
    + destruct ((Str.length (Str.take n s) =? n)%nat
                && Str.all Chars.is_digit (Str.take n s)) eqn:E; [|done].
      apply andb_true_iff in E as [E1 E2]. apply Nat.eqb_eq in E1.
      destruct (Re.match_here r (Str.drop n s)) as [[caps' rest']|] eqn:E3;
        [|done].
      injection H as <- <-. constructor; [by split|]. by eapply IH.
    + induction s as [|c' s IHs].
      * destruct (Re.match_here r "") as [[caps' rest']|] eqn:E; [|done].
        injection H as <- <-. by eapply IH.
      * destruct (Re.match_here r (String c' s)) as [[caps' rest']|] eqn:E.
        { injection H as <- <-. by eapply IH. }
        destruct (Ascii.eqb c' Chars.newline); [done|]. by apply IHs.
Qed.

Lemma search_groups (r : Re.regex) (s : string) (caps : list string)
    (whole : string) :
  Re.search r s = Some (caps, whole) →
  Forall2 digits_of_width caps (group_widths r).
Proof.
  induction s as [|c s IH]; cbn [Re.search].
  - destruct (Re.match_here r "") as [[caps' rest']|] eqn:E; [|done].
    intros H. injection H as <- _. by eapply match_here_groups.
  - destruct (Re.match_here r (String c s)) as [[caps' rest']|] eqn:E;
      [|exact IH].
    intros H. injection H as <- _. by eapply match_here_groups.
Qed.

Lemma int_go_digits (s : string) (acc : Z) :
  Str.all Chars.is_digit s = true → is_Some (Num.int_go s acc).
Proof.
  revert acc. induction s as [|c s IH]; intros acc; simpl; [by eexists|].
  intros [Hc Hs]%andb_true_iff. rewrite Hc. by apply IH.
Qed.

Lemma py_int_digits (s : string) :
  s ≠ EmptyString → Str.all Chars.is_digit s = true →
  ∃ n, Num.py_int s = Ok n.
Proof.
  intros Hne Hs. destruct (int_go_digits s 0 Hs) as [n Hn].
  exists n. unfold Num.py_int. destruct s; [done|]. by rewrite Hn.
Qed.

Lemma chars_lookup (g : string) (i : nat) :
  (i < Str.length g)%nat → Str.all Chars.is_digit g = true →
  ∃ c, Str.chars g !! i = Some (String c EmptyString) ∧ Chars.is_digit c = true.
Proof.
  revert i. induction g as [|c g IH]; intros i Hi Hg; simpl in *; [lia|].
  apply andb_true_iff in Hg as [Hc Hg].
  destruct i as [|i]; [by exists c|]. apply IH; [lia|done].
Qed.

Lemma field_width_pos (f : start_field) : (2 <= field_width f)%nat.
Proof. destruct f; simpl; lia. Qed.

(** Every placeholder of a template finds a value that [int] accepts in
    what [findall] returns for a file that matches. *)
Lemma findall_values (ps : list piece) (filename : string) (values : list string) :
  Re.findall_first (regex_of ps) filename = Some values →
  ∀ j, (j < length (fields_of ps))%nat →
  ∃ v n, values !! j = Some v ∧ Num.py_int v = Ok n.
Proof.
  unfold Re.findall_first.
  destruct (Re.search (regex_of ps) filename) as [[caps whole]|] eqn:E; [|done].
  apply search_groups in E. rewrite group_widths_regex_of in E.
  intros Hv j Hj.
  assert (Hcaps : ∀ j, (j < length (fields_of ps))%nat →
            ∃ g f, caps !! j = Some g ∧ fields_of ps !! j = Some f
                   ∧ digits_of_width g (field_width f)).
  { intros k Hk. destruct (lookup_lt_is_Some_2 (fields_of ps) k Hk) as [f Hf].
    assert (Hw : (field_width <$> fields_of ps) !! k = Some (field_width f))
      by (by rewrite list_lookup_fmap, Hf).
    destruct (Forall2_lookup_r _ _ _ _ _ E Hw) as (g & Hg & Hd).
    by exists g, f. }
  assert (Htuple : ∀ g, caps !! j = Some g →
            ∃ n, Num.py_int g = Ok n).
  { intros g Hg. destruct (Hcaps j Hj) as (g' & f & Hg' & _ & Hl & Hd).
    rewrite Hg in Hg'. injection Hg' as <-. apply py_int_digits; [|done].
    pose proof (field_width_pos f). intros ->. simpl in Hl. lia. }
  destruct caps as [|g [|g' caps]].
  - destruct (Hcaps j Hj) as (g' & f & Hg' & _). done.
  - destruct (Hcaps j Hj) as (g' & f & Hg' & _ & Hl & Hd).
    destruct j as [|j]; [|done]. simpl in Hg'. injection Hg' as <-.
    injection Hv as <-. pose proof (field_width_pos f).
    destruct (chars_lookup g 0 ltac:(lia) Hd) as (c & Hc & Hdig).
    exists (String c ""). destruct (py_int_digits (String c "")) as [n Hn];
      [done|simpl; by rewrite Hdig|]. by exists n.
  - injection Hv as <-. destruct (Hcaps j Hj) as (g0 & f & Hg0 & _).
    destruct (Htuple g0 Hg0) as [n Hn]. by exists g0, n.
Qed.

Lemma field_names_not_end (fs : list start_field) (suffix : string) :
  ("end_" +:+ suffix) ∉ field_name <$> fs.
Proof.
  intros (f & Hf & _)%list_elem_of_fmap. by destruct f.
Qed.

End Templates.

(** ** The loop on values that [int] accepts *)

Section LoopTotal.

Variables (prefix : string) (exclude : option string).

Lemma loop_total (values : list string) (ps : list string) :
  ∀ i m,
  (∀ j, (j < length ps)%nat →
        ∃ v n, values !! (i + j)%nat = Some v ∧ Num.py_int v = Ok n) →
  ∃ m', create_date_loop prefix exclude values i ps m = Ok m'.
Proof.
  induction ps as [|p ps IH]; intros i m H; [by eexists|].
  rewrite loop_cons.
  destruct (H 0%nat ltac:(simpl; lia)) as (v & n & Hv & Hn).
  rewrite Nat.add_0_r in Hv. rewrite Hv. simpl. rewrite Hn. simpl.
  apply IH. intros j Hj.
  destruct (H (S j) ltac:(simpl; lia)) as (v' & n' & Hv' & Hn').
  exists v', n'. split; [|done]. by replace (S i + j)%nat with (i + S j)%nat by lia.
Qed.

End LoopTotal.

(** ** The passes over the values of a generated name *)

Section Passes.

Variable t : datetime.
Hypothesis Hvalid : valid t = true.

Lemma day_of_year_eq :
  day_of_year t = days_before_month (year t) (month t) + day t.
Proof.
  unfold day_of_year, toordinal, ymd2ord.
  assert (days_before_month (year t) 1 = 0) by reflexivity. lia.
Qed.

Lemma day_of_year_bounds : 1 <= day_of_year t <= 366.
Proof.
  rewrite day_of_year_eq.
  apply valid_spec in Hvalid as (_ & [Hm Hd] & _). unfold date_of in *.
  simpl in *. pose proof (days_before_month_bounds (year t) (month t) Hm).
  destruct (is_leap (year t)); lia.
Qed.

Lemma field_value_bounds (f : start_field) :
  0 <= field_value f t < 10 ^ Z.of_nat (field_width f).
Proof.
  pose proof day_of_year_bounds as Hdoy.
  pose proof Hvalid as Hv.
  apply valid_spec in Hv as (Hy & [Hm Hd] & Hh & Hmi & Hs & Hus).
  unfold date_of in *. simpl in *.
  pose proof (days_in_month_bounds (year t) (month t) Hm).
  destruct f; simpl; try lia.
  - apply Z.mod_pos_bound. lia.
  - split; [apply Z.div_pos; lia|]. apply Z.div_lt_upper_bound; lia.
Qed.

Lemma py_int_field (f : start_field) :
  Num.py_int (field_digits t f) = Ok (field_value f t).
Proof.
  apply py_int_zpad; [destruct f; simpl; lia | apply field_value_bounds].
Qed.

(** One round of the start pass. *)
Lemma written_start (f : start_field) :
  year_fits f t →
  written "" (Some "end_") (field_name f) (field_value f t)
  = Some (key_of f, arg_of f t).
Proof.
  intros Hy. destruct f; try reflexivity.
  simpl in Hy. unfold written. simpl.
  destruct (year t mod 100 <? 65) eqn:E;
    [rewrite Z.ltb_lt in E | rewrite Z.ltb_ge in E];
    do 2 f_equal; Z.div_mod_to_equations; lia.
Qed.

(** One round of the end pass: a placeholder of the start is passed
    over. *)
Lemma written_end (f : start_field) (v : Z) :
  written "end_" None (field_name f) v = None.
Proof. by destruct f. Qed.

(** The loop of the start pass stores the values of [t]. *)
Lemma start_loop (fs : list start_field) :
  Forall (fun f => year_fits f t) fs →
  ∀ (pre : list string) (m : gmap string Z),
  create_date_loop "" (Some "end_") (pre ++ (field_digits t <$> fs))
    (length pre) (field_name <$> fs) m
  = Ok (foldl (store t) m fs).
Proof.
  induction 1 as [|f fs Hf _ IH]; intros pre m; [done|].
  rewrite !fmap_cons, loop_cons.
  rewrite lookup_app_r by lia. rewrite Nat.sub_diag. simpl lookup.
  simpl. rewrite py_int_field. simpl.
  rewrite written_start by done.
  specialize (IH (pre ++ [field_digits t f])).
  rewrite <- (assoc_L (++)), length_app in IH. simpl in IH.
  replace (length pre + 1)%nat with (S (length pre)) in IH by lia.
  apply IH.
Qed.

(** The loop of the end pass leaves the arguments as they are. *)
Lemma end_loop (fs : list start_field) :
  ∀ (pre : list string) (m : gmap string Z),
  create_date_loop "end_" None (pre ++ (field_digits t <$> fs))
    (length pre) (field_name <$> fs) m
  = Ok m.
Proof.
  induction fs as [|f fs IH]; intros pre m; [done|].
  rewrite !fmap_cons, loop_cons.
  rewrite lookup_app_r by lia. rewrite Nat.sub_diag. simpl lookup.
  simpl. rewrite py_int_field. simpl.
  rewrite written_end.
  specialize (IH (pre ++ [field_digits t f])).
  rewrite <- (assoc_L (++)), length_app in IH. simpl in IH.
  replace (length pre + 1)%nat with (S (length pre)) in IH by lia.
  apply IH.
Qed.

(** What the stored arguments hold. *)
Lemma stored_lookup_in (fs : list start_field) (m : gmap string Z)
    (f : start_field) :
  f ∈ fs → foldl (store t) m fs !! key_of f = Some (arg_of f t).
Proof.
  induction fs as [|g fs IH] using rev_ind; [by intros ?%elem_of_nil|].
  rewrite foldl_app. simpl. unfold store at 1.
  intros [Hin| ->%list_elem_of_singleton]%elem_of_app.
  - destruct (decide (key_of g = key_of f)) as [E|E].
    + rewrite E, lookup_insert_eq. f_equal. by destruct f, g.
    + rewrite lookup_insert_ne by done. by apply IH.
  - apply lookup_insert_eq.
Qed.

Lemma stored_lookup_notin (fs : list start_field) (m : gmap string Z)
    (k : string) :
  Forall (fun f => key_of f ≠ k) fs → foldl (store t) m fs !! k = m !! k.
Proof.
  induction fs as [|g fs IH] using rev_ind; [done|].
  intros [H1 H2]%Forall_app. apply Forall_inv in H2.
  rewrite foldl_app. simpl. unfold store at 1.
  rewrite lookup_insert_ne by done. by apply IH.
Qed.

End Passes.

(** ** The name of the file of a time, and its match *)

Section Names.

Variable t : datetime.
Hypothesis Hvalid : valid t = true.

Lemma filename_field (d : Dataset) (f : start_field) :
  year_fits f t →
  filename_fields d t t !! field_name f = Some (field_digits t f).
Proof.
  intros Hy. pose proof (field_value_bounds t Hvalid f) as Hb.
  pose proof Hvalid as Hv. apply valid_spec in Hv as (Hyr & _).
  unfold field_digits.
  destruct f; cbn [field_width field_value field_name year_fits] in Hb, Hy |- *;
    change (10 ^ Z.of_nat 4) with 10000 in Hb;
    change (10 ^ Z.of_nat 3) with 1000 in Hb;
    change (10 ^ Z.of_nat 2) with 100 in Hb.
  - rewrite <- py_str_4 by lia. reflexivity.
  - rewrite <- year2_str by lia. reflexivity.
  - rewrite <- format_d_2 by lia. reflexivity.
  - rewrite <- format_d_2 by lia. reflexivity.
  - rewrite <- format_d_3 by lia. reflexivity.
  - rewrite <- format_d_2 by lia. reflexivity.
  - rewrite <- format_d_2 by lia. reflexivity.
  - rewrite <- format_d_2 by lia. reflexivity.
  - rewrite <- format_d_3 by lia. reflexivity.
Qed.

Lemma concat_fill (ps : list piece) :
  Str.concat ((fun p => match p with
                        | Text c => String c EmptyString
                        | Star => "*"
                        | Field f => field_digits t f
                        end) <$> ps)
  = fill ps t.
Proof.
  induction ps as [|[c| |f] ps IH]; [done|..]; rewrite fmap_cons;
    simpl; by rewrite IH.
Qed.

(** [generate_filename] writes the digits of the time. *)
Lemma generate_filename_render (d : Dataset) (ps : list piece) :
  forallb piece_ok ps = true →
  Forall (fun f => year_fits f t) (fields_of ps) →
  generate_filename d (render ps) t None = Ok (fill ps t).
Proof.
  intros Hok Hy. unfold generate_filename. simpl default.
  rewrite (format_render _ (field_digits t) ps Hok).
  - by rewrite concat_fill.
  - intros f Hf. apply filename_field. rewrite Forall_forall in Hy. by apply Hy.
Qed.

Lemma search_unfold (r : Re.regex) (s : string) :
  Re.search r s
  = match Re.match_here r s with
    | Some (caps, rest) =>
        Some (caps, Str.take (Str.length s - Str.length rest) s)
    | None => match s with
              | String _ s' => Re.search r s'
              | EmptyString => None
              end
    end.
Proof. by destruct s. Qed.

(** The regular expression of a template without wildcard matches the
    generated name, its groups being the digits that were written. *)
Lemma match_here_fill (ps : list piece) (rest : string) :
  forallb piece_ok ps = true →
  forallb (fun p => negb (is_star p)) ps = true →
  Re.match_here (regex_of ps) (fill ps t +:+ rest)
  = Some (field_digits t <$> fields_of ps, rest).
Proof.
  induction ps as [|p ps IH]; intros Hok Hstar; [done|].
  cbn [forallb] in Hok, Hstar.
  apply andb_true_iff in Hok as [Hp Hok].
  apply andb_true_iff in Hstar as [Hs Hstar]. specialize (IH Hok Hstar).
  destruct p as [c| |f]; [|done|].
  - cbn [regex_of fill fields_of String.append].
    destruct (Ascii.eqb c ".") eqn:E; cbn [Re.match_here].
    + apply Ascii.eqb_eq in E. subst c. exact IH.
    + by rewrite Ascii.eqb_refl.
  - cbn [regex_of fill fields_of Re.match_here]. rewrite fmap_cons.
    rewrite str_app_assoc. fold (field_digits t f).
    pose proof (str_take_app (field_digits t f) (fill ps t +:+ rest)) as Ht.
    pose proof (str_drop_app (field_digits t f) (fill ps t +:+ rest)) as Hd.
    unfold field_digits in Ht at 1, Hd at 1. rewrite zpad_length in Ht, Hd.
    rewrite Ht, Hd. unfold field_digits at 1 2.
    rewrite zpad_length, zpad_digits, Nat.eqb_refl. cbn [andb].
    rewrite IH. reflexivity.
Qed.

Lemma findall_fill (ps : list piece) :
  forallb piece_ok ps = true →
  forallb (fun p => negb (is_star p)) ps = true →
  (2 <= length (fields_of ps))%nat →
  Re.findall_first (regex_of ps) (fill ps t)
  = Some (field_digits t <$> fields_of ps).
Proof.
  intros Hok Hstar Hlen. unfold Re.findall_first. rewrite search_unfold.
  pose proof (match_here_fill ps "" Hok Hstar) as H.
  rewrite str_app_empty_r in H. rewrite H.
  destruct (fields_of ps) as [|f [|g fs]]; simpl in Hlen; [lia..|].
  reflexivity.
Qed.

End Names.

(** ** Dates from ordinals *)

Section Ordinals.

Lemma ord_inj (a b : Z * Z * Z) :
  date_ok a → date_ok b → ord a = ord b → a = b.
Proof.
  intros Ha Hb Hord.
  pose proof (ord_lt a b Ha Hb) as Hab. pose proof (ord_lt b a Hb Ha) as Hba.
  destruct a as [[y m] d], b as [[y' m'] d']. simpl in *.
  assert (y = y') as -> by lia. assert (m = m') as -> by lia.
  assert (d = d') as -> by lia. reflexivity.
Qed.

Lemma of_kwargs_first_day (y : Z) :
  1 <= y <= 9999 →
  of_kwargs (<["year" := y]> (<["month" := 1]> (<["day" := 1]> ∅)))
  = Ok (mk y 1 1 0 0 0 0).
Proof.
  intros Hy. unfold of_kwargs.
  rewrite bool_decide_true.
  2:{ rewrite !dom_insert_L, dom_empty_L. unfold allowed_keys.
      intros k. rewrite !elem_of_union, !elem_of_singleton, elem_of_empty.
      tauto. }
  cbn [negb].
  repeat first [rewrite lookup_insert_eq
               | rewrite lookup_insert_ne by done
               | rewrite lookup_empty].
  cbv [default from_option id].
  assert (valid (mk y 1 1 0 0 0 0) = true) as ->; [|done].
  apply valid_spec. unfold date_ok, time_ok, date_of. simpl.
  assert (days_in_month y 1 = 31) by reflexivity. lia.
Qed.

(** The first day of the year and the day of the year give the date
    back. *)
Lemma add_day_of_year (t : datetime) :
  valid t = true →
  add (mk (year t) 1 1 0 0 0 0) (days (day_of_year t - 1))
  = Ok (midnight (date_of t)).
Proof.
  intros Hv. apply valid_spec in Hv as (Hy & Hd & _).
  unfold add. cbn [year month day].
  change (time_of_day (mk (year t) 1 1 0 0 0 0)) with 0.
  replace (0 + days (day_of_year t - 1))
    with ((day_of_year t - 1) * days 1) by (unfold days; lia).
  rewrite Z.div_mul, Z.mod_mul by done.
  assert (Hfirst : date_ok (year t, 1, 1)).
  { unfold date_ok. simpl. assert (days_in_month (year t) 1 = 31) by reflexivity.
    lia. }
  destruct (ord_shift_days (day_of_year t - 1) _ Hfirst) as [Hord Hok].
  assert (Hs : shift_days (day_of_year t - 1) (year t, 1, 1) = date_of t).
  { apply ord_inj; [done..|]. rewrite Hord.
    unfold ord, day_of_year, date_of, toordinal. simpl. lia. }
  rewrite Hs. unfold date_of, MINYEAR, MAXYEAR. cbn [midnight].
  rewrite orb_false_intro; [reflexivity|lia..].
Qed.

(** Adding at most one day stays within the years of [datetime] when
    the year is not the last one. *)
Lemma add_small (t : datetime) (delta : timedelta) :
  valid t = true → year t <= 9998 → 0 <= delta <= days 1 →
  ∃ e, add t delta = Ok e.
Proof.
  intros Hv Hy Hdelta. apply valid_spec in Hv as (Hyr & Hd & Ht).
  pose proof (time_of_day_bounds t Ht) as Htod.
  unfold add.
  assert (Hq : (time_of_day t + delta) / days 1 = 0
               ∨ (time_of_day t + delta) / days 1 = 1).
  { unfold days in *. Z.div_mod_to_equations. lia. }
  assert (Hyear : ∀ y m d,
            shift_days ((time_of_day t + delta) / days 1)
                       (year t, month t, day t) = (y, m, d) →
            year t <= y <= year t + 1).
  { intros y m d. destruct Hq as [-> | ->]; unfold shift_days; simpl.
    - intros [= <- <- <-]. lia.
    - destruct (day t <? days_in_month (year t) (month t)).
      { intros [= <- <- <-]. lia. }
      destruct (month t <? 12); intros [= <- <- <-]; lia. }
  destruct (shift_days _ _) as [[y m] d].
  specialize (Hyear y m d eq_refl). unfold MINYEAR, MAXYEAR.
  rewrite orb_false_intro; [by eexists|lia..].
Qed.

End Ordinals.

(** ** The arguments of [datetime] for a generated name *)

Section StartArgs.

Variable t : datetime.
Hypothesis Hvalid : valid t = true.
Variable fs : list start_field.

Lemma field_name_elem (f : start_field) :
  field_name f ∈ field_name <$> fs ↔ f ∈ fs.
Proof.
  split; [|apply list_elem_of_fmap_2].
  intros (g & Hg & Hin)%list_elem_of_fmap.
  assert (f = g) as -> by (by destruct f, g). done.
Qed.

Lemma stored_keys (k : string) :
  is_Some (foldl (store t) ∅ fs !! k) → ∃ f, f ∈ fs ∧ key_of f = k.
Proof.
  intros Hk.
  destruct (decide (Exists (fun f => key_of f = k) fs)) as [H|H].
  - apply Exists_exists in H. exact H.
  - apply not_Exists_Forall in H; [|intros f; apply _].
    rewrite (stored_lookup_notin t fs ∅ k), lookup_empty in Hk.
    + by destruct Hk.
    + eapply Forall_impl; [exact H|]. done.
Qed.

Lemma stored_lookup (f : start_field) :
  f ≠ Fyear → f ≠ Fyear2 →
  foldl (store t) ∅ fs !! key_of f
  = if has fs f then Some (arg_of f t) else None.
Proof.
  intros H1 H2. unfold has. case_bool_decide as Hin.
  - by apply stored_lookup_in.
  - rewrite stored_lookup_notin; [apply lookup_empty|].
    apply Forall_forall. intros g Hg E. apply Hin.
    assert (g = f) as <- by (by destruct f, g). done.
Qed.

Lemma allowed_key (f : start_field) : f ≠ Fdoy → key_of f ∈ allowed_keys.
Proof.
  intros Hf. unfold allowed_keys.
  rewrite !elem_of_union, !elem_of_singleton. destruct f; simpl; tauto.
Qed.

(** The start pass on the values of the generated name. *)
Lemma start_pass :
  Forall (fun f => year_fits f t) fs → resolvable fs →
  ∃ args,
    _create_date_from_placeholders (field_name <$> fs) (field_digits t <$> fs)
      None (Some "end_") None = Ok args
    ∧ start_args_of fs t args.
Proof.
  intros Hfit (Hyear & Hday & _).
  unfold _create_date_from_placeholders. cbv [default from_option id].
  pose proof (start_loop t Hvalid fs Hfit [] ∅) as Hloop.
  simpl in Hloop. rewrite Hloop. cbn [mbind result_bind].
  set (m := foldl (store t) ∅ fs) in *.
  assert (Hy : m !! "year" = Some (year t)).
  { destruct Hyear as [H|H]; by apply (stored_lookup_in t fs ∅ _ H). }
  assert (Hh : m !! "hour" = if has fs Fhour then Some (hour t) else None)
    by (by apply (stored_lookup Fhour)).
  assert (Hmi : m !! "minute" = if has fs Fminute then Some (minute t) else None)
    by (by apply (stored_lookup Fminute)).
  assert (Hs : m !! "second" = if has fs Fsecond then Some (second t) else None)
    by (by apply (stored_lookup Fsecond)).
  assert (Hus : m !! "microsecond"
                = if has fs Fmillisecond
                  then Some (microsecond t / 1000 * 1000) else None)
    by (by apply (stored_lookup Fmillisecond)).
  pose proof Hvalid as Hv. apply valid_spec in Hv as (Hyr & _).
  change ("" +:+ "doy") with (field_name Fdoy).
  case_bool_decide as Hdoy.
  - apply field_name_elem in Hdoy.
    rewrite Hy. cbn [lookup_or mbind result_bind].
    rewrite of_kwargs_first_day by done. cbn [mbind result_bind].
    rewrite (stored_lookup_in t fs ∅ Fdoy Hdoy : m !! "doy" = Some _).
    cbn [lookup_or mbind result_bind arg_of].
    rewrite add_day_of_year by done. cbn [mbind result_bind].
    eexists. split; [reflexivity|].
    unfold date_of, midnight. cbn [month day].
    unfold start_args_of.
    rewrite !lookup_delete_ne by done.
    rewrite lookup_insert_eq. rewrite (lookup_insert_ne _ "day" "month") by done.
    rewrite lookup_insert_eq. rewrite !lookup_insert_ne by done.
    rewrite Hy, Hh, Hmi, Hs, Hus.
    repeat split; try reflexivity.
    intros k Hk. destruct (decide (k = "doy")) as [->|Hne].
    { rewrite lookup_delete_eq in Hk. by destruct Hk. }
    rewrite lookup_delete_ne in Hk by done.
    destruct (decide (k = "day")) as [->|Hne1]; [apply (allowed_key Fday); done|].
    rewrite lookup_insert_ne in Hk by done.
    destruct (decide (k = "month")) as [->|Hne2];
      [apply (allowed_key Fmonth); done|].
    rewrite lookup_insert_ne in Hk by done.
    apply stored_keys in Hk as (f & _ & <-). apply allowed_key.
    intros ->. done.
  - rewrite field_name_elem in Hdoy.
    destruct Hday as [H|[Hm Hd]]; [done|].
    eexists. split; [reflexivity|]. unfold start_args_of. rewrite Hy.
    rewrite (stored_lookup_in t fs ∅ Fmonth Hm : m !! "month" = Some _).
    rewrite (stored_lookup_in t fs ∅ Fday Hd : m !! "day" = Some _).
    rewrite Hh, Hmi, Hs, Hus.
    repeat split; try reflexivity.
    intros k (f & Hf & <-)%stored_keys. apply allowed_key.
    intros ->. done.
Qed.

(** The end pass finds no placeholder of the end. *)
Lemma end_pass (args : gmap string Z) :
  _create_date_from_placeholders (field_name <$> fs) (field_digits t <$> fs)
    (Some "end_") None (Some args) = Ok args.
Proof.
  unfold _create_date_from_placeholders. cbv [default from_option id].
  pose proof (end_loop t Hvalid fs [] args) as Hloop.
  simpl in Hloop. rewrite Hloop. cbn [mbind result_bind].
  rewrite bool_decide_false; [done|]. apply (field_names_not_end _ "doy").
Qed.

End StartArgs.

(** ** Continuity extension (C2) *)

(** The two examples of the docstring of [Dataset]: a file of a dataset of
    daily files covers one day when the dataset is continuous, and an
    instant when it is not. *)
Lemma continuity_extension_daily :
  resolve_new "{year}/{month}/{day}.ext" true "2017/11/12.ext"
  = Ok (mk 2017 11 12 0 0 0 0, mk 2017 11 13 0 0 0 0)
  ∧ resolve_new "{year}/{month}/{day}.ext" false "2017/11/12.ext"
    = Ok (mk 2017 11 12 0 0 0 0, mk 2017 11 12 0 0 0 0).
Proof. split; vm_compute; reflexivity. Qed.

(** [_get_time_resolution] follows the priority millisecond, second,
    minute, hour, day on the keys it is given. *)
Lemma get_time_resolution_priority (date_args : gmap string Z) :
  _get_time_resolution date_args =
    if bool_decide (is_Some (date_args !! "millisecond")) then Some (milliseconds 1)
    else if bool_decide (is_Some (date_args !! "second")) then Some (seconds 1)
    else if bool_decide (is_Some (date_args !! "minute")) then Some (minutes 1)
    else if bool_decide (is_Some (date_args !! "hour")) then Some (hours 1)
    else if bool_decide (is_Some (date_args !! "day")) then Some (days 1)
    else None.
Proof. reflexivity. Qed.

(** C2 (the code at the failing input): the file name gives the start to
    the millisecond, and the end is extended by one second, not by one
    millisecond: the millisecond placeholder is stored under the key
    [microsecond], which [_get_time_resolution] does not look for. *)
Theorem continuity_extension_millisecond :
  let files := "{year}{month}{day}_{hour}{minute}{second}{millisecond}.nc" in
  let start := mk 2017 11 12 10 15 30 123000 in
  resolve_new files true "20171112_101530123.nc"
  = Ok (start, mk 2017 11 12 10 15 31 123000)
  ∧ add start (seconds 1) = Ok (mk 2017 11 12 10 15 31 123000)
  ∧ add start (milliseconds 1) = Ok (mk 2017 11 12 10 15 30 124000).
Proof. repeat split; vm_compute; reflexivity. Qed.

(** ** The interval invariant (C3) *)

(** C3 (the code at the failing input): a file from 30 November to 2
    December whose name gives the end by its day only.  The end is
    resolved to 2 November, one day is added, and the interval that is
    returned ends before it starts. *)
Theorem rollover_month_boundary :
  let files := "{year}/{month}/{day}-{end_day}.nc" in
  resolve_new files true "2017/11/30-02.nc"
  = Ok (mk 2017 11 30 0 0 0 0, mk 2017 11 3 0 0 0 0)
  ∧ ltb (mk 2017 11 3 0 0 0 0) (mk 2017 11 30 0 0 0 0) = true.
Proof. split; vm_compute; reflexivity. Qed.

(** The case that the correction is made for: the end is given by its
    hour only and the file runs over midnight. *)
Lemma rollover_midnight :
  resolve_new "{year}/{month}/{day}/{hour}-{end_hour}.nc" true "2017/11/12/22-02.nc"
  = Ok (mk 2017 11 12 22 0 0 0, mk 2017 11 13 2 0 0 0).
Proof. vm_compute; reflexivity. Qed.

(** The day that is added brings the end behind the start exactly when
    the end was resolved less than a day, or a day, before the start. *)
Lemma rollover_within_a_day (s e0 e : datetime) :
  valid s = true → valid e0 = true → add e0 (days 1) = Ok e →
  leb s e = true ↔ stamp s <= stamp e0 + days 1.
Proof.
  intros Hs He0 He. pose proof He0 as (_ & Hd & Ht)%valid_spec.
  destruct (add_stamp _ _ _ Hd Ht He) as [Hst Hve].
  rewrite leb_stamp by done. lia.
Qed.

(** ** Millisecond placeholders (C6) *)

(** C6 (the code at the failing input): a template with
    [{end_millisecond}].  The value is stored under the key
    [end_microsecond], which [datetime] rejects. *)
Theorem end_millisecond_type_error :
  let files := "{year}{month}{day}_{hour}{minute}{second}{millisecond}-{end_hour}{end_minute}{end_second}{end_millisecond}.nc" in
  resolve_new files true "20171112_101530123-101545456.nc" = Raise TypeError
  ∧ _create_date_from_placeholders ["end_millisecond"] ["456"] (Some "end_") None None
    = Ok {[ "end_microsecond" := 456000 ]}.
Proof. split; vm_compute; reflexivity. Qed.

(** The same file without the end millisecond resolves, the start
    having [123 * 1000] microseconds. *)
Lemma millisecond_start :
  resolve_new "{year}{month}{day}_{hour}{minute}{second}{millisecond}-{end_hour}{end_minute}{end_second}.nc"
    true "20171112_101530123-101545.nc"
  = Ok (mk 2017 11 12 10 15 30 123000, mk 2017 11 12 10 15 45 123000).
Proof. vm_compute; reflexivity. Qed.

(** ** The two-digit year (C4) *)

(** C4: when [_create_date_from_placeholders] meets the placeholder
    [year2] (with the prefix of the pass) and the value matched for it is
    the two digits of [v], the year of the date is [2000 + v] for
    [v < 65] and [1900 + v] otherwise, unless a later placeholder sets
    the year again. *)
Theorem year2_disambiguation (prefix exclude : option string)
    (default_args : option (gmap string Z)) (ps1 ps2 : list string)
    (values : list string) (v : Z) (args : gmap string Z) :
  let pre := default EmptyString prefix in
  0 <= v < 100 →
  values !! length ps1 = Some (Num.zpad 2 v) →
  Forall (fun q => q ≠ pre +:+ "year" ∧ q ≠ pre +:+ "year2") ps2 →
  _create_date_from_placeholders (ps1 ++ (pre +:+ "year2") :: ps2) values
    prefix exclude default_args = Ok args →
  args !! "year" = Some (if v <? 65 then 2000 + v else 1900 + v).
Proof.
  intros pre Hv Hval Hps2 Hrun. unfold _create_date_from_placeholders in Hrun.
  fold pre in Hrun.
  destruct (create_date_loop pre exclude values 0 _ _) as [m|e] eqn:Hloop;
    [|discriminate].
  assert (Hyear : m !! "year" = Some (if v <? 65 then 2000 + v else 1900 + v)).
  { apply loop_last_writer with (k := "year") in Hloop.
    - destruct Hloop as (s & value & x & Hs & Hint & Hw & Hm).
      change (0 + length ps1)%nat with (length ps1) in Hs.
      assert (Es : s = Num.zpad 2 v) by congruence.
      rewrite Es, py_int_zpad in Hint by (simpl; lia). injection Hint as <-.
      unfold written in Hw. rewrite String.eqb_refl in Hw.
      injection Hw as <-. exact Hm.
    - eapply Forall_impl; [exact Hps2|]. intros q [H1 H2] Hq.
      apply written_key_year in Hq. tauto.
    - unfold written_key, written. by rewrite String.eqb_refl. }
  simpl in Hrun. destruct (bool_decide _); [|by inversion Hrun; subst].
  rewrite Hyear in Hrun. simpl in Hrun.
  destruct (of_kwargs _) as [first|e]; [|discriminate]. simpl in Hrun.
  destruct (lookup_or KeyError (m !! "doy")) as [doy|e]; [|discriminate].
  simpl in Hrun. destruct (add first _) as [date|e]; [|discriminate].
  inversion Hrun; subst args.
  rewrite lookup_delete_ne by discriminate.
  rewrite !lookup_insert_ne by discriminate. exact Hyear.
Qed.

Lemma year2_disambiguation_witness :
  _create_date_from_placeholders ["year2"; "month"; "day"] ["58"; "01"; "01"]
    None (Some "end_") None
  = Ok (<["year" := 2058]> (<["month" := 1]> (<["day" := 1]> ∅)))
  ∧ (<["year" := 2058]> (<["month" := 1]> (<["day" := 1]> (∅ : gmap string Z))))
      !! "year" = Some 2058.
Proof.
  assert (H : _create_date_from_placeholders ["year2"; "month"; "day"]
                ["58"; "01"; "01"] None (Some "end_") None
              = Ok (<["year" := 2058]> (<["month" := 1]> (<["day" := 1]> ∅))))
    by (vm_compute; reflexivity).
  split; [exact H|].
  apply (year2_disambiguation None (Some "end_") None [] ["month"; "day"]
           ["58"; "01"; "01"] 58).
  - lia.
  - reflexivity.
  - repeat constructor; discriminate.
  - exact H.
Defined.

(** The examples of the documentation: [58] is 2058 and [70] is 1970. *)
Lemma year2_examples :
  resolve_new "{year2}/{month}/{day}.dat" true "58/01/01.dat"
  = Ok (mk 2058 1 1 0 0 0 0, mk 2058 1 2 0 0 0 0)
  ∧ resolve_new "{year2}/{month}/{day}.dat" true "70/01/01.dat"
    = Ok (mk 1970 1 1 0 0 0 0, mk 1970 1 2 0 0 0 0).
Proof. split; vm_compute; reflexivity. Qed.

(** Every two-digit year, read from the name of a file. *)
Lemma year2_read_all (v : Z) :
  0 <= v < 100 → year2_read v = Some (year2_rule v).
Proof.
  intros Hv.
  assert (H : bool_decide (year2_read v = Some (year2_rule v)) = true).
  { revert v Hv.
    apply (forall_zrange
             (fun v => bool_decide (year2_read v = Some (year2_rule v))) 0 100).
    vm_compute. reflexivity. }
  by apply bool_decide_eq_true in H.
Qed.

(** ** The saved cache (C8) *)

Section SavedCache.

Import Strptime.

Lemma two_or_one_zpad (two : ascii → ascii → bool) (one : ascii → bool)
    (n : Z) (rest : string) :
  zpad2_ok two n = true →
  two_or_one two one (Num.zpad 2 n +:+ rest) = Some (n, rest).
Proof.
  unfold zpad2_ok. simpl Num.zpad. intros [H1 H2]%andb_true_iff.
  simpl. rewrite H1. rewrite Z.eqb_eq in H2. by rewrite H2.
Qed.

Local Arguments Num.zpad : simpl never.

Lemma month_digits (n : Z) : 1 <= n < 13 →
  zpad2_ok (fun a b => (between 1 1 a && between 0 2 b)
                       || (between 0 0 a && between 1 9 b)) n = true.
Proof.
  revert n. apply (forall_zrange (zpad2_ok _) 1 13). vm_compute. reflexivity.
Qed.

Lemma day_digits (n : Z) : 1 <= n < 32 →
  zpad2_ok (fun a b => (between 3 3 a && between 0 1 b)
                       || (between 1 2 a && between 0 9 b)
                       || (between 0 0 a && between 1 9 b)) n = true.
Proof.
  revert n. apply (forall_zrange (zpad2_ok _) 1 32). vm_compute. reflexivity.
Qed.

Lemma hour_digits (n : Z) : 0 <= n < 24 →
  zpad2_ok (fun a b => (between 2 2 a && between 0 3 b)
                       || (between 0 1 a && between 0 9 b)) n = true.
Proof.
  revert n. apply (forall_zrange (zpad2_ok _) 0 24). vm_compute. reflexivity.
Qed.

Lemma minute_digits (n : Z) : 0 <= n < 60 →
  zpad2_ok (fun a b => between 0 5 a && between 0 9 b) n = true.
Proof.
  revert n. apply (forall_zrange (zpad2_ok _) 0 60). vm_compute. reflexivity.
Qed.

Lemma second_digits (n : Z) : 0 <= n < 60 →
  zpad2_ok (fun a b => (between 6 6 a && between 0 1 b)
                       || (between 0 5 a && between 0 9 b)) n = true.
Proof.
  revert n. apply (forall_zrange (zpad2_ok _) 0 60). vm_compute. reflexivity.
Qed.

Lemma p_Y_zpad (n : Z) (rest : string) :
  0 <= n < 10000 → p_Y (Num.zpad 4 n +:+ rest) = Some (n, rest).
Proof.
  intros Hn. unfold p_Y.
  pose proof (str_take_app (Num.zpad 4 n) rest) as Ht.
  pose proof (str_drop_app (Num.zpad 4 n) rest) as Hd.
  rewrite zpad_length in Ht, Hd. rewrite Ht, Hd, zpad_length, zpad_digits.
  simpl andb. cbv iota.
  pose proof (int_go_zpad 4 n "" 0 (proj1 Hn)) as Hi.
  rewrite str_app_empty_r in Hi. rewrite Hi. simpl Num.int_go.
  rewrite Z.mod_small by (simpl; lia). repeat f_equal; lia.
Qed.

Lemma digits_upto_all (s : string) :
  Str.all Chars.is_digit s = true →
  digits_upto (Str.length s) s = (s, EmptyString).
Proof.
  induction s as [|c s IH]; simpl; [reflexivity|].
  intros [Hc Hs]%andb_true_iff. rewrite Hc, IH by done. reflexivity.
Qed.

Lemma p_f_zpad (n : Z) :
  0 <= n < 1000000 → p_f (Num.zpad 6 n) = Some (n, EmptyString).
Proof.
  intros Hn. unfold p_f.
  pose proof (digits_upto_all (Num.zpad 6 n) (zpad_digits 6 n)) as Hd.
  rewrite zpad_length in Hd. rewrite Hd.
  destruct (Num.zpad 6 n) eqn:E; [discriminate E|]. rewrite <- E.
  rewrite zpad_length. simpl Num.zeros.
  rewrite int_go_zpad by lia. simpl Num.int_go.
  rewrite Z.mod_small by (simpl; lia). repeat f_equal; lia.
Qed.

Lemma andthen_some {A B} (p : parser A) (f : A → parser B) (s s' : string)
    (a : A) :
  p s = Some (a, s') → andthen p f s = f a s'.
Proof. unfold andthen. by intros ->. Qed.

Lemma lit_app (c : ascii) (rest : string) :
  lit c (String c EmptyString +:+ rest) = Some (tt, rest).
Proof. unfold lit. simpl. by rewrite Ascii.eqb_refl. Qed.

Lemma p_m_zpad (n : Z) (rest : string) :
  1 <= n <= 12 → p_m (Num.zpad 2 n +:+ rest) = Some (n, rest).
Proof. intros. apply two_or_one_zpad, month_digits. lia. Qed.

Lemma p_d_zpad (n : Z) (rest : string) :
  1 <= n <= 31 → p_d (Num.zpad 2 n +:+ rest) = Some (n, rest).
Proof.
  intros. unfold p_d. rewrite two_or_one_zpad; [done|].
  apply day_digits. lia.
Qed.

Lemma p_H_zpad (n : Z) (rest : string) :
  0 <= n <= 23 → p_H (Num.zpad 2 n +:+ rest) = Some (n, rest).
Proof. intros. apply two_or_one_zpad, hour_digits. lia. Qed.

Lemma p_M_zpad (n : Z) (rest : string) :
  0 <= n <= 59 → p_M (Num.zpad 2 n +:+ rest) = Some (n, rest).
Proof. intros. apply two_or_one_zpad, minute_digits. lia. Qed.

Lemma p_S_zpad (n : Z) (rest : string) :
  0 <= n <= 59 → p_S (Num.zpad 2 n +:+ rest) = Some (n, rest).
Proof. intros. apply two_or_one_zpad, second_digits. lia. Qed.

(** Parsing what [strftime] printed gives the time back. *)
Lemma strptime_strftime (t : datetime) :
  representable t → strptime (strftime t) = Ok t.
Proof.
  intros [Hv Hy]. pose proof Hv as Hv'.
  apply valid_spec in Hv' as (Hyr & [Hm Hd] & Hh & Hmi & Hs & Hus).
  destruct t as [y m d h mi s us]. unfold date_of in *.
  cbn [year month day hour minute second microsecond fst snd] in *.
  pose proof (days_in_month_bounds y m Hm).
  unfold strptime, strftime, fields.
  cbn [year month day hour minute second microsecond].
  rewrite py_str_4 by lia.
  rewrite (andthen_some _ _ _ _ _ (p_Y_zpad y _ ltac:(lia))).
  rewrite (andthen_some _ _ _ _ _ (lit_app _ _)).
  rewrite (andthen_some _ _ _ _ _ (p_m_zpad m _ ltac:(lia))).
  rewrite (andthen_some _ _ _ _ _ (lit_app _ _)).
  rewrite (andthen_some _ _ _ _ _ (p_d_zpad d _ ltac:(lia))).
  rewrite (andthen_some _ _ _ _ _ (lit_app _ _)).
  rewrite (andthen_some _ _ _ _ _ (p_H_zpad h _ ltac:(lia))).
  rewrite (andthen_some _ _ _ _ _ (lit_app _ _)).
  rewrite (andthen_some _ _ _ _ _ (p_M_zpad mi _ ltac:(lia))).
  rewrite (andthen_some _ _ _ _ _ (lit_app _ _)).
  rewrite (andthen_some _ _ _ _ _ (p_S_zpad s _ ltac:(lia))).
  rewrite (andthen_some _ _ _ _ _ (lit_app _ _)).
  rewrite (andthen_some _ _ _ _ _ (p_f_zpad us ltac:(lia))).
  by rewrite Hv.
Qed.

Lemma parse_times_saved (times : interval) :
  representable times.1 → representable times.2 →
  parse_times (saved_times times) = Ok times.
Proof.
  intros H1 H2. unfold parse_times, saved_times. simpl.
  rewrite !strptime_strftime by done. simpl. by destruct times.
Qed.

Lemma parse_members_saved (l : list (string * interval)) :
  Forall (fun e => representable e.2.1 ∧ representable e.2.2) l →
  parse_members (prod_map id saved_times <$> l) = Ok l.
Proof.
  induction 1 as [|[file times] l [H1 H2] _ IH]; [reflexivity|].
  change (parse_members (prod_map id saved_times <$> (file, times) :: l))
    with (t ← parse_times (saved_times times);
          rest ← parse_members (prod_map id saved_times <$> l);
          Ok ((file, t) :: rest)).
  rewrite parse_times_saved by done. rewrite IH. reflexivity.
Qed.

(** Parsing the object that [save_time_coverages] writes for a cache
    gives the items of the cache. *)
Lemma load_saved (cache : gmap string interval) :
  map_Forall (fun _ times => representable times.1 ∧ representable times.2) cache →
  parse_members (map_to_list (saved_times <$> cache)) = Ok (map_to_list cache).
Proof.
  intros Hc. rewrite map_to_list_fmap. apply parse_members_saved.
  apply Forall_forall. intros [f t] Hin.
  apply elem_of_map_to_list in Hin. exact (Hc f t Hin).
Qed.

(** C8: a cache whose times are valid [datetime] objects of the years
    1000 to 9999 is saved to a file, and a dataset is constructed with
    that file as its [times_cache]: the cache of the new dataset is the
    saved cache. *)
Theorem cache_round_trip (w : world) (d : Dataset) (f : string)
    (obj_id files : string) (handler : option (string → result interval))
    (name : option string) (time_coverage : option coverage)
    (continuous : bool) (max_processes : option Z) :
  map_Forall (fun _ times => representable times.1 ∧ representable times.2)
             (time_coverages_cache d) →
  ∃ w' d',
    init (save_time_coverages w d (Some f)) obj_id files handler name
         time_coverage (Some f) continuous max_processes = Ok (w', d')
    ∧ time_coverages_cache d' = time_coverages_cache d.
Proof.
  intros Hc. pose proof (load_saved _ Hc) as Hl.
  unfold init, save_time_coverages, set_name. simpl.
  unfold load_time_coverages. cbn [disk].
  rewrite lookup_insert_eq. fold saved_times. rewrite Hl. simpl.
  eexists _, _. split; [reflexivity|].
  simpl. rewrite list_to_map_to_list. apply (right_id ∅ (∪)).
Qed.

Lemma cache_round_trip_witness :
  let cache : gmap string interval :=
    {[ "/dir/2017/11/12.nc" := (mk 2017 11 12 0 0 0 0, mk 2017 11 13 0 0 0 0) ]} in
  let d := mkDataset "TestData" "/dir/{year}/{month}/{day}.nc"
                     ["year"; "month"; "day"] false None true 4 ByFilename
                     (Some "times.json") cache in
  ∃ w' d',
    init (save_time_coverages initial_world d (Some "times.json"))
         "140277501327120" "/dir/{year}/{month}/{day}.nc" None
         (Some "TestData") None (Some "times.json") true None = Ok (w', d')
    ∧ time_coverages_cache d' = cache.
Proof.
  apply cache_round_trip. intros file times H. cbn [time_coverages_cache] in H.
  apply lookup_singleton_Some in H as [_ <-].
  repeat split; simpl; lia.
Defined.

(** A cache with times of the year 999, which the format can write
    with four digits ([strptime] reads them), is saved with three
    digits for the year, and the construction that loads the file
    raises a [ValueError]. *)
Lemma cache_round_trip_counterexample :
  let start := mk 999 1 1 0 0 0 0 in
  let end_ := mk 999 1 2 0 0 0 0 in
  let cache : gmap string interval := {[ "/dir/0999/01/01.nc" := (start, end_) ]} in
  let d := mkDataset "TestData" "/dir/{year}/{month}/{day}.nc"
                     ["year"; "month"; "day"] false None true 4 ByFilename
                     (Some "times.json") cache in
  valid start = true ∧ valid end_ = true
  ∧ strptime "0999-01-01T00:00:00.000000" = Ok start
  ∧ strptime "0999-01-02T00:00:00.000000" = Ok end_
  ∧ disk (save_time_coverages initial_world d (Some "times.json")) !! "times.json"
    = Some (Json {[ "/dir/0999/01/01.nc" := ["999-01-01T00:00:00.000000";
                                             "999-01-02T00:00:00.000000"] ]})
  ∧ init (save_time_coverages initial_world d (Some "times.json"))
         "140277501327120" "/dir/{year}/{month}/{day}.nc" None
         (Some "TestData") None (Some "times.json") true None
    = Raise ValueError.
Proof. repeat split; vm_compute; reflexivity. Qed.

(** The letter of the format is read in either case. *)
Lemma strptime_ignores_case :
  strptime "2017-11-12t00:00:00.000000" = Ok (mk 2017 11 12 0 0 0 0).
Proof. vm_compute. reflexivity. Qed.

(** A year below 1000 is printed with fewer than four digits, which
    [strptime] does not accept. *)
Lemma strptime_short_year :
  strftime (mk 999 1 1 0 0 0 0) = "999-01-01T00:00:00.000000"
  ∧ strptime (strftime (mk 999 1 1 0 0 0 0)) = Raise ValueError.
Proof. split; vm_compute; reflexivity. Qed.

End SavedCache.


(** ** Sorting the files that were found *)

Section Sorting.

Lemma insert_by_start_perm (x : string * interval) (l : list (string * interval)) :
  insert_by_start x l ≡ₚ x :: l.
Proof.
  induction l as [|y l IH]; simpl; [done|].
  destruct (ltb y.2.1 x.2.1); [|done].
  rewrite IH. apply Permutation_swap.
Qed.

Lemma sorted_by_start_perm (l : list (string * interval)) :
  sorted_by_start l ≡ₚ l.
Proof.
  induction l as [|x l IH]; simpl; [done|].
  rewrite insert_by_start_perm. by rewrite IH.
Qed.

Lemma insert_by_start_hd (a x : string * interval) (l : list (string * interval)) :
  start_le a x → HdRel start_le a l → HdRel start_le a (insert_by_start x l).
Proof.
  intros Hax Hl. destruct l as [|y l]; simpl; [by constructor|].
  inversion Hl; subst. destruct (ltb y.2.1 x.2.1); by constructor.
Qed.

Lemma insert_by_start_sorted (x : string * interval) (l : list (string * interval)) :
  Sorted start_le l → Sorted start_le (insert_by_start x l).
Proof.
  induction 1 as [|y l Hl IH Hy]; simpl; [by repeat constructor|].
  destruct (ltb y.2.1 x.2.1) eqn:E.
  - constructor; [exact IH|]. apply insert_by_start_hd; [|exact Hy].
    unfold start_le, leb. unfold ltb in E.
    by destruct (compare y.2.1 x.2.1).
  - constructor; [by constructor|]. constructor.
    unfold start_le. rewrite leb_ltb. by rewrite E.
Qed.

Lemma sorted_by_start_sorted (l : list (string * interval)) :
  StronglySorted start_le (sorted_by_start l).
Proof.
  apply Sorted_StronglySorted; [apply start_le_trans|].
  induction l as [|x l IH]; simpl; [constructor|].
  by apply insert_by_start_sorted.
Qed.

Variable overlaps : interval → interval → bool.
Variable fs : filesystem.
Variable table : gmap string string.

Lemma in_order_sorted (o : outcome) :
  StronglySorted start_le (yielded (in_order true o)).
Proof.
  unfold in_order. destruct (raised o); simpl; [constructor|].
  apply sorted_by_start_sorted.
Qed.

Lemma in_order_raised (sort : bool) (o : outcome) :
  raised (in_order sort o) = raised o.
Proof. unfold in_order. destruct sort; [|done]. by destruct (raised o). Qed.

Lemma in_order_perm (o : outcome) :
  raised o = None → yielded (in_order true o) ≡ₚ yielded o.
Proof. unfold in_order. intros ->. apply sorted_by_start_perm. Qed.

End Sorting.


(** ** Templates without a day (C9) *)

Section NoDay.

Lemma of_kwargs_day (kw : gmap string Z) (t : datetime) :
  of_kwargs kw = Ok t → is_Some (kw !! "day").
Proof.
  unfold of_kwargs. destruct (negb _); [done|].
  destruct (kw !! "year"); [|done]. destruct (kw !! "month"); [|done].
  destruct (kw !! "day"); [by eexists|done].
Qed.

Lemma of_kwargs_no_day (kw : gmap string Z) :
  kw !! "day" = None → of_kwargs kw = Raise TypeError.
Proof.
  intros H. unfold of_kwargs. destruct (negb _); [done|].
  rewrite H. by destruct (kw !! "year"), (kw !! "month").
Qed.

(** Whenever the start of the coverage was constructed, the minimal
    time resolution is not [None]. *)
Lemma resolution_of_constructed (kw : gmap string Z) (t : datetime) :
  of_kwargs kw = Ok t → is_Some (_get_time_resolution kw).
Proof.
  intros H%of_kwargs_day. unfold _get_time_resolution.
  repeat (case_bool_decide; [by eexists|]). done.
Qed.

Lemma start_pass_no_day (ps : list piece) (filename : string)
    (values : list string) :
  Forall (fun f => f ≠ Fday ∧ f ≠ Fdoy) (fields_of ps) →
  Re.findall_first (regex_of ps) filename = Some values →
  ∃ args, _create_date_from_placeholders (field_name <$> fields_of ps) values
            None (Some "end_") None = Ok args
          ∧ args !! "day" = None.
Proof.
  intros Hf Hv. unfold _create_date_from_placeholders. simpl default.
  destruct (loop_total "" (Some "end_") values (field_name <$> fields_of ps)
              0 ∅) as [m Hm].
  { intros j Hj. rewrite length_fmap in Hj. simpl.
    by eapply findall_values. }
  rewrite Hm. simpl. rewrite bool_decide_false.
  - exists m. split; [done|].
    assert (HF : Forall (fun p => written_key "" (Some "end_") p ≠ Some "day")
                        (field_name <$> fields_of ps)).
    { apply Forall_fmap. eapply Forall_impl; [exact Hf|].
      intros f [H1 H2]. by destruct f. }
    rewrite (loop_untouched "" (Some "end_") "day" values _ HF _ _ _ Hm).
    apply lookup_empty.
  - intros (f & Hname & Hin)%list_elem_of_fmap.
    rewrite Forall_forall in Hf. destruct (Hf f Hin) as [_ H2].
    by destruct f.
Qed.

Lemma end_pass_total (ps : list piece) (filename : string)
    (values : list string) (start_args : gmap string Z) :
  Re.findall_first (regex_of ps) filename = Some values →
  ∃ args, _create_date_from_placeholders (field_name <$> fields_of ps) values
            (Some "end_") None (Some start_args) = Ok args.
Proof.
  intros Hv. unfold _create_date_from_placeholders. simpl default.
  destruct (loop_total "end_" None values (field_name <$> fields_of ps)
              0 start_args) as [m Hm].
  { intros j Hj. rewrite length_fmap in Hj. simpl.
    by eapply findall_values. }
  rewrite Hm. simpl. rewrite bool_decide_false; [by eexists|].
  apply (field_names_not_end _ "doy").
Qed.

(** C9, as amended: a dataset whose template has neither [{day}] nor
    [{doy}] among its placeholders does not resolve the time coverage of
    any file: for a file that its regular expression matches,
    [datetime] is called without [day], which is a [TypeError] whatever
    [continuous] is.  And the time resolution asked for a start that was
    constructed is never [None]. *)
Theorem no_day_type_error (table : gmap string string) (ps : list piece)
    (d : Dataset) (filename : string) :
  standard_table table →
  forallb piece_ok ps = true →
  Forall (fun f => f ≠ Fday ∧ f ≠ Fdoy) (fields_of ps) →
  files d = render ps →
  files_placeholders d = Re.find_fields (files d) →
  single_file d = false →
  time_coverage d = ByFilename →
  time_coverages_cache d !! filename = None →
  retrieve_time_coverage table d filename None
  = match Re.findall_first (regex_of ps) filename with
    | Some _ => Raise TypeError
    | None => Raise ValueError
    end
  ∧ ∀ kw t, of_kwargs kw = Ok t → is_Some (_get_time_resolution kw).
Proof.
  intros Ht Hok Hf Hfiles Hph Hsingle Hmode Hcache.
  split; [|apply resolution_of_constructed].
  unfold retrieve_time_coverage. rewrite Hcache, Hmode.
  unfold coverage_from_filename. rewrite Hsingle, Hph, Hfiles.
  rewrite template_regex_render, find_fields_render by done. simpl.
  destruct (Re.findall_first (regex_of ps) filename) as [values|] eqn:Hv;
    [|done].
  simpl.
  destruct (start_pass_no_day ps filename values Hf Hv) as (args & -> & Hday).
  simpl.
  destruct (end_pass_total ps filename values args Hv) as (args' & ->).
  simpl. rewrite (of_kwargs_no_day args Hday). reflexivity.
Qed.

Lemma no_day_type_error_witness :
  let d := mkDataset "TestData" "/dir/{year}/{month}.nc" ["year"; "month"]
                     false None true 4 ByFilename None ∅ in
  retrieve_time_coverage placeholder_table d "/dir/2017/11.nc" None
  = Raise TypeError.
Proof.
  intros d.
  set (ps := [Text "/"; Text "d"; Text "i"; Text "r"; Text "/"; Field Fyear;
              Text "/"; Field Fmonth; Text "."; Text "n"; Text "c"]).
  assert (Hst : standard_table placeholder_table) by (intros f; reflexivity).
  assert (Hok : forallb piece_ok ps = true) by reflexivity.
  assert (HF : Forall (fun f => f ≠ Fday ∧ f ≠ Fdoy) (fields_of ps))
    by (repeat constructor; discriminate).
  exact (proj1 (no_day_type_error placeholder_table ps d "/dir/2017/11.nc"
                  Hst Hok HF eq_refl eq_refl eq_refl eq_refl eq_refl)).
Defined.

End NoDay.

(** C9 (counterexample): a continuous dataset whose placeholders are
    [year] and [doy], none of millisecond, second, minute, hour and day.
    Start and end of the file resolve to the same time, and the time
    coverage is returned, extended by one day: no [TypeError]. *)
Lemma doy_template_resolves :
  let template := "/dir/{year}/{doy}.nc" in
  (d ← new_dataset template "TestData" true;
   Ok (continuous d.2, files_placeholders d.2)) = Ok (true, ["year"; "doy"])
  ∧ resolve_new template false "/dir/2017/316.nc"
    = Ok (mk 2017 11 12 0 0 0 0, mk 2017 11 12 0 0 0 0)
  ∧ resolve_new template true "/dir/2017/316.nc"
    = Ok (mk 2017 11 12 0 0 0 0, mk 2017 11 13 0 0 0 0).
Proof. repeat split; vm_compute; reflexivity. Qed.

(** What else a template without a day does: with the name of the
    dataset in it the values are read out of step, and with the end
    given by the day of the year the end pass fails first. *)
Lemma no_day_other_errors :
  resolve_new "/dir/{name}/{year}/{month}.nc" true "/dir/TestData/2017/11.nc"
  = Raise IndexError
  ∧ resolve_new "/dir/{year}{month}-{end_doy}.nc" true "/dir/000011-316.nc"
    = Raise ValueError
  ∧ resolve_new "/dir/{month}-{end_doy}.nc" true "/dir/11-316.nc"
    = Raise KeyError.
Proof. repeat split; vm_compute; reflexivity. Qed.

(** ** Round-trip naming (C1) *)

Section RoundTrip.

Variable t : datetime.
Hypothesis Hvalid : valid t = true.
Variable fs : list start_field.

Lemma valid_truncated : valid (truncated fs t) = true.
Proof.
  pose proof Hvalid as Hv.
  apply valid_spec in Hv as (Hy & Hd & Hh & Hmi & Hs & Hus).
  apply valid_spec. unfold truncated, date_of, time_ok in *. simpl.
  split; [done|]. split; [done|].
  destruct (has fs Fhour), (has fs Fminute), (has fs Fsecond),
    (has fs Fmillisecond); repeat split; try lia;
    Z.div_mod_to_equations; lia.
Qed.

Lemma of_kwargs_start (args : gmap string Z) :
  start_args_of fs t args → of_kwargs args = Ok (truncated fs t).
Proof.
  intros (Hy & Hm & Hd & Hh & Hmi & Hs & Hus & Hdom). unfold of_kwargs.
  rewrite bool_decide_true by (intros k Hk%elem_of_dom; by apply Hdom).
  cbn [negb]. rewrite Hy, Hm, Hd, Hh, Hmi, Hs, Hus.
  assert (Ht : mk (year t) (month t) (day t)
                 (default 0 (if has fs Fhour then Some (hour t) else None))
                 (default 0 (if has fs Fminute then Some (minute t) else None))
                 (default 0 (if has fs Fsecond then Some (second t) else None))
                 (default 0 (if has fs Fmillisecond
                             then Some (microsecond t / 1000 * 1000) else None))
               = truncated fs t).
  { unfold truncated.
    by destruct (has fs Fhour), (has fs Fminute), (has fs Fsecond),
      (has fs Fmillisecond). }
  rewrite Ht, valid_truncated. reflexivity.
Qed.

Lemma resolution_start (args : gmap string Z) :
  start_args_of fs t args → _get_time_resolution args = Some (unit_of fs).
Proof.
  intros (Hy & Hm & Hd & Hh & Hmi & Hs & Hus & Hdom).
  unfold _get_time_resolution, unit_of.
  rewrite (bool_decide_false (is_Some (args !! "millisecond"))).
  2:{ intros H%Hdom. unfold allowed_keys in H.
      rewrite !elem_of_union, !elem_of_singleton in H.
      repeat destruct H as [H|H]; discriminate. }
  rewrite Hs, Hmi, Hh, Hd.
  destruct (has fs Fsecond); [by rewrite bool_decide_true|].
  rewrite bool_decide_false by (by intros [? ?]).
  destruct (has fs Fminute); [by rewrite bool_decide_true|].
  rewrite bool_decide_false by (by intros [? ?]).
  destruct (has fs Fhour); [by rewrite bool_decide_true|].
  rewrite bool_decide_false by (by intros [? ?]).
  by rewrite bool_decide_true.
Qed.

Lemma unit_of_bounds : 0 < unit_of fs <= days 1.
Proof.
  unfold unit_of, seconds, minutes, hours, days.
  destruct (has fs Fsecond), (has fs Fminute), (has fs Fhour); lia.
Qed.

(** The time lies less than one unit after its truncation. *)
Lemma stamp_truncated :
  resolvable fs →
  stamp (truncated fs t) <= stamp t < stamp (truncated fs t) + unit_of fs.
Proof.
  intros (_ & _ & H1 & H2 & H3).
  pose proof Hvalid as Hv.
  apply valid_spec in Hv as (Hy & Hd & Hh & Hmi & Hs & Hus).
  unfold stamp, toordinal, time_of_day, truncated, unit_of, time_ok in *.
  cbn [year month day hour minute second microsecond].
  unfold seconds, minutes, hours, days, has in *.
  repeat case_bool_decide; try tauto; Z.div_mod_to_equations; lia.
Qed.

End RoundTrip.

Lemma two_elements {A} (a b : A) (l : list A) :
  a ∈ l → b ∈ l → a ≠ b → (2 <= length l)%nat.
Proof.
  intros Ha Hb Hne. destruct l as [|x [|y l]]; simpl; [| |lia].
  - by apply elem_of_nil in Ha.
  - apply list_elem_of_singleton in Ha, Hb. congruence.
Qed.

Lemma resolvable_length (fs : list start_field) :
  resolvable fs → (2 <= length fs)%nat.
Proof.
  intros ([Hy|Hy] & [Hd|[Hm Hd]] & _);
    (eapply (two_elements _ _ fs); [exact Hy|exact Hd|done]).
Qed.

(** C1, as amended: a template of plain characters and placeholders of
    the start, with a year, with a day, and with no unit of time without
    the next coarser one; a time [t] whose year the year placeholder can
    hold; a continuous dataset in filename mode.  The name generated for
    [t] resolves to the interval that starts at [t] cut down to the
    placeholders and lasts one unit of the finest of them (second,
    minute, hour or day), and [t] lies in it. *)
Theorem round_trip_naming (table : gmap string string) (ps : list piece)
    (d : Dataset) (t : datetime) :
  standard_table table →
  forallb piece_ok ps = true →
  forallb (fun p => negb (is_star p)) ps = true →
  resolvable (fields_of ps) →
  Forall (fun f => year_fits f t) (fields_of ps) →
  valid t = true → year t <= 9998 →
  files d = render ps →
  files_placeholders d = Re.find_fields (files d) →
  single_file d = false →
  continuous d = true →
  time_coverage d = ByFilename →
  time_coverages_cache d !! fill ps t = None →
  ∃ times d',
    generate_filename d (files d) t None = Ok (fill ps t)
    ∧ retrieve_time_coverage table d (fill ps t) None = Ok (times, d')
    ∧ times.1 = truncated (fields_of ps) t
    ∧ add times.1 (unit_of (fields_of ps)) = Ok times.2
    ∧ covers times t = true.
Proof.
  intros Ht Hok Hstar Hres Hfit Hvalid Hyear Hfiles Hph Hsingle Hcont Hmode
    Hcache.
  set (fs := fields_of ps) in *.
  destruct (add_small (truncated fs t) (unit_of fs)) as [e He].
  { apply valid_truncated, Hvalid. }
  { exact Hyear. }
  { pose proof (unit_of_bounds fs). lia. }
  pose proof (valid_truncated t Hvalid fs) as Hvs.
  pose proof Hvs as Hvs'. apply valid_spec in Hvs' as (_ & Hds & Hts).
  destruct (add_stamp _ _ _ Hds Hts He) as [Hstamp Hve].
  pose proof (unit_of_bounds fs) as Hunit.
  pose proof (stamp_truncated t Hvalid fs Hres) as Hin.
  exists (truncated fs t, e). eexists.
  split; [rewrite Hfiles; by apply generate_filename_render|].
  split; [|split; [done|split; [done|]]].
  - unfold retrieve_time_coverage. rewrite Hcache, Hmode.
    unfold coverage_from_filename. rewrite Hsingle, Hph, Hfiles.
    rewrite template_regex_render, find_fields_render by done.
    cbn [mbind result_bind].
    rewrite (findall_fill t ps Hok Hstar (resolvable_length _ Hres)).
    cbn [lookup_or mbind result_bind]. fold fs.
    destruct (start_pass t Hvalid fs Hfit Hres) as (args & -> & Hargs).
    cbn [mbind result_bind]. rewrite (end_pass t Hvalid fs).
    cbn [mbind result_bind].
    rewrite (of_kwargs_start t Hvalid fs args Hargs). cbn [mbind result_bind].
    rewrite Hcont. unfold eqb. rewrite bool_decide_true by done. cbn [andb].
    rewrite (resolution_start t fs args Hargs). cbn [add_opt]. rewrite He.
    cbn [mbind result_bind].
    assert (ltb e (truncated fs t) = false) as ->.
    { apply not_true_is_false. rewrite ltb_stamp by done. lia. }
    cbn [mbind result_bind]. reflexivity.
  - unfold covers. cbn [fst snd]. apply andb_true_iff. split.
    + apply leb_stamp; [done..|]. lia.
    + apply ltb_stamp; [done..|]. lia.
Qed.

Lemma round_trip_naming_witness :
  let t := mk 2017 1 1 12 34 56 789000 in
  ∃ times d',
    generate_filename docstring_dataset (files docstring_dataset) t None
    = Ok "/dir/2017/01/01/123456.nc"
    ∧ retrieve_time_coverage placeholder_table docstring_dataset
        "/dir/2017/01/01/123456.nc" None = Ok (times, d')
    ∧ times = (mk 2017 1 1 12 34 56 0, mk 2017 1 1 12 34 57 0)
    ∧ covers times t = true.
Proof.
  intros t.
  assert (Hst : standard_table placeholder_table) by (intros f; reflexivity).
  assert (Hres : resolvable (fields_of docstring_pieces)).
  { unfold resolvable. cbn [fields_of docstring_pieces].
    split; [left; repeat constructor|].
    split; [right; split; repeat constructor|].
    repeat split; intros _; repeat constructor. }
  assert (Hfit : Forall (fun f => year_fits f t) (fields_of docstring_pieces)).
  { repeat constructor. simpl. lia. }
  destruct (round_trip_naming placeholder_table docstring_pieces
              docstring_dataset t Hst eq_refl eq_refl Hres Hfit eq_refl
              ltac:(simpl; lia) eq_refl eq_refl eq_refl eq_refl eq_refl eq_refl)
    as ([s e] & d' & Hg & Hr & Hs & He & Hc).
  exists (s, e), d'. split; [exact Hg|]. split; [exact Hr|].
  split; [|exact Hc].
  simpl in Hs, He. subst s. vm_compute in He. injection He as <-.
  reflexivity.
Defined.

(** C1 (counterexamples): for each of these templates and times the
    generated name does not resolve to an interval that contains the
    time. *)
Lemma round_trip_counterexample :
  (* a two-digit year is read back into 1965..2064 *)
  round_trip "{year2}/{month}/{day}.dat" true (mk 1950 3 4 0 0 0 0)
  = Ok (mk 2050 3 4 0 0 0 0, mk 2050 3 5 0 0 0 0)
  ∧ covers (mk 2050 3 4 0 0 0 0, mk 2050 3 5 0 0 0 0) (mk 1950 3 4 0 0 0 0)
    = false
  (* a minute without the hour *)
  ∧ round_trip "{year}/{month}/{day}/{minute}.dat" true (mk 2017 3 4 10 30 0 0)
    = Ok (mk 2017 3 4 0 30 0 0, mk 2017 3 4 0 31 0 0)
  ∧ covers (mk 2017 3 4 0 30 0 0, mk 2017 3 4 0 31 0 0) (mk 2017 3 4 10 30 0 0)
    = false
  (* no day *)
  ∧ round_trip "{year}/{month}.dat" true (mk 2017 3 4 10 30 0 0)
    = Raise TypeError
  (* a year of fewer than four digits *)
  ∧ round_trip "{year}/{month}/{day}.dat" true (mk 999 3 4 0 0 0 0)
    = Raise ValueError
  (* a dataset that is not continuous: the interval is empty *)
  ∧ round_trip "{year}/{month}/{day}.dat" false (mk 2017 3 4 10 30 0 0)
    = Ok (mk 2017 3 4 0 0 0 0, mk 2017 3 4 0 0 0 0)
  ∧ covers (mk 2017 3 4 0 0 0 0, mk 2017 3 4 0 0 0 0) (mk 2017 3 4 10 30 0 0)
    = false
  (* an end placeholder without its start placeholder *)
  ∧ round_trip "{year}/{month}/{day}/{end_hour}.dat" true (mk 2017 3 4 10 30 0 0)
    = Ok (mk 2017 3 4 0 0 0 0, mk 2017 3 4 10 0 0 0)
  ∧ covers (mk 2017 3 4 0 0 0 0, mk 2017 3 4 10 0 0 0) (mk 2017 3 4 10 30 0 0)
    = false
  (* the name of the dataset in the template *)
  ∧ round_trip "{name}/{year}/{month}/{day}.dat" true (mk 2017 3 4 10 30 0 0)
    = Raise IndexError
  (* the last day of the last year *)
  ∧ round_trip "{year}/{month}/{day}.dat" true (mk 9999 12 31 10 30 0 0)
    = Raise OverflowError.
Proof. repeat split; vm_compute; reflexivity. Qed.


(** * Further properties *)

(** ** The cache of time coverages *)

Section CoverageCache.

Variable overlaps : interval → interval → bool.
Variable fs : filesystem.
Variable table : gmap string string.

Global Instance extends_refl : Reflexive extends.
Proof. intros d. split; [done|]. by destruct d. Qed.

Global Instance extends_trans : Transitive extends.
Proof.
  intros d1 d2 d3 [H12 E12] [H23 E23]. split; [by etrans|].
  rewrite E23 at 1. rewrite E12. reflexivity.
Qed.

(** How [retrieve_time_coverage] returns: from the cache or the explicit
    time coverage, leaving the dataset as it is, or with a new entry of
    the cache. *)
Lemma retrieve_cases (tbl : gmap string string) (d : Dataset) (f : string)
    (m : option method) (times : interval) (d' : Dataset) :
  retrieve_time_coverage tbl d f m = Ok (times, d') →
  (d' = d ∧ (time_coverages_cache d !! f = Some times
             ∨ (m = None ∧ time_coverage d = Explicit times)))
  ∨ (time_coverages_cache d !! f = None
     ∧ (m = None → ∀ t, time_coverage d ≠ Explicit t)
     ∧ d' = set_cache (<[f := times]> (time_coverages_cache d)) d).
Proof.
  unfold retrieve_time_coverage.
  destruct (time_coverages_cache d !! f) as [cached|] eqn:Ec.
  { intros [= <- <-]. left. auto. }
  destruct m as [m|].
  - destruct m; [destruct (coverage_from_filename tbl d f)
                | destruct (get_info d f)]; simpl; try discriminate;
      intros [= <- <-]; right; (split; [done|]); (split; [done|]); reflexivity.
  - destruct (time_coverage d) as [| |t] eqn:Et.
    + destruct (coverage_from_filename tbl d f); simpl; [|discriminate].
      intros [= <- <-]. right. split; [done|]. split; [done|]. reflexivity.
    + destruct (get_info d f); simpl; [|discriminate].
      intros [= <- <-]. right. split; [done|]. split; [done|]. reflexivity.
    + intros [= <- <-]. left. auto.
Qed.

Lemma retrieve_extends (tbl : gmap string string) (d : Dataset) (f : string)
    (m : option method) (times : interval) (d' : Dataset) :
  retrieve_time_coverage tbl d f m = Ok (times, d') → extends d d'.
Proof.
  intros [[-> _]|(Hc & _ & ->)]%retrieve_cases; [reflexivity|].
  split; [|reflexivity]. cbn [time_coverages_cache set_cache].
  by apply insert_subseteq.
Qed.

(** After a time coverage was retrieved, it is what the dataset
    answers: the cache, or the explicit time coverage. *)
Lemma retrieve_known (tbl : gmap string string) (d : Dataset) (f : string)
    (m : option method) (times : interval) (d' : Dataset) :
  retrieve_time_coverage tbl d f m = Ok (times, d') →
  time_coverages_cache d' !! f = Some times
  ∨ (time_coverages_cache d' !! f = None ∧ m = None
     ∧ time_coverage d' = Explicit times).
Proof.
  intros H. pose proof H as [[-> [Hc|[-> Ht]]]|(Hc & _ & ->)]%retrieve_cases.
  - by left.
  - destruct (time_coverages_cache d !! f) as [cached|] eqn:Ec; [|by right].
    unfold retrieve_time_coverage in H. rewrite Ec in H.
    injection H as <-. by left.
  - left. cbn [time_coverages_cache set_cache]. apply lookup_insert_eq.
Qed.

(** X1: a time coverage that was retrieved by a method is kept: every
    later call for the file returns it, whatever method the call names
    and whatever the class table is by then, and changes nothing. *)
Theorem retrieve_time_coverage_kept (tbl : gmap string string) (d : Dataset)
    (f : string) (m : option method) (times : interval) (d' : Dataset) :
  retrieve_time_coverage tbl d f m = Ok (times, d') →
  (m = None → ∀ t, time_coverage d ≠ Explicit t) →
  ∀ (tbl' : gmap string string) (m' : option method),
    retrieve_time_coverage tbl' d' f m' = Ok (times, d').
Proof.
  intros H Hm tbl' m'.
  assert (Hc : time_coverages_cache d' !! f = Some times).
  { pose proof H as [[-> [Hc|[-> Ht]]]|(Hc & _ & ->)]%retrieve_cases.
    - done.
    - by destruct (Hm eq_refl times).
    - cbn [time_coverages_cache set_cache]. apply lookup_insert_eq. }
  unfold retrieve_time_coverage. by rewrite Hc.
Qed.

Lemma scan_files_extends (start end_ : datetime) (filenames : list string) :
  ∀ d, extends d (final (scan_files overlaps table d start end_ filenames)).
Proof.
  induction filenames as [|f fl IH]; intros d; simpl; [reflexivity|].
  unfold _check_file.
  destruct (retrieve_time_coverage table d f None) as [[times d1]|e] eqn:E1;
    simpl; [|reflexivity].
  apply retrieve_extends in E1.
  destruct (overlaps times (start, end_)).
  - destruct (retrieve_time_coverage table d1 f None) as [[times2 d2]|e] eqn:E2;
      simpl; [|done].
    apply retrieve_extends in E2. etrans; [exact E1|]. etrans; [exact E2|].
    apply IH.
  - etrans; [exact E1|]. apply IH.
Qed.


Lemma scan_dates_extends (start end_ : datetime) (path_parts : list string)
    (day_index : nat) (regex : Re.regex) (dates : list datetime) :
  ∀ d, extends d (final (scan_dates overlaps fs table d start end_ path_parts
                           day_index regex dates)).
Proof.
  induction dates as [|date dl IH]; intros d; simpl; [reflexivity|].
  destruct (_get_files_path fs d date path_parts day_index) as [path|e];
    [|reflexivity].
  pose proof (scan_files_extends start end_ (_get_all_files fs path regex) d)
    as H1.
  destruct (raised (scan_files _ _ _ _ _ _)); [exact H1|].
  cbn [final]. etrans; [exact H1|]. apply IH.
Qed.

Lemma in_order_final (sort : bool) (o : outcome) :
  final (in_order sort o) = final o.
Proof. unfold in_order. destruct sort; [|done]. by destruct (raised o). Qed.

Lemma find_files_extends (d : Dataset) (start end_ : datetime)
    (sort no_files_error : bool) :
  extends d (final (find_files overlaps fs table d start end_ sort
                      no_files_error)).
Proof.
  unfold find_files. destruct (single_file d).
  { destruct (isfile fs (files d)); [|reflexivity].
    destruct (retrieve_time_coverage _ _ _ _) as [[tc d1]|e] eqn:E;
      [|reflexivity].
    apply retrieve_extends in E.
    destruct (overlaps tc _); [exact E|]. by destruct no_files_error. }
  destruct (template_regex _ _) as [regex|e]; [|reflexivity].
  destruct (search_dates _ _) as [dates|e]; [|reflexivity].
  pose proof (scan_dates_extends start end_ (Str.split "/" (files d))
                (find_day_index 0 (Str.split "/" (files d))) regex dates d)
    as H.
  set (found := scan_dates _ _ _ _ _ _ _ _ _ _) in *.
  destruct no_files_error; simpl negb; cbv iota.
  - destruct (yielded found); [destruct (raised found); exact H|].
    by rewrite in_order_final.
  - by rewrite in_order_final.
Qed.

(** X2: a search changes nothing of the dataset but the cache of time
    coverages, and the cache keeps every entry it had. *)
Theorem find_files_extends_cache (d : Dataset) (start end_ : datetime)
    (sort no_files_error : bool) :
  let d' := final (find_files overlaps fs table d start end_ sort
                     no_files_error) in
  time_coverages_cache d ⊆ time_coverages_cache d'
  ∧ d' = set_cache (time_coverages_cache d') d.
Proof. exact (find_files_extends d start end_ sort no_files_error). Qed.

(** X4: [no_files_error] matters only when the search ends without a
    file and without an exception. *)
Theorem no_files_error_only_when_empty (d : Dataset) (start end_ : datetime)
    (sort : bool) :
  let strict := find_files overlaps fs table d start end_ sort true in
  let lenient := find_files overlaps fs table d start end_ sort false in
  strict = lenient
  ∨ (lenient = mkOutcome [] None (final lenient)
     ∧ strict = stop NoFilesError (final lenient)).
Proof.
  cbv zeta. unfold find_files. destruct (single_file d).
  { destruct (isfile fs (files d)); [|by left].
    destruct (retrieve_time_coverage _ _ _ _) as [[tc d1]|e]; [|by left].
    destruct (overlaps tc _); [by left|]. right. done. }
  destruct (template_regex _ _) as [regex|e]; [|by left].
  destruct (search_dates _ _) as [dates|e]; [|by left].
  set (found := scan_dates _ _ _ _ _ _ _ _ _ _).
  simpl negb. cbv iota.
  destruct (yielded found) as [|item items] eqn:Ey; [|by left].
  destruct (raised found) as [e|] eqn:Er.
  - left. unfold in_order. rewrite Er. destruct sort; [done|].
    destruct found. simpl in *. by subst.
  - right. unfold in_order. rewrite Er, Ey.
    destruct sort; simpl; [done|]. destruct found. simpl in *. by subst.
Qed.

End CoverageCache.

Section Sound.

Variable overlaps : interval → interval → bool.
Variable fs : filesystem.
Variable table : gmap string string.

Lemma found_extends (query : interval) (d d' : Dataset)
    (item : string * interval) :
  extends d d' → found overlaps query d item → found overlaps query d' item.
Proof.
  intros [Hsub Hd] [Hov Hc]. split; [done|]. destruct Hc as [Hc|Hc].
  - left. by eapply lookup_weaken.
  - right. by rewrite Hd.
Qed.

Lemma scan_files_found (start end_ : datetime) (filenames : list string) :
  ∀ d item,
  item ∈ yielded (scan_files overlaps table d start end_ filenames) →
  item.1 ∈ filenames
  ∧ found overlaps (start, end_)
      (final (scan_files overlaps table d start end_ filenames)) item.
Proof.
  induction filenames as [|f fl IH]; intros d item; simpl.
  { intros H. by apply elem_of_nil in H. }
  unfold _check_file.
  destruct (retrieve_time_coverage table d f None) as [[times d1]|e] eqn:E1;
    simpl; [|intros H; by apply elem_of_nil in H].
  destruct (overlaps times (start, end_)) eqn:Eov.
  - destruct (retrieve_time_coverage table d1 f None) as [[times2 d2]|e] eqn:E2;
      simpl; [|intros H; by apply elem_of_nil in H].
    assert (times2 = times ∧ d2 = d1) as [-> ->].
    { apply retrieve_known in E1 as [Hc|(Hc & _ & Ht)];
        unfold retrieve_time_coverage in E2; rewrite Hc in E2.
      - by injection E2 as <- <-.
      - rewrite Ht in E2. by injection E2 as <- <-. }
    intros [->|Hin]%elem_of_cons.
    + split; [apply list_elem_of_here|].
      apply (found_extends _ d1); [apply scan_files_extends|].
      split; [done|]. cbn [fst snd].
      apply retrieve_known in E1 as [Hc|(_ & _ & Ht)]; auto.
    + destruct (IH d1 item Hin) as [H1 H2]. split; [by apply list_elem_of_further|done].
  - intros Hin. destruct (IH d1 item Hin) as [H1 H2].
    split; [by apply list_elem_of_further|done].
Qed.

Lemma scan_dates_found (start end_ : datetime) (path_parts : list string)
    (day_index : nat) (regex : Re.regex) (dates : list datetime) :
  ∀ d item,
  item ∈ yielded (scan_dates overlaps fs table d start end_ path_parts
                    day_index regex dates) →
  Re.matches regex item.1 = true
  ∧ found overlaps (start, end_)
      (final (scan_dates overlaps fs table d start end_ path_parts day_index
                regex dates)) item.
Proof.
  induction dates as [|date dl IH]; intros d item; simpl.
  { intros H. by apply elem_of_nil in H. }
  destruct (_get_files_path fs d date path_parts day_index) as [path|e];
    [|intros H; by apply elem_of_nil in H].
  pose proof (scan_files_found start end_ (_get_all_files fs path regex) d item)
    as Hfiles.
  set (o := scan_files _ _ _ _ _ _) in *.
  assert (Hm : item ∈ yielded o → Re.matches regex item.1 = true).
  { intros [Hin _]%Hfiles. unfold _get_all_files in Hin.
    apply list_elem_of_In, filter_In in Hin. apply Hin. }
  destruct (raised o).
  { intros Hin. split; [by apply Hm|by apply Hfiles]. }
  cbn [yielded final]. intros [Hin|Hin]%elem_of_app.
  - split; [by apply Hm|].
    eapply found_extends; [apply scan_dates_extends|by apply Hfiles].
  - by apply IH.
Qed.

Lemma in_order_yielded (sort : bool) (o : outcome) (item : string * interval) :
  item ∈ yielded (in_order sort o) → item ∈ yielded o.
Proof.
  unfold in_order. destruct sort; [|done]. destruct (raised o); simpl.
  - intros H. by apply elem_of_nil in H.
  - by rewrite sorted_by_start_perm.
Qed.

Lemma find_files_found (d : Dataset) (start end_ : datetime)
    (sort no_files_error : bool) (item : string * interval) :
  let o := find_files overlaps fs table d start end_ sort no_files_error in
  item ∈ yielded o →
  found overlaps (start, end_) (final o) item
  ∧ (if single_file d then item.1 = files d
     else ∃ regex, template_regex table (files d) = Ok regex
                   ∧ Re.matches regex item.1 = true).
Proof.
  cbv zeta. unfold find_files. destruct (single_file d).
  { destruct (isfile fs (files d)); [|intros H; by apply elem_of_nil in H].
    destruct (retrieve_time_coverage _ _ _ _) as [[tc d1]|e] eqn:E;
      [|intros H; by apply elem_of_nil in H].
    destruct (overlaps tc _) eqn:Eov.
    - assert (Hfiles : files d1 = files d).
      { pose proof (retrieve_extends _ _ _ _ _ _ E) as [_ ->]. reflexivity. }
      rewrite Hfiles. intros ->%list_elem_of_singleton.
      split; [|done]. split; [done|]. cbn [fst snd final].
      apply retrieve_known in E as [Hc|(_ & _ & Ht)]; auto.
    - destruct no_files_error; intros H; by apply elem_of_nil in H. }
  destruct (template_regex _ _) as [regex|e];
    [|intros H; by apply elem_of_nil in H].
  destruct (search_dates _ _) as [dates|e];
    [|intros H; by apply elem_of_nil in H].
  pose proof (scan_dates_found start end_ (Str.split "/" (files d))
                (find_day_index 0 (Str.split "/" (files d))) regex dates d
                item) as H.
  set (o := scan_dates _ _ _ _ _ _ _ _ _ _) in *.
  assert (Hgoal : item ∈ yielded (in_order sort o) →
            found overlaps (start, end_) (final (in_order sort o)) item
            ∧ ∃ regex0, Ok regex = Ok regex0 ∧ Re.matches regex0 item.1 = true).
  { intros Hin%in_order_yielded. destruct (H Hin) as [Hm Hf].
    rewrite in_order_final. split; [done|]. by exists regex. }
  destruct no_files_error; simpl negb; cbv iota; [|exact Hgoal].
  destruct (yielded o) eqn:Ey; [|exact Hgoal].
  destruct (raised o); intros Hin; by apply elem_of_nil in Hin.
Qed.

(** X3: every file that a search yields has a time coverage that
    overlaps the query; the time coverage is the one that the cache
    holds for the file after the search, or the explicit one of the
    dataset; and the file is the file of the single-file dataset, or one
    whose path the regular expression of the template matches. *)
Theorem find_files_sound (d : Dataset) (start end_ : datetime)
    (sort no_files_error : bool) (file : string) (times : interval) :
  let o := find_files overlaps fs table d start end_ sort no_files_error in
  (file, times) ∈ yielded o →
  overlaps times (start, end_) = true
  ∧ (time_coverages_cache (final o) !! file = Some times
     ∨ time_coverage d = Explicit times)
  ∧ (if single_file d then file = files d
     else ∃ regex, template_regex table (files d) = Ok regex
                   ∧ Re.matches regex file = true).
Proof.
  cbv zeta. intros Hin.
  destruct (find_files_found d start end_ sort no_files_error (file, times) Hin)
    as [[Hov Hc] Hf].
  split; [done|]. split; [|done].
  destruct Hc as [Hc|Hc]; [by left|right].
  destruct (find_files_extends overlaps fs table d start end_ sort
              no_files_error) as [_ Hd].
  rewrite Hd in Hc. exact Hc.
Qed.

End Sound.

Lemma find_files_sound_witness :
  let file := "/dir/2017/11/12/1230.nc" in
  let times := (mk 2017 11 12 12 30 0 0, mk 2017 11 12 12 31 0 0) in
  let start := mk 2017 11 12 12 0 0 0 in
  let end_ := mk 2017 11 12 13 0 0 0 in
  yielded (find_files overlaps_spec two_files placeholder_table minutely
             start end_ true true) = [(file, times)]
  ∧ overlaps_spec times (start, end_) = true.
Proof.
  intros file times start end_.
  assert (Hy : yielded (find_files overlaps_spec two_files placeholder_table
                          minutely start end_ true true) = [(file, times)])
    by (vm_compute; reflexivity).
  split; [exact Hy|].
  assert (Hin : (file, times)
                ∈ yielded (find_files overlaps_spec two_files placeholder_table
                             minutely start end_ true true)).
  { rewrite Hy. apply list_elem_of_here. }
  exact (proj1 (find_files_sound overlaps_spec two_files placeholder_table
                  minutely start end_ true true file times Hin)).
Defined.

Lemma retrieve_time_coverage_kept_witness :
  let file := "/dir/2017/11/12/1230.nc" in
  let times := (mk 2017 11 12 12 30 0 0, mk 2017 11 12 12 31 0 0) in
  ∃ d', retrieve_time_coverage placeholder_table minutely file None
        = Ok (times, d')
        ∧ retrieve_time_coverage ∅ d' file (Some Content) = Ok (times, d').
Proof.
  intros file times.
  destruct (retrieve_time_coverage placeholder_table minutely file None)
    as [[t d']|e] eqn:E; [|vm_compute in E; discriminate].
  assert (Ht : t = times).
  { vm_compute in E. injection E as <- _. reflexivity. }
  subst t. exists d'. split; [reflexivity|].
  apply (retrieve_time_coverage_kept placeholder_table minutely file None times
           d' E).
  intros _ t. discriminate.
Defined.

(** ** The end of a time coverage without its date *)

Section EndWithoutDate.

(** The placeholder that stores a key. *)
Lemma written_key_cases (prefix : string) (exclude : option string)
    (p k : string) :
  written_key prefix exclude p = Some k →
  p = prefix +:+ k
  ∨ (p = prefix +:+ "year2" ∧ k = "year")
  ∨ (p = prefix +:+ "millisecond" ∧ k = prefix +:+ "microsecond").
Proof.
  unfold written_key, written.
  destruct (String.eqb p (prefix +:+ "year2")) eqn:E1.
  { apply String.eqb_eq in E1. intros [= <-]. auto. }
  destruct (String.eqb p (prefix +:+ "millisecond")) eqn:E2.
  { apply String.eqb_eq in E2. intros [= <-]. auto. }
  destruct (_ && Str.prefix prefix p) eqn:E3; [|discriminate].
  simpl. intros [= H]. left.
  apply andb_true_iff in E3 as [_ E3]. by apply prefix_drop.
Qed.

Lemma of_kwargs_fields (kw : gmap string Z) (t : datetime) :
  of_kwargs kw = Ok t →
  valid t = true
  ∧ kw !! "year" = Some (year t) ∧ kw !! "month" = Some (month t)
  ∧ kw !! "day" = Some (day t).
Proof.
  unfold of_kwargs. destruct (negb _); [discriminate|].
  destruct (kw !! "year"); [|discriminate].
  destruct (kw !! "month"); [|discriminate].
  destruct (kw !! "day"); [|discriminate].
  destruct (valid _) eqn:Ev; [|discriminate]. intros [= <-]. done.
Qed.

Lemma resolution_bounds (kw : gmap string Z) (dt : timedelta) :
  _get_time_resolution kw = Some dt → 0 < dt <= days 1.
Proof.
  unfold _get_time_resolution, milliseconds, seconds, minutes, hours, days.
  repeat case_bool_decide; intros [= <-]; lia.
Qed.

(** Without a placeholder for the date of the end, the end pass leaves
    year, month and day as the start pass gave them. *)
Lemma end_pass_keeps_date (placeholders values : list string)
    (start_args args : gmap string Z) :
  Forall (fun p => p ∉ end_date_placeholders) placeholders →
  _create_date_from_placeholders placeholders values (Some "end_") None
    (Some start_args) = Ok args →
  args !! "year" = start_args !! "year"
  ∧ args !! "month" = start_args !! "month"
  ∧ args !! "day" = start_args !! "day".
Proof.
  intros Hps H. unfold _create_date_from_placeholders in H.
  cbv [default from_option id] in H.
  destruct (create_date_loop _ _ _ _ _ _) as [m|e] eqn:Hloop; [|discriminate].
  simpl in H. rewrite bool_decide_false in H.
  2:{ intros Hin. rewrite Forall_forall in Hps. apply (Hps _ Hin).
      unfold end_date_placeholders. set_solver. }
  injection H as <-.
  assert (Hk : ∀ k, k ∈ ["year"; "month"; "day"] →
               m !! k = start_args !! k).
  { intros k Hkin.
    apply (loop_untouched "end_" None k values placeholders) with (i := 0%nat);
      [|exact Hloop].
    eapply Forall_impl; [exact Hps|]. intros p Hp Hw.
    apply written_key_cases in Hw as [->|[[-> _]|[_ ->]]].
    - apply Hp. unfold end_date_placeholders.
      rewrite !elem_of_cons in Hkin.
      destruct Hkin as [->|[->|[->|[]%elem_of_nil]]];
        apply (bool_decide_unpack _); by vm_compute.
    - apply Hp. apply (bool_decide_unpack _). by vm_compute.
    - rewrite !elem_of_cons in Hkin.
      destruct Hkin as [?|[?|[?|[]%elem_of_nil]]]; discriminate. }
  split; [|split]; apply Hk; set_solver.
Qed.

Lemma same_date_stamp (a b : datetime) :
  valid a = true → valid b = true →
  year a = year b → month a = month b → day a = day b →
  - days 1 < stamp a - stamp b < days 1.
Proof.
  intros (_ & _ & Ha)%valid_spec (_ & _ & Hb)%valid_spec Hy Hm Hd.
  unfold stamp, toordinal. rewrite Hy, Hm, Hd.
  pose proof (time_of_day_bounds a Ha). pose proof (time_of_day_bounds b Hb).
  lia.
Qed.

(** X5: when the template has no placeholder for the date of the end
    (none of [end_year], [end_year2], [end_month], [end_day],
    [end_doy]), every time coverage that is retrieved from a file name
    ends at or after its start, and at most one day after it. *)
Theorem end_without_date_start_le_end (table : gmap string string)
    (d : Dataset) (filename : string) (start end_ : datetime) :
  Forall (fun p => p ∉ end_date_placeholders) (files_placeholders d) →
  coverage_from_filename table d filename = Ok (start, end_) →
  leb start end_ = true ∧ 0 <= stamp end_ - stamp start <= days 1.
Proof.
  intros Hps. unfold coverage_from_filename.
  destruct (single_file d); [discriminate|].
  destruct (template_regex _ _) as [regex|]; [|discriminate]. simpl.
  destruct (lookup_or ValueError _) as [values|]; [|discriminate]. simpl.
  destruct (_create_date_from_placeholders _ _ None _ _) as [sa|];
    [|discriminate].
  simpl.
  destruct (_create_date_from_placeholders _ _ (Some "end_") _ _) as [ea|] eqn:E;
    [|discriminate].
  simpl.
  destruct (end_pass_keeps_date _ _ _ _ Hps E) as (Hy & Hm & Hd).
  destruct (of_kwargs sa) as [s|] eqn:Es; [|discriminate]. simpl.
  destruct (of_kwargs ea) as [e0|] eqn:Ee; [|discriminate]. simpl.
  apply of_kwargs_fields in Es as (Hvs & Hys & Hms & Hds).
  apply of_kwargs_fields in Ee as (Hve & Hye & Hme & Hde).
  assert (Hsame : - days 1 < stamp e0 - stamp s < days 1).
  { apply same_date_stamp; [done|done|congruence..]. }
  assert (Hfin : ∀ e1, valid e1 = true → stamp s - days 1 < stamp e1 →
            stamp e1 - stamp s <= days 1 →
            (e1' ← (if ltb e1 s then add e1 (days 1) else Ok e1); Ok (s, e1'))
            = Ok (start, end_) →
            leb start end_ = true ∧ 0 <= stamp end_ - stamp start <= days 1).
  { intros e1 Hv1 Hlo Hhi. destruct (ltb e1 s) eqn:El.
    - apply ltb_stamp in El; [|done..].
      destruct (add e1 (days 1)) as [e2|] eqn:E2; [|discriminate].
      simpl. intros [= <- <-].
      pose proof Hv1 as (_ & Hd1 & Ht1)%valid_spec.
      destruct (add_stamp _ _ _ Hd1 Ht1 E2) as [Hst Hv2].
      rewrite leb_stamp by done. lia.
    - simpl. intros [= <- <-].
      assert (¬ stamp e1 < stamp s).
      { intros Hlt. apply ltb_stamp in Hlt; [|done..]. congruence. }
      rewrite leb_stamp by done. lia. }
  destruct (continuous d && eqb s e0) eqn:Ec.
  - apply andb_true_iff in Ec as [_ Heq]. unfold eqb in Heq.
    apply bool_decide_eq_true in Heq as <-.
    destruct (_get_time_resolution sa) as [dt|] eqn:Er; [|discriminate].
    apply resolution_bounds in Er. cbn [add_opt].
    destruct (add s dt) as [e1|] eqn:E1; [|discriminate]. simpl.
    pose proof Hvs as (_ & Hd1 & Ht1)%valid_spec.
    destruct (add_stamp _ _ _ Hd1 Ht1 E1) as [Hst Hv1].
    apply Hfin; [done|lia|lia].
  - simpl. apply Hfin; [done|lia|lia].
Qed.

End EndWithoutDate.

Lemma end_without_date_start_le_end_witness :
  coverage_from_filename placeholder_table hourly "2017/11/12/22-02.nc"
  = Ok (mk 2017 11 12 22 0 0 0, mk 2017 11 13 2 0 0 0)
  ∧ leb (mk 2017 11 12 22 0 0 0) (mk 2017 11 13 2 0 0 0) = true.
Proof.
  assert (H : coverage_from_filename placeholder_table hourly
                "2017/11/12/22-02.nc"
              = Ok (mk 2017 11 12 22 0 0 0, mk 2017 11 13 2 0 0 0))
    by (vm_compute; reflexivity).
  assert (Hps : Forall (fun p => p ∉ end_date_placeholders)
                       (files_placeholders hourly)).
  { apply (bool_decide_unpack _). vm_compute. reflexivity. }
  split; [exact H|].
  exact (proj1 (end_without_date_start_le_end placeholder_table hourly
                  "2017/11/12/22-02.nc" _ _ Hps H)).
Defined.

(** ** Templates without a day, in a search *)

Section WithoutDay.

Lemma rev_app_append (cur x : string) :
  String.rev_app cur x = String.rev_app cur "" +:+ x.
Proof.
  revert x. induction cur as [|c cur IH]; intros x; [reflexivity|].
  simpl. rewrite (IH (String c x)), (IH (String c "")).
  by rewrite str_app_assoc.
Qed.

(** A part of a split string lies in the string. *)
Lemma split_go_part (sep : ascii) (s : string) :
  ∀ cur part, part ∈ Str.split_go sep cur s →
  ∃ a b, String.rev_app cur s = a +:+ part +:+ b.
Proof.
  induction s as [|c s IH]; intros cur part; simpl.
  - intros ->%list_elem_of_singleton. exists "", "".
    simpl. by rewrite str_app_empty_r.
  - destruct (Ascii.eqb c sep).
    + intros [->|Hin]%elem_of_cons.
      * exists "", (String c s). simpl. apply rev_app_append.
      * destruct (IH "" part Hin) as (a & b & Hs). simpl in Hs.
        exists (String.rev_app cur "" +:+ String c a), b.
        rewrite rev_app_append, Hs, str_app_assoc. reflexivity.
    + intros Hin. destruct (IH (String c cur) part Hin) as (a & b & Hs).
      exists a, b. exact Hs.
Qed.

Lemma prefix_app_r (sub s b : string) :
  Str.prefix sub s = true → Str.prefix sub (s +:+ b) = true.
Proof.
  revert s. induction sub as [|x sub IH]; intros s; [done|].
  destruct s as [|y s]; [done|]. simpl.
  intros [-> H]%andb_true_iff. simpl. by apply IH.
Qed.

Lemma index_unfold (sub s : string) :
  Str.index sub s
  = if Str.prefix sub s then Some 0%nat
    else match s with
         | EmptyString => None
         | String _ s' => S <$> Str.index sub s'
         end.
Proof. by destruct s. Qed.

Lemma contains_app_r (sub s b : string) :
  Str.contains sub s = true → Str.contains sub (s +:+ b) = true.
Proof.
  unfold Str.contains. induction s as [|c s IH];
    rewrite (index_unfold sub), (index_unfold sub (_ +:+ b)).
  - destruct (Str.prefix sub "") eqn:E; [|done]. intros _.
    by rewrite (prefix_app_r _ _ b E).
  - destruct (Str.prefix sub (String c s)) eqn:E.
    + intros _. by rewrite (prefix_app_r _ _ b E).
    + simpl String.append.
      destruct (Str.prefix sub (String c (s +:+ b))); [done|].
      destruct (Str.index sub s); [|done]. intros _.
      specialize (IH eq_refl). by destruct (Str.index sub (s +:+ b)).
Qed.

Lemma contains_app_l (sub a s : string) :
  Str.contains sub s = true → Str.contains sub (a +:+ s) = true.
Proof.
  unfold Str.contains. intros H. induction a as [|c a IH]; [done|].
  simpl String.append. rewrite index_unfold.
  destruct (Str.prefix sub (String c (a +:+ s))); [done|].
  by destruct (Str.index sub (a +:+ s)).
Qed.

Lemma split_contains (sub s part : string) :
  part ∈ Str.split "/" s → Str.contains sub part = true →
  Str.contains sub s = true.
Proof.
  intros (a & b & Hs)%split_go_part Hc. simpl in Hs. rewrite Hs.
  by apply contains_app_l, contains_app_r.
Qed.

Lemma find_day_index_none (parts : list string) :
  Forall (fun part => Str.contains "{day}" part = false
                      ∧ Str.contains "{doy}" part = false) parts →
  ∀ index, find_day_index index parts = 0%nat.
Proof.
  induction 1 as [|part parts [H1 H2] _ IH]; intros index; simpl; [done|].
  rewrite H1, H2. apply IH.
Qed.

Lemma split_go_nonempty (sep : ascii) (s cur : string) :
  ∃ part parts, Str.split_go sep cur s = part :: parts.
Proof.
  revert cur. induction s as [|c s IH]; intros cur; simpl; [by eexists _, _|].
  destruct (Ascii.eqb c sep); [by eexists _, _|]. apply IH.
Qed.

Variable fs : filesystem.

(** Without [{day}] and [{doy}] in the template there is no path of a
    day. *)
Lemma get_files_path_without_day (d : Dataset) (date : datetime) :
  Str.contains "{day}" (files d) = false →
  Str.contains "{doy}" (files d) = false →
  _get_files_path fs d date (Str.split "/" (files d))
    (find_day_index 0 (Str.split "/" (files d)))
  = Raise ValueError.
Proof.
  intros Hday Hdoy.
  assert (Hparts : Forall (fun part => Str.contains "{day}" part = false
                                       ∧ Str.contains "{doy}" part = false)
                          (Str.split "/" (files d))).
  { apply Forall_forall. intros part Hin. split; apply not_true_is_false.
    - intros H. rewrite (split_contains _ _ _ Hin H) in Hday. discriminate.
    - intros H. rewrite (split_contains _ _ _ Hin H) in Hdoy. discriminate. }
  rewrite (find_day_index_none _ Hparts).
  destruct (split_go_nonempty "/" (files d) "") as (part & parts & Hs).
  unfold Str.split in *. rewrite Hs in *.
  apply Forall_cons in Hparts as [[H1 H2] _].
  unfold _get_files_path.
  change (Str.join "/" (take (0 + 1) (part :: parts))) with part.
  unfold Str.contains in H1, H2.
  destruct (Str.index "{day}" part); [discriminate|].
  destruct (Str.index "{doy}" part); [discriminate|]. reflexivity.
Qed.

(** The day before the start is the first that a search looks at. *)
Lemma search_dates_first (start end_ : datetime) :
  valid start = true → 2 <= year start →
  ∃ first, add (midnight (date_of start)) (days (-1)) = Ok first
           ∧ first = midnight (date_of first)
           ∧ date_ok (date_of first)
           ∧ toordinal first = toordinal start - 1.
Proof.
  intros (Hy & Hd & Ht)%valid_spec Hyear. unfold add.
  pose proof (ord_shift_days (-1) (date_of start) Hd) as [Ho Hok].
  assert (Htod : time_of_day (midnight (date_of start)) = 0) by reflexivity.
  rewrite Htod.
  change ((0 + days (-1)) / days 1) with (-1).
  change ((0 + days (-1)) mod days 1) with 0.
  change (year (midnight (date_of start)), month (midnight (date_of start)),
          day (midnight (date_of start))) with (date_of start).
  destruct (shift_days (-1) (date_of start)) as [[y m] dd] eqn:Es.
  assert (Hy1 : 1 <= y <= 9999).
  { unfold shift_days in Es. simpl in Es. unfold date_of in Es.
    repeat match type of Es with
           | context [if ?b then _ else _] => destruct b
           end; injection Es as <- <- <-; lia. }
  rewrite (proj2 (Z.ltb_ge y MINYEAR)) by (unfold MINYEAR; lia).
  rewrite (proj2 (Z.ltb_ge MAXYEAR y)) by (unfold MAXYEAR; lia).
  eexists. split; [reflexivity|]. split; [reflexivity|].
  split; [exact Hok|]. exact Ho.
Qed.

Lemma date_range_length (first last : datetime) :
  length (date_range first last)
  = Z.to_nat (toordinal last - toordinal first + 1).
Proof. unfold date_range. by rewrite length_fmap, length_seq. Qed.

Lemma search_dates_nonempty (start end_ : datetime) :
  valid start = true → valid end_ = true → leb start end_ = true →
  2 <= year start →
  ∃ date dates, search_dates start end_ = Ok (date :: dates).
Proof.
  intros Hvs Hve Hle Hyear.
  destruct (search_dates_first start end_ Hvs Hyear)
    as (first & Hfirst & _ & _ & Hord).
  unfold search_dates. rewrite Hfirst. simpl.
  pose proof (date_range_length first end_) as Hlen.
  assert (Hlt : toordinal start <= toordinal end_).
  { apply leb_stamp in Hle; [|done..].
    pose proof Hvs as (_ & _ & Hts)%valid_spec.
    pose proof Hve as (_ & _ & Hte)%valid_spec.
    pose proof (time_of_day_bounds _ Hts). pose proof (time_of_day_bounds _ Hte).
    unfold stamp, days in *. nia. }
  destruct (date_range first end_) as [|date [|date2 dates]] eqn:Er.
  - simpl in Hlen. lia.
  - simpl. by eexists _, _.
  - destruct (_ && _); [|by eexists _, _].
    simpl. destruct dates; by eexists _, _.
Qed.

Variable overlaps : interval → interval → bool.
Variable table : gmap string string.

(** X8: a dataset of several files whose template has neither [{day}]
    nor [{doy}] (a wildcard alone, or year and month) cannot be
    searched: every search from a time to a later one (of the years
    that [pd.date_range] takes) raises a [ValueError], the minimum of no
    day index. *)
Theorem find_files_without_day (d : Dataset) (start end_ : datetime)
    (sort no_files_error : bool) :
  single_file d = false →
  Str.contains "{day}" (files d) = false →
  Str.contains "{doy}" (files d) = false →
  is_ok (template_regex table (files d)) = true →
  valid start = true → valid end_ = true → leb start end_ = true →
  1678 <= year start → year end_ <= 2261 →
  find_files overlaps fs table d start end_ sort no_files_error
  = stop ValueError d.
Proof.
  intros Hsingle Hday Hdoy Hregex Hvs Hve Hle Hys Hye.
  unfold find_files. rewrite Hsingle.
  destruct (template_regex table (files d)) as [regex|]; [|discriminate].
  destruct (search_dates_nonempty start end_ Hvs Hve Hle)
    as (date & dates & ->); [lia|].
  cbn [scan_dates]. rewrite (get_files_path_without_day d date Hday Hdoy).
  by destruct no_files_error, sort.
Qed.

End WithoutDay.

Lemma find_files_without_day_witness :
  find_files overlaps_spec two_files placeholder_table wildcard
    (mk 2017 11 12 0 0 0 0) (mk 2017 11 13 0 0 0 0) true false
  = stop ValueError wildcard.
Proof.
  apply find_files_without_day; try (vm_compute; reflexivity).
  - simpl. lia.
  - simpl. lia.
Defined.

(** ** The days of a search *)

Section SearchDates.

Lemma date_range_ordinals (first last : datetime) :
  date_ok (date_of first) →
  toordinal <$> date_range first last
  = zrange (toordinal first)
           (Z.to_nat (toordinal last - toordinal first + 1)).
Proof.
  intros Hd. unfold date_range, zrange. rewrite <- list_fmap_compose.
  apply list_fmap_ext. intros _ i _. simpl.
  destruct (ord_shift_days (Z.of_nat i) (date_of first) Hd) as [Ho _].
  destruct (shift_days (Z.of_nat i) (date_of first)) as [[y m] dd].
  exact Ho.
Qed.

Lemma date_range_midnights (first last : datetime) :
  Forall (fun date => date = midnight (date_of date)) (date_range first last).
Proof.
  unfold date_range. apply Forall_fmap, Forall_forall. intros i _. simpl.
  by destruct (shift_days (Z.of_nat i) (date_of first)) as [[y m] dd].
Qed.

Lemma date_range_last (first end_ : datetime) :
  date_ok (date_of first) → date_ok (date_of end_) →
  toordinal first <= toordinal end_ →
  last (date_range first end_) = Some (midnight (date_of end_)).
Proof.
  intros Hf Hl Hle. unfold date_range.
  assert (Hn : Z.to_nat (toordinal end_ - toordinal first + 1)
               = S (Z.to_nat (toordinal end_ - toordinal first))) by lia.
  rewrite Hn, seq_S, fmap_app, list_fmap_singleton, last_snoc.
  destruct (ord_shift_days (Z.of_nat (0 + Z.to_nat (toordinal end_
                                                    - toordinal first)))
              (date_of first) Hf) as [Ho Hok].
  generalize dependent (shift_days (Z.of_nat (0 + Z.to_nat (toordinal end_
                                                  - toordinal first)))
                          (date_of first)).
  intros date Ho Hok.
  assert (Hd : date = date_of end_).
  { apply ord_inj; [done|done|]. rewrite Ho.
    change (ord (date_of first)) with (toordinal first).
    change (ord (date_of end_)) with (toordinal end_). lia. }
  by rewrite Hd.
Qed.

Lemma removelast_zrange (lo : Z) (n : nat) :
  removelast (zrange lo n) = zrange lo (n - 1).
Proof.
  rewrite removelast_firstn_len. unfold zrange.
  rewrite length_fmap, length_seq, <- fmap_take, take_seq.
  do 2 f_equal. lia.
Qed.

(** X9: a search looks at one day after the other, from the day before
    the start to the day of the end; the day of the end is left out when
    the end is its midnight.  The years are those that [pd.date_range]
    takes. *)
Theorem search_dates_days (start end_ : datetime) :
  valid start = true → valid end_ = true →
  1678 <= year start <= 2261 → 1678 <= year end_ <= 2261 →
  ∃ dates, search_dates start end_ = Ok dates
           ∧ toordinal <$> dates
             = zrange (toordinal start - 1) (searched_days start end_)
           ∧ Forall (fun date => date = midnight (date_of date)) dates.
Proof.
  intros Hvs Hve Hys Hye.
  destruct (search_dates_first start end_ Hvs) as (first & Hfirst & _ & Hdf & Hord);
    [lia|].
  pose proof Hve as (_ & Hde & _)%valid_spec.
  unfold search_dates. rewrite Hfirst. simpl.
  pose proof (date_range_ordinals first end_ Hdf) as Hr.
  pose proof (date_range_midnights first end_) as Hm.
  pose proof (date_range_length first end_) as Hlen.
  rewrite Hord in Hr, Hlen.
  replace (toordinal end_ - (toordinal start - 1) + 1)
    with (toordinal end_ - toordinal start + 2) in Hr, Hlen by lia.
  unfold searched_days.
  set (n := Z.to_nat (toordinal end_ - toordinal start + 2)) in *.
  eexists. split; [reflexivity|]. rewrite Hlen.
  destruct (1 <? n)%nat eqn:En; cbn [andb]; [|done].
  apply Nat.ltb_lt in En.
  assert (Hlast : last (date_range first end_)
                  = Some (midnight (date_of end_))).
  { apply date_range_last; [done|done|lia]. }
  rewrite Hlast.
  assert (Heq : bool_decide (Some (midnight (date_of end_)) = Some end_)
                = bool_decide (end_ = midnight (date_of end_))).
  { apply bool_decide_ext. split; [by intros [= <-]|by intros <-]. }
  rewrite Heq. destruct (bool_decide (end_ = midnight (date_of end_)));
    cbv iota.
  - split.
    + rewrite <- removelast_zrange, <- Hr. clear.
      generalize (date_range first end_). intros l.
      induction l as [|a [|b l] IH]; [done|done|].
      change (toordinal <$> removelast (a :: b :: l))
        with (toordinal a :: (toordinal <$> removelast (b :: l))).
      rewrite IH. reflexivity.
    + rewrite removelast_firstn_len. by apply Forall_take.
  - done.
Qed.

End SearchDates.

(** ** The day of the year *)

Section DayOfYear.

(** The ordinals of the days of a year lie after the days before the
    year and not after the days before the next. *)
Lemma ord_in_year (date : Z * Z * Z) :
  date_ok date →
  days_before_year date.1.1 < ord date
  <= days_before_year (date.1.1 + 1).
Proof.
  destruct date as [[y m] d]. intros [Hm Hd]. simpl in *.
  unfold ord, ymd2ord. simpl.
  pose proof (days_before_month_bounds y m Hm) as [H1 H2].
  rewrite days_before_year_succ. lia.
Qed.

Lemma year_of_ordinal (date : Z * Z * Z) (y : Z) :
  date_ok date →
  days_before_year y < ord date <= days_before_year (y + 1) →
  date.1.1 = y.
Proof.
  intros Hd Ho. pose proof (ord_in_year date Hd) as Hy.
  destruct (Z.lt_trichotomy date.1.1 y) as [Hlt|[Heq|Hgt]]; [|done|].
  - pose proof (days_before_year_mono (date.1.1 + 1) y). lia.
  - pose proof (days_before_year_mono (y + 1) date.1.1). lia.
Qed.

Lemma days_before_year_step (y : Z) :
  days_before_year y + 365 <= days_before_year (y + 1)
  <= days_before_year y + 366.
Proof. rewrite days_before_year_succ. destruct (is_leap y); lia. Qed.

(** Adding whole days to a midnight. *)
Lemma add_midnight_days (date : Z * Z * Z) (n : Z) :
  1 <= (shift_days n date).1.1 <= 9999 →
  add (midnight date) (days n) = Ok (midnight (shift_days n date)).
Proof.
  intros Hy. unfold add.
  assert (Htod : time_of_day (midnight date) = 0) by (by destruct date as [[??]?]).
  rewrite Htod.
  assert (Hq : (0 + days n) / days 1 = n).
  { unfold days. rewrite Z.add_0_l, Z.mul_1_l. apply Z.div_mul. lia. }
  assert (Hr : (0 + days n) mod days 1 = 0).
  { unfold days. rewrite Z.add_0_l, Z.mul_1_l. apply Z.mod_mul. lia. }
  rewrite Hq, Hr.
  assert (Hd : (year (midnight date), month (midnight date),
                day (midnight date)) = date) by (by destruct date as [[??]?]).
  rewrite Hd. destruct (shift_days n date) as [[y m] d]. simpl in Hy.
  rewrite (proj2 (Z.ltb_ge y MINYEAR)) by (unfold MINYEAR; lia).
  rewrite (proj2 (Z.ltb_ge MAXYEAR y)) by (unfold MAXYEAR; lia).
  reflexivity.
Qed.

(** X6: year and day of the year.  The day of the year [v] is turned
    into the month and the day of the date [v - 1] days after the first
    of January, and the year stays the one of the file name.  For [v]
    from 1 to the number of days of the year this is the date of that
    day; a [v] out of this range is not refused: the date that was
    computed lies in another year, and month and day are taken from
    it. *)
Theorem doy_conversion (y v y' m d : Z) :
  2 <= y <= 9996 → 0 <= v <= 999 →
  shift_days (v - 1) (y, 1, 1) = (y', m, d) →
  ∃ args,
    _create_date_from_placeholders ["year"; "doy"]
      [Num.zpad 4 y; Num.zpad 3 v] None (Some "end_") None = Ok args
    ∧ args !! "year" = Some y ∧ args !! "month" = Some m
    ∧ args !! "day" = Some d ∧ args !! "doy" = None
    ∧ ymd2ord y' m d = ymd2ord y 1 1 + (v - 1)
    ∧ (y' = y ↔ 1 <= v <= days_in_year y).
Proof.
  intros Hy Hv Hs.
  assert (Hok : date_ok (y, 1, 1)).
  { unfold date_ok. simpl. unfold days_in_month. simpl. lia. }
  destruct (ord_shift_days (v - 1) (y, 1, 1) Hok) as [Ho Hd].
  rewrite Hs in Ho, Hd.
  assert (Hord : ord (y', m, d) = days_before_year y + v).
  { rewrite Ho. unfold ord, ymd2ord, days_before_month. simpl. lia. }
  pose proof (ord_in_year _ Hd) as Hin. simpl in Hin.
  pose proof (days_before_year_step (y - 1)) as S0.
  replace (y - 1 + 1) with y in S0 by lia.
  pose proof (days_before_year_step y) as S1.
  pose proof (days_before_year_step (y + 1)) as S2.
  pose proof (days_before_year_step (y + 2)) as S3.
  replace (y + 1 + 1) with (y + 2) in S2 by lia.
  replace (y + 2 + 1) with (y + 3) in S3 by lia.
  assert (Hy' : y - 1 <= y' <= y + 2).
  { split.
    - destruct (Z_lt_le_dec y' (y - 1)) as [Hlt|]; [|done].
      pose proof (days_before_year_mono (y' + 1) (y - 1)). lia.
    - destruct (Z_lt_le_dec (y + 2) y') as [Hlt|]; [|done].
      pose proof (days_before_year_mono (y + 3) y'). lia. }
  assert (E1 : Num.py_int (Num.zpad 4 y) = Ok y)
    by (apply py_int_zpad; simpl; lia).
  assert (E2 : Num.py_int (Num.zpad 3 v) = Ok v)
    by (apply py_int_zpad; simpl; lia).
  assert (Eadd : add (mk y 1 1 0 0 0 0) (days (v - 1))
                 = Ok (mk y' m d 0 0 0 0)).
  { change (mk y 1 1 0 0 0 0) with (midnight (y, 1, 1)).
    rewrite add_midnight_days; rewrite Hs; [reflexivity|simpl; lia]. }
  unfold _create_date_from_placeholders. cbv [default from_option id].
  rewrite loop_cons. cbn [lookup list_lookup lookup_or mbind result_bind].
  rewrite E1. cbn [mbind result_bind].
  change (written "" (Some "end_") "year" y) with (Some ("year", y)).
  cbv iota beta.
  rewrite loop_cons. cbn [lookup list_lookup lookup_or mbind result_bind].
  rewrite E2. cbn [mbind result_bind create_date_loop].
  change (written "" (Some "end_") "doy" v) with (Some ("doy", v)).
  cbv iota beta.
  rewrite bool_decide_true by apply list_elem_of_further, list_elem_of_here.
  rewrite (lookup_insert_ne _ "doy" "year"), !lookup_insert_eq by done.
  cbn [lookup_or mbind result_bind].
  rewrite of_kwargs_first_day by lia. cbn [lookup_or mbind result_bind].
  rewrite Eadd. cbn [mbind result_bind month day].
  eexists. split; [reflexivity|].
  split.
  { rewrite lookup_delete_ne, !lookup_insert_ne, lookup_insert_eq by done.
    reflexivity. }
  split.
  { rewrite lookup_delete_ne, lookup_insert_ne, lookup_insert_eq by done.
    reflexivity. }
  split.
  { rewrite lookup_delete_ne, lookup_insert_eq by done. reflexivity. }
  split; [apply lookup_delete_eq|].
  split; [exact Ho|].
  unfold days_in_year. split.
  - intros ->. rewrite days_before_year_succ in Hin.
    destruct (is_leap y); lia.
  - intros Hrange.
    apply (year_of_ordinal (y', m, d) y Hd). rewrite Hord.
    rewrite days_before_year_succ. destruct (is_leap y); lia.
Qed.

End DayOfYear.

Lemma doy_conversion_witness :
  ∃ args,
    _create_date_from_placeholders ["year"; "doy"] ["2017"; "000"] None
      (Some "end_") None = Ok args
    ∧ args !! "year" = Some 2017 ∧ args !! "month" = Some 12
    ∧ args !! "day" = Some 31.
Proof.
  destruct (doy_conversion 2017 0 2016 12 31) as (args & H & Hy & Hm & Hd & _);
    [lia|lia|reflexivity|].
  exists args. split; [exact H|]. by split; [|split].
Defined.

(** ** The name of the dataset in the template *)

Section NameInTemplate.

Lemma format_render_app (kw : gmap string string) (val : start_field → string)
    (ps : list piece) (rest : string) :
  forallb piece_ok ps = true →
  (∀ f, f ∈ fields_of ps → kw !! field_name f = Some (val f)) →
  Format.go kw false None (render ps +:+ rest)
  = (r ← Format.go kw false None rest;
     Ok (Str.concat ((fun p => match p with
                               | Text c => String c EmptyString
                               | Star => "*"
                               | Field f => val f
                               end) <$> ps) +:+ r)).
Proof.
  induction ps as [|p ps IH]; intros Hok Hkw.
  { simpl. by destruct (Format.go kw false None rest). }
  simpl in Hok. apply andb_true_iff in Hok as [Hp Hok].
  destruct p as [c| |f].
  - simpl in Hp.
    assert (Hc : Ascii.eqb c "{" = false ∧ Ascii.eqb c "}" = false).
    { unfold plain, Re.is_meta in Hp. simpl in Hp.
      destruct (Ascii.eqb c "{") eqn:E1, (Ascii.eqb c "}") eqn:E2; try done;
        apply Ascii.eqb_eq in E1 || apply Ascii.eqb_eq in E2; subst; done. }
    destruct Hc as [H1 H2]. simpl. rewrite H1, H2.
    rewrite IH; [|done|exact Hkw].
    by destruct (Format.go kw false None rest).
  - simpl. rewrite IH; [|done|exact Hkw].
    by destruct (Format.go kw false None rest).
  - assert (Hf : kw !! field_name f = Some (val f)).
    { apply Hkw. simpl. apply list_elem_of_here. }
    rewrite fmap_cons. simpl Str.concat.
    specialize (IH Hok (fun g Hg => Hkw g (list_elem_of_further _ _ _ Hg))).
    apply field_name_lookup in Hf.
    destruct f; simpl; simpl in Hf;
      match goal with
      | |- context [String.rev ?s] =>
          let r := eval vm_compute in (String.rev s) in
          change (String.rev s) with r
      end; rewrite Hf; simpl; rewrite IH;
      destruct (Format.go kw false None rest); simpl;
      by rewrite ?str_app_assoc.
Qed.

Lemma find_fields_render_app (ps : list piece) (rest : string) :
  forallb piece_ok ps = true →
  Re.find_fields_go None (render ps +:+ rest)
  = (field_name <$> fields_of ps) ++ Re.find_fields_go None rest.
Proof.
  induction ps as [|p ps IH]; intros Hok; [done|].
  simpl in Hok. apply andb_true_iff in Hok as [Hp Hok].
  destruct p as [c| |f].
  - simpl in Hp.
    assert (Hc : Ascii.eqb c "{" = false).
    { unfold plain, Re.is_meta in Hp. simpl in Hp.
      destruct (Ascii.eqb c "{") eqn:E1; [|done].
      apply Ascii.eqb_eq in E1; subst; done. }
    simpl. rewrite Hc. by apply IH.
  - simpl. by apply IH.
  - destruct f; simpl; f_equal; by apply IH.
Qed.

Lemma concat_app (l1 l2 : list string) :
  Str.concat (l1 ++ l2) = Str.concat l1 +:+ Str.concat l2.
Proof.
  induction l1 as [|s l1 IH]; simpl; [done|]. by rewrite IH, str_app_assoc.
Qed.

Lemma regex_text_app (ps1 ps2 : list piece) :
  regex_text (ps1 ++ ps2) = regex_text ps1 +:+ regex_text ps2.
Proof. unfold regex_text. by rewrite fmap_app, concat_app. Qed.

Lemma regex_text_texts (s : string) : regex_text (texts s) = s.
Proof.
  induction s as [|c s IH]; [done|].
  cbn [texts]. rewrite regex_text_cons. by rewrite IH.
Qed.

Lemma texts_ok (s : string) :
  Str.all plain s = true → forallb piece_ok (texts s) = true.
Proof.
  induction s as [|c s IH]; [done|]. simpl.
  intros [-> H]%andb_true_iff. by apply IH.
Qed.

Lemma fields_of_app (ps1 ps2 : list piece) :
  fields_of (ps1 ++ ps2) = fields_of ps1 ++ fields_of ps2.
Proof.
  induction ps1 as [|[c| |f] ps1 IH]; simpl; [done|done|done|by rewrite IH].
Qed.

Lemma fields_of_texts (s : string) : fields_of (texts s) = [].
Proof. induction s as [|c s IH]; [done|exact IH]. Qed.

(** The regular expression and the placeholders of a template with
    [{name}] in it. *)
Lemma template_regex_named (table : gmap string string) (nm : string)
    (ps1 ps2 : list piece) :
  standard_table table → table !! "name" = Some nm →
  Str.all plain nm = true →
  forallb piece_ok ps1 = true → forallb piece_ok ps2 = true →
  template_regex table (render ps1 +:+ "{name}" +:+ render ps2)
  = Ok (regex_of (ps1 ++ texts nm ++ ps2)).
Proof.
  intros Ht Hnm Hplain H1 H2. unfold template_regex, Format.format.
  rewrite (format_render_app table field_regex ps1 _ H1)
    by (intros f _; by apply standard_table_lookup).
  assert (Hgo : Format.go table false None ("{name}" +:+ render ps2)
                = Ok (nm +:+ regex_text ps2)).
  { simpl. unfold Format.field. simpl.
    change (String.rev "eman") with "name". rewrite Hnm. simpl.
    change (Format.go table false None (render ps2))
      with (Format.format (render ps2) table).
    rewrite (format_render table field_regex ps2 H2)
      by (intros f _; by apply standard_table_lookup).
    reflexivity. }
  rewrite Hgo. cbn [mbind result_bind].
  fold (regex_text ps1).
  rewrite <- (regex_text_texts nm) at 1.
  rewrite <- !regex_text_app.
  apply compile_regex_text.
  rewrite !forallb_app, H1, H2, texts_ok by done. reflexivity.
Qed.

Lemma find_fields_named (ps1 ps2 : list piece) :
  forallb piece_ok ps1 = true → forallb piece_ok ps2 = true →
  Re.find_fields (render ps1 +:+ "{name}" +:+ render ps2)
  = (field_name <$> fields_of ps1) ++ "name" :: (field_name <$> fields_of ps2).
Proof.
  intros H1 H2. unfold Re.find_fields.
  rewrite find_fields_render_app by done. f_equal.
  simpl. f_equal. by apply find_fields_render.
Qed.

(** With two groups or more, the values are as many as the groups. *)
Lemma findall_length (ps : list piece) (filename : string)
    (values : list string) :
  (2 <= length (fields_of ps))%nat →
  Re.findall_first (regex_of ps) filename = Some values →
  length values = length (fields_of ps).
Proof.
  intros Hk. unfold Re.findall_first.
  destruct (Re.search (regex_of ps) filename) as [[caps whole]|] eqn:Es;
    [|done].
  apply search_groups in Es. rewrite group_widths_regex_of in Es.
  apply Forall2_length in Es. rewrite length_fmap in Es.
  destruct caps as [|g [|g2 caps]]; simpl in Es; [lia|lia|].
  by intros [= <-].
Qed.

(** The loop asks for one value more than there are. *)
Lemma loop_index_error (prefix : string) (exclude : option string)
    (values : list string) (ps : list string) :
  ∀ i m,
  (i <= length values < i + length ps)%nat →
  (∀ j, (i + j < length values)%nat →
        ∃ v n, values !! (i + j)%nat = Some v ∧ Num.py_int v = Ok n) →
  create_date_loop prefix exclude values i ps m = Raise IndexError.
Proof.
  induction ps as [|p ps IH]; intros i m Hlen Hvals.
  { simpl in Hlen. lia. }
  rewrite loop_cons.
  destruct (decide (i < length values)%nat) as [Hi|Hi].
  - destruct (Hvals 0%nat) as (v & n & Hv & Hn); [lia|].
    rewrite Nat.add_0_r in Hv. rewrite Hv. simpl. rewrite Hn. simpl.
    apply IH; [simpl in Hlen; lia|].
    intros j Hj. replace (S i + j)%nat with (i + S j)%nat by lia.
    apply Hvals. lia.
  - rewrite lookup_ge_None_2 by lia. reflexivity.
Qed.

(** X7: a template with the placeholder [{name}] and two placeholders
    of the time or more.  The name has no group in the regular
    expression, so the values that a file name gives are one fewer than
    the placeholders, and the time coverage of no file is retrieved from
    its name: an [IndexError] for a file that the template matches, a
    [ValueError] for another. *)
Theorem name_placeholder_never_resolves (table : gmap string string)
    (nm : string) (ps1 ps2 : list piece) (d : Dataset) (filename : string) :
  standard_table table → table !! "name" = Some nm →
  Str.all plain nm = true →
  forallb piece_ok ps1 = true → forallb piece_ok ps2 = true →
  (2 <= length (fields_of ps1 ++ fields_of ps2))%nat →
  files d = render ps1 +:+ "{name}" +:+ render ps2 →
  files_placeholders d = Re.find_fields (files d) →
  single_file d = false →
  time_coverages_cache d !! filename = None →
  retrieve_time_coverage table d filename (Some Filename)
  = match Re.findall_first (regex_of (ps1 ++ texts nm ++ ps2)) filename with
    | Some _ => Raise IndexError
    | None => Raise ValueError
    end.
Proof.
  intros Ht Hnm Hplain H1 H2 Hk Hfiles Hph Hsingle Hcache.
  unfold retrieve_time_coverage. rewrite Hcache.
  unfold coverage_from_filename. rewrite Hsingle, Hph, Hfiles.
  rewrite (template_regex_named table nm), find_fields_named by done.
  cbn [mbind result_bind].
  set (ps := ps1 ++ texts nm ++ ps2).
  assert (Hfs : fields_of ps = fields_of ps1 ++ fields_of ps2).
  { unfold ps. by rewrite !fields_of_app, fields_of_texts. }
  destruct (Re.findall_first (regex_of ps) filename) as [values|] eqn:Hv;
    [|reflexivity].
  cbn [lookup_or mbind result_bind].
  pose proof (findall_length ps filename values) as Hlen.
  rewrite Hfs in Hlen. specialize (Hlen Hk Hv).
  unfold _create_date_from_placeholders. cbv [default from_option id].
  rewrite loop_index_error; [reflexivity| |].
  - rewrite length_app. simpl. rewrite !length_fmap, Hlen, length_app. lia.
  - intros j Hj. simpl in Hj |- *.
    apply (findall_values ps filename values Hv). rewrite Hfs. lia.
Qed.

End NameInTemplate.

Lemma name_placeholder_never_resolves_witness :
  retrieve_time_coverage named_table named "/data/A/20171112.nc"
    (Some Filename) = Raise IndexError.
Proof.
  assert (Hst : standard_table named_table) by (intros f; by destruct f).
  exact (name_placeholder_never_resolves named_table "A"
           [Text "/"; Text "d"; Text "a"; Text "t"; Text "a"; Text "/"]
           [Text "/"; Field Fyear; Field Fmonth; Field Fday; Text ".";
            Text "n"; Text "c"]
           named "/data/A/20171112.nc" Hst eq_refl eq_refl eq_refl eq_refl
           ltac:(simpl; lia) eq_refl eq_refl eq_refl eq_refl).
Defined.

Section FindFileProperties.

Variable contains : interval → datetime → bool.
Variable path_exists : string → bool.
Variable fs : filesystem.
Variable table : gmap string string.

Lemma rsplit_go_none (s : string) :
  rsplit_go s = None ↔ slashes s = 0%nat.
Proof.
  induction s as [|c s IH]; simpl; [done|].
  destruct (rsplit_go s) as [head|].
  - split; [done|]. intros H. assert (Hs : slashes s = 0%nat) by lia.
    apply IH in Hs. done.
  - destruct (Ascii.eqb c "/"); split; try done; try lia.
    intros _. simpl. by apply IH.
Qed.

Lemma rsplit_go_slashes (s head : string) :
  rsplit_go s = Some head → S (slashes head) = slashes s.
Proof.
  revert head. induction s as [|c s IH]; intros head; simpl; [done|].
  destruct (rsplit_go s) as [h|] eqn:E.
  - intros [= <-]. simpl. rewrite <- (IH h eq_refl). lia.
  - apply rsplit_go_none in E. rewrite E.
    destruct (Ascii.eqb c "/"); [|done]. by intros [= <-].
Qed.

(** A relative path stays one. *)
Lemma rsplit_head_relative (path : string) :
  Str.prefix "/" path = false → path ≠ "" →
  Str.prefix "/" (rsplit_head path) = false ∧ rsplit_head path ≠ "".
Proof.
  destruct path as [|c s]; [done|]. intros Hc _.
  unfold rsplit_head. cbn [rsplit_go].
  destruct (rsplit_go s) as [h|]; [by split|].
  destruct (Ascii.eqb c "/") eqn:E; [|by split].
  apply Ascii.eqb_eq in E as ->. by destruct s.
Qed.

(** The head of an absolute path is absolute, or empty. *)
Lemma rsplit_head_absolute (path : string) :
  Str.prefix "/" path = true →
  (rsplit_head path = "" ∨ Str.prefix "/" (rsplit_head path) = true)
  ∧ S (slashes (rsplit_head path)) = slashes path.
Proof.
  destruct path as [|c s]; [done|]. cbn [Str.prefix].
  intros [Ec _]%andb_true_iff. apply Ascii.eqb_eq in Ec as <-.
  unfold rsplit_head. simpl.
  destruct (rsplit_go s) as [h|] eqn:E; simpl.
  - split; [by right|]. by rewrite (rsplit_go_slashes _ _ E).
  - split; [by left|]. apply rsplit_go_none in E. by rewrite E.
Qed.

Lemma find_file_loop_found (fuel : nat) (regex : Re.regex) (d : Dataset)
    (files : list string) (times : list interval) (path : string) :
  files ≠ [] →
  find_file_loop fs table fuel regex d files times path
  = Some (Ok (files, times, d)).
Proof.
  intros H. destruct fuel; simpl; by rewrite bool_decide_false.
Qed.

(** X10: with a relative path (a template that does not start with
    ["/"]) and no file that matches the template, [find_file] does not
    return: the head of a path without ["/"] is the path itself, and the
    loop goes on with it. *)
Theorem find_file_relative_diverges (d : Dataset) (timestamp : datetime)
    (path : string) (regex : Re.regex) :
  single_file d = false →
  generate_filename d (files d) timestamp (Some timestamp) = Ok path →
  path_exists path = false →
  template_regex table (files d) = Ok regex →
  Str.prefix "/" path = false → path ≠ "" →
  (∀ p, _get_all_files fs p regex = []) →
  ∀ fuel, find_file contains path_exists fs table fuel d timestamp = None.
Proof.
  intros Hsingle Hpath Hex Hregex Hrel Hne Hnone fuel.
  unfold find_file. rewrite Hsingle, Hpath, Hex, Hregex.
  assert (Hloop : find_file_loop fs table fuel regex d [] [] path = None).
  { clear Hpath Hex. revert path Hrel Hne.
    induction fuel as [|fuel IH]; intros path Hrel Hne.
    - simpl. destruct (String.eqb path "") eqn:E; [|done].
      by apply String.eqb_eq in E.
    - simpl. destruct (String.eqb path "") eqn:E.
      { by apply String.eqb_eq in E. }
      simpl. rewrite Hnone. simpl.
      destruct (rsplit_head_relative path Hrel Hne) as [H1 H2].
      by apply IH. }
  by rewrite Hloop.
Qed.

(** X11: with an absolute path and no file that matches the template,
    [find_file] returns [None] after as many rounds as the path has
    ["/"]. *)
Theorem find_file_absolute_none (d : Dataset) (timestamp : datetime)
    (path : string) (regex : Re.regex) :
  single_file d = false →
  generate_filename d (files d) timestamp (Some timestamp) = Ok path →
  path_exists path = false →
  template_regex table (files d) = Ok regex →
  Str.prefix "/" path = true →
  (∀ p, _get_all_files fs p regex = []) →
  ∀ fuel, (slashes path <= fuel)%nat →
  find_file contains path_exists fs table fuel d timestamp
  = Some (Ok (None, d)).
Proof.
  intros Hsingle Hpath Hex Hregex Habs Hnone fuel Hfuel.
  unfold find_file. rewrite Hsingle, Hpath, Hex, Hregex.
  assert (Hloop : find_file_loop fs table fuel regex d [] [] path
                  = Some (Ok ([], [], d))).
  { clear Hpath Hex.
    assert (Hp : path = "" ∨ Str.prefix "/" path = true) by by right.
    clear Habs. revert path Hp Hfuel.
    induction fuel as [|fuel IH]; intros path Hp Hfuel.
    - destruct Hp as [->|Hp]; [done|].
      destruct (rsplit_head_absolute path Hp) as [_ Hs]. lia.
    - destruct Hp as [->|Hp]; [done|]. simpl.
      destruct (String.eqb path "") eqn:E; [done|]. simpl.
      rewrite Hnone. simpl.
      destruct (rsplit_head_absolute path Hp) as [Hh Hs].
      apply IH; [done|lia]. }
  by rewrite Hloop.
Qed.

Lemma retrieve_all_nil (d : Dataset) : retrieve_all table d [] = Ok ([], d).
Proof. reflexivity. Qed.

(** The loop ends with the files of the nearest directory above the
    path that has files matching the template. *)
Lemma find_file_loop_nearest (regex : Re.regex) (d : Dataset) (fuel : nat) :
  ∀ path files times d',
  find_file_loop fs table fuel regex d [] [] path
  = Some (Ok (files, times, d')) →
  files ≠ [] →
  ∃ n, files = _get_all_files fs (ancestor (S n) path) regex
       ∧ (∀ k, (k < n)%nat →
               _get_all_files fs (ancestor (S k) path) regex = [])
       ∧ retrieve_all table d files = Ok (times, d').
Proof.
  induction fuel as [|fuel IH]; intros path files times d'; simpl.
  { destruct (negb _); [done|]. by intros [= <- _ _]. }
  destruct (negb _); [|by intros [= <- _ _]].
  destruct (retrieve_all table d (_get_all_files fs (rsplit_head path) regex))
    as [[times1 d1]|e] eqn:E1; [|done].
  destruct (_get_all_files fs (rsplit_head path) regex) as [|f1 files1] eqn:Ef.
  - simpl in E1. injection E1 as <- <-. intros H Hne.
    destruct (IH _ _ _ _ H Hne) as (n & Hfiles & Hempty & Hall).
    exists (S n). split; [exact Hfiles|]. split; [|exact Hall].
    intros [|k] Hk; [exact Ef|]. apply Hempty. lia.
  - rewrite find_file_loop_found by done. intros [= <- <- <-] _.
    exists 0%nat. split; [by rewrite <- Ef|]. split; [intros k Hk; lia|].
    exact E1.
Qed.

Lemma argmin_go_spec (l : list Z) :
  ∀ best least index pre,
  pre !! best = Some least → length pre = index →
  Forall (fun x => least <= x) pre →
  ∃ v, (pre ++ l) !! argmin_go best least index l = Some v
       ∧ Forall (fun x => v <= x) (pre ++ l).
Proof.
  induction l as [|x l IH]; intros best least index pre Hb Hlen Hall; simpl.
  - exists least. rewrite app_nil_r. done.
  - destruct (x <? least) eqn:E.
    + apply Z.ltb_lt in E.
      destruct (IH index x (S index) (pre ++ [x])) as (v & Hv & Hmin).
      * rewrite lookup_app_r by lia. by rewrite Hlen, Nat.sub_diag.
      * rewrite length_app. simpl. lia.
      * apply Forall_app. split; [|by repeat constructor].
        eapply Forall_impl; [exact Hall|]. intros y Hy. simpl in Hy. lia.
      * exists v. by rewrite <- (assoc_L (++)) in Hv, Hmin.
    + apply Z.ltb_ge in E.
      destruct (IH best least (S index) (pre ++ [x])) as (v & Hv & Hmin).
      * by apply lookup_app_l_Some.
      * rewrite length_app. simpl. lia.
      * apply Forall_app. split; [done|by repeat constructor].
      * exists v. by rewrite <- (assoc_L (++)) in Hv, Hmin.
Qed.

(** [np.argmin] gives the index of an element that no other is less
    than. *)
Lemma argmin_spec (l : list Z) :
  l ≠ [] →
  ∃ v, l !! argmin l = Some v ∧ Forall (fun x => v <= x) l.
Proof.
  destruct l as [|x l]; [done|]. intros _. unfold argmin.
  apply (argmin_go_spec l 0%nat x 1%nat [x]); [done|done|].
  by repeat constructor.
Qed.

Lemma find_index_spec {A} (p : A → bool) (l : list A) :
  match find_index p l with
  | Some i => ∃ x, l !! i = Some x ∧ p x = true
  | None => Forall (fun x => p x = false) l
  end.
Proof.
  induction l as [|x l IH]; simpl; [done|].
  destruct (p x) eqn:E; [by exists x|].
  destruct (find_index p l) as [i|]; simpl.
  - exact IH.
  - by constructor.
Qed.

Lemma retrieve_all_length (files : list string) :
  ∀ d times d', retrieve_all table d files = Ok (times, d') →
  length times = length files.
Proof.
  induction files as [|f files IH]; intros d times d'; simpl.
  { by intros [= <- _]. }
  destruct (retrieve_time_coverage table d f None) as [[t d1]|]; [|done].
  simpl. destruct (retrieve_all table d1 files) as [[ts d2]|] eqn:E; [|done].
  simpl. intros [= <- _]. simpl. f_equal. by eapply IH.
Qed.

(** X12: the file that [find_file] returns when no file has the name
    generated for the time.  It is one of the files matching the
    template in the nearest directory above that name which has any:
    one whose time coverage contains the time, if there is one, and
    otherwise one whose start or end is as close to the time as any. *)
Theorem find_file_nearest (d : Dataset) (timestamp : datetime) (fuel : nat)
    (path : string) (regex : Re.regex) (file : string) (d' : Dataset) :
  single_file d = false →
  generate_filename d (files d) timestamp (Some timestamp) = Ok path →
  path_exists path = false →
  template_regex table (files d) = Ok regex →
  find_file contains path_exists fs table fuel d timestamp
  = Some (Ok (Some file, d')) →
  ∃ n times index time_coverage,
    let files := _get_all_files fs (ancestor (S n) path) regex in
    (∀ k, (k < n)%nat → _get_all_files fs (ancestor (S k) path) regex = [])
    ∧ retrieve_all table d files = Ok (times, d')
    ∧ files !! index = Some file
    ∧ times !! index = Some time_coverage
    ∧ (contains time_coverage timestamp = true
       ∨ Forall (fun other => contains other timestamp = false
                              ∧ distance timestamp time_coverage
                                <= distance timestamp other) times).
Proof.
  intros Hsingle Hpath Hex Hregex. unfold find_file.
  rewrite Hsingle, Hpath, Hex, Hregex.
  destruct (find_file_loop fs table fuel regex d [] [] path)
    as [[[[files times] d1]|e]|] eqn:Eloop; [|done|done].
  case_bool_decide as Hne; [done|].
  destruct (find_file_loop_nearest regex d fuel path files times d1 Eloop Hne)
    as (n & Hfiles & Hempty & Hall).
  pose proof (retrieve_all_length _ _ _ _ Hall) as Hlen.
  clear Eloop. subst files.
  set (found := _get_all_files fs (ancestor (S n) path) regex) in *.
  pose proof (find_index_spec (fun tc => contains tc timestamp) times) as Hfind.
  destruct (find_index _ times) as [index|].
  - destruct Hfind as (tc & Htc & Hc).
    destruct (found !! index) as [f|] eqn:Ef; [|done]. simpl.
    intros [= <- <-]. exists n, times, index, tc. cbv zeta.
    split; [done|]. split; [done|]. split; [done|]. split; [done|]. by left.
  - assert (Hd : distance timestamp <$> times ≠ []).
    { destruct times; [|done].
      destruct found; [done|]. simpl in Hlen. lia. }
    destruct (argmin_spec _ Hd) as (v & Hv & Hmin).
    apply list_lookup_fmap_Some in Hv as (tc & -> & Htc).
    destruct (found !! argmin _) as [f|] eqn:Ef; [|done]. simpl.
    intros [= <- <-]. exists n, times, (argmin (distance timestamp <$> times)), tc.
    cbv zeta. split; [done|]. split; [done|].
    split; [done|]. split; [done|]. right.
    pose proof (proj1 (Forall_forall _ _) Hfind) as Hfind'.
    pose proof (proj1 (Forall_forall _ _) (proj1 (Forall_fmap _ _ _) Hmin))
      as Hmin'.
    apply Forall_forall. intros other Hin. split; [by apply Hfind'|].
    by apply Hmin'.
Qed.

End FindFileProperties.

Lemma find_file_relative_diverges_witness :
  find_file covers (fun _ => false) no_files placeholder_table 1000 relative
    (mk 2017 11 12 0 0 0 0) = None.
Proof.
  assert (Hregex : ∃ regex, template_regex placeholder_table (files relative)
                            = Ok regex).
  { eexists. vm_compute. reflexivity. }
  destruct Hregex as [regex Hregex].
  apply (find_file_relative_diverges covers (fun _ => false) no_files
           placeholder_table relative (mk 2017 11 12 0 0 0 0)
           "dir/2017/11/12.nc" regex).
  - reflexivity.
  - vm_compute. reflexivity.
  - reflexivity.
  - exact Hregex.
  - reflexivity.
  - discriminate.
  - intros p. reflexivity.
Defined.

Lemma find_file_absolute_none_witness :
  find_file covers (fun _ => false) no_files placeholder_table 5 minutely
    (mk 2017 11 12 12 40 0 0) = Some (Ok (None, minutely)).
Proof.
  assert (Hregex : ∃ regex, template_regex placeholder_table (files minutely)
                            = Ok regex).
  { eexists. vm_compute. reflexivity. }
  destruct Hregex as [regex Hregex].
  apply (find_file_absolute_none covers (fun _ => false) no_files
           placeholder_table minutely (mk 2017 11 12 12 40 0 0)
           "/dir/2017/11/12/1240.nc" regex).
  - reflexivity.
  - vm_compute. reflexivity.
  - reflexivity.
  - exact Hregex.
  - reflexivity.
  - intros p. reflexivity.
  - vm_compute. lia.
Defined.

Lemma find_file_nearest_witness :
  let timestamp := mk 2017 11 12 12 40 0 0 in
  match find_file covers (fun _ => false) two_files_dir placeholder_table 1
          minutely timestamp with
  | Some (Ok (Some file, d')) =>
      file = "/dir/2017/11/12/1230.nc"
      ∧ ∃ times index time_coverage,
          times !! index = Some time_coverage
          ∧ (covers time_coverage timestamp = true
             ∨ Forall (fun other => covers other timestamp = false
                                    ∧ distance timestamp time_coverage
                                      <= distance timestamp other) times)
  | _ => False
  end.
Proof.
  intros timestamp.
  assert (Hregex : ∃ regex, template_regex placeholder_table (files minutely)
                            = Ok regex).
  { eexists. vm_compute. reflexivity. }
  destruct Hregex as [regex Hregex].
  destruct (find_file covers (fun _ => false) two_files_dir placeholder_table 1
              minutely timestamp) as [[[[file|] d']|e]|] eqn:E;
    try (vm_compute in E; discriminate).
  split; [vm_compute in E; by injection E as <- _|].
  destruct (find_file_nearest covers (fun _ => false) two_files_dir
              placeholder_table minutely timestamp 1
              "/dir/2017/11/12/1240.nc" regex file d')
    as (n & times & index & tc & _ & _ & _ & Htc & Hc).
  - reflexivity.
  - vm_compute. reflexivity.
  - reflexivity.
  - exact Hregex.
  - exact E.
  - exists times, index, tc. exact (conj Htc Hc).
Defined.

(** ** Nothing is missed *)

Section Complete.

Variable overlaps : interval → interval → bool.
Variable fs : filesystem.
Variable table : gmap string string.

Lemma known_extends (d d' : Dataset) (file : string) (times : interval) :
  extends d d' → known d file times → known d' file times.
Proof.
  intros [Hsub Hd] [Hc|Hc]; [left; by eapply lookup_weaken|right].
  by rewrite Hd.
Qed.

Lemma examined_extends (query : interval) (d d' : Dataset)
    (items items' : list (string * interval)) (file : string) :
  extends d d' → items ⊆ items' →
  examined overlaps query d items file → examined overlaps query d' items' file.
Proof.
  intros Hext Hsub (times & Hk & Hy). exists times.
  split; [by eapply known_extends|]. intros Hov. by apply Hsub, Hy.
Qed.

Lemma scan_files_complete (start end_ : datetime) (filenames : list string) :
  ∀ d,
  raised (scan_files overlaps table d start end_ filenames) = None →
  Forall (examined overlaps (start, end_)
            (final (scan_files overlaps table d start end_ filenames))
            (yielded (scan_files overlaps table d start end_ filenames)))
         filenames.
Proof.
  induction filenames as [|f fl IH]; intros d; simpl; [by constructor|].
  unfold _check_file.
  destruct (retrieve_time_coverage table d f None) as [[times d1]|e] eqn:E1;
    simpl; [|done].
  assert (Hk : known d1 f times).
  { apply retrieve_known in E1 as [Hc|(_ & _ & Ht)]; [by left|by right]. }
  destruct (overlaps times (start, end_)) eqn:Eov.
  - destruct (retrieve_time_coverage table d1 f None) as [[times2 d2]|e] eqn:E2;
      simpl; [|done].
    assert (times2 = times ∧ d2 = d1) as [-> ->].
    { apply retrieve_known in E1 as [Hc|(Hc & _ & Ht)];
        unfold retrieve_time_coverage in E2; rewrite Hc in E2.
      - by injection E2 as <- <-.
      - rewrite Ht in E2. by injection E2 as <- <-. }
    intros Hr. constructor.
    + exists times. split.
      * eapply known_extends; [apply scan_files_extends|exact Hk].
      * intros _. apply list_elem_of_here.
    + eapply Forall_impl; [apply IH, Hr|]. intros file.
      apply examined_extends; [reflexivity|].
      intros x Hx. by apply list_elem_of_further.
  - intros Hr. constructor.
    + exists times. split.
      * eapply known_extends; [apply scan_files_extends|exact Hk].
      * intros Hov. congruence.
    + apply IH, Hr.
Qed.

Lemma scan_dates_complete (start end_ : datetime) (path_parts : list string)
    (day_index : nat) (regex : Re.regex) (dates : list datetime) :
  ∀ d,
  let o := scan_dates overlaps fs table d start end_ path_parts day_index
             regex dates in
  raised o = None →
  Forall (fun date =>
            ∃ path, _get_files_path fs d date path_parts day_index = Ok path
                    ∧ Forall (examined overlaps (start, end_) (final o)
                                (yielded o))
                             (_get_all_files fs path regex)) dates.
Proof.
  induction dates as [|date dl IH]; intros d; cbv zeta; simpl;
    [by constructor|].
  destruct (_get_files_path fs d date path_parts day_index) as [path|e] eqn:Ep;
    [|done].
  pose proof (scan_files_complete start end_ (_get_all_files fs path regex) d)
    as Hfiles.
  pose proof (scan_files_extends overlaps table start end_
                (_get_all_files fs path regex) d) as Hext.
  set (o := scan_files _ _ _ _ _ _) in *.
  destruct (raised o) eqn:Er; [intros Hr; congruence|].
  cbn [raised final yielded].
  intros Hr. specialize (Hfiles eq_refl). specialize (IH (final o) Hr).
  pose proof (scan_dates_extends overlaps fs table start end_ path_parts
                day_index regex dl (final o)) as Hext2.
  constructor.
  - exists path. split; [done|].
    eapply Forall_impl; [exact Hfiles|]. intros file.
    apply examined_extends; [exact Hext2|].
    intros x Hx. apply elem_of_app. by left.
  - eapply Forall_impl; [exact IH|]. intros date' (path' & Hp' & Hall).
    exists path'. split.
    + destruct Hext as [_ Hd]. rewrite Hd in Hp'. exact Hp'.
    + eapply Forall_impl; [exact Hall|]. intros file.
      apply examined_extends; [reflexivity|].
      intros x Hx. apply elem_of_app. by right.
Qed.

Lemma find_files_examined (d : Dataset) (start end_ : datetime)
    (sort no_files_error : bool) (regex : Re.regex) (dates : list datetime)
    (date : datetime) :
  let o := find_files overlaps fs table d start end_ sort no_files_error in
  single_file d = false →
  template_regex table (files d) = Ok regex →
  search_dates start end_ = Ok dates →
  raised o = None →
  date ∈ dates →
  ∃ path,
    _get_files_path fs d date (Str.split "/" (files d))
      (find_day_index 0 (Str.split "/" (files d))) = Ok path
    ∧ ∀ file, file ∈ walk fs path → Re.matches regex file = true →
      ∃ times, (time_coverages_cache (final o) !! file = Some times
                ∨ time_coverage d = Explicit times)
               ∧ (overlaps times (start, end_) = true →
                  (file, times) ∈ yielded o).
Proof.
  cbv zeta. intros Hsingle Hregex Hdates.
  pose proof (find_files_extends overlaps fs table d start end_ sort
                no_files_error) as [_ Hd]. revert Hd.
  unfold find_files. rewrite Hsingle, Hregex, Hdates.
  pose proof (scan_dates_complete start end_ (Str.split "/" (files d))
                (find_day_index 0 (Str.split "/" (files d))) regex dates d)
    as Hscan. cbv zeta in Hscan.
  set (found := scan_dates _ _ _ _ _ _ _ _ _ _) in *.
  assert (Hgoal : ∀ o, final o = final found → raised found = None →
            yielded found ⊆ yielded o →
            final o = set_cache (time_coverages_cache (final o)) d →
            date ∈ dates →
            ∃ path,
              _get_files_path fs d date (Str.split "/" (files d))
                (find_day_index 0 (Str.split "/" (files d))) = Ok path
              ∧ ∀ file, file ∈ walk fs path → Re.matches regex file = true →
                ∃ times, (time_coverages_cache (final o) !! file = Some times
                          ∨ time_coverage d = Explicit times)
                         ∧ (overlaps times (start, end_) = true →
                            (file, times) ∈ yielded o)).
  { intros o Hf Hr Hy Hd Hin. specialize (Hscan Hr).
    rewrite Forall_forall in Hscan.
    destruct (Hscan date Hin) as (path & Hp & Hall).
    exists path. split; [done|]. intros file Hw Hm.
    rewrite Forall_forall in Hall.
    destruct (Hall file) as (times & Hk & Hyield).
    { unfold _get_all_files. apply list_elem_of_In, filter_In.
      split; [by apply list_elem_of_In|done]. }
    exists times. split.
    - rewrite Hf. destruct Hk as [Hk|Hk]; [by left|right].
      rewrite <- Hf, Hd in Hk. exact Hk.
    - intros Hov. by apply Hy, Hyield. }
  assert (Horder : ∀ o, raised (in_order sort o) = None →
            raised o = None ∧ yielded o ⊆ yielded (in_order sort o)).
  { intros o. unfold in_order. destruct sort; [|done].
    destruct (raised o); [done|]. intros _. split; [done|].
    simpl. intros x Hx. by rewrite sorted_by_start_perm. }
  destruct no_files_error; simpl negb; cbv iota.
  - destruct (yielded found) eqn:Ey.
    + destruct (raised found); done.
    + cbv iota. intros Hd Hr. apply Horder in Hr as [Hr Hsub].
      apply Hgoal; [apply in_order_final|done|by rewrite <- Ey|done].
  - intros Hd Hr. apply Horder in Hr as [Hr Hsub].
    apply Hgoal; [apply in_order_final|done|done|done].
Qed.

(** X18: a search that ends without an exception has missed nothing.
    For every day it looks at, the path of the day is found, and every
    file there that the regular expression of the template matches has a
    time coverage that the dataset knows after the search; if that time
    coverage overlaps the query, the file was yielded with it. *)
Theorem find_files_complete (d : Dataset) (start end_ : datetime)
    (sort no_files_error : bool) (regex : Re.regex) (dates : list datetime)
    (date : datetime) :
  let o := find_files overlaps fs table d start end_ sort no_files_error in
  single_file d = false →
  template_regex table (files d) = Ok regex →
  search_dates start end_ = Ok dates →
  raised o = None →
  date ∈ dates →
  ∃ path,
    _get_files_path fs d date (Str.split "/" (files d))
      (find_day_index 0 (Str.split "/" (files d))) = Ok path
    ∧ ∀ file, file ∈ walk fs path → Re.matches regex file = true →
      ∃ times, (time_coverages_cache (final o) !! file = Some times
                ∨ time_coverage d = Explicit times)
               ∧ (overlaps times (start, end_) = true →
                  (file, times) ∈ yielded o).
Proof. exact (find_files_examined d start end_ sort no_files_error regex dates date). Qed.

End Complete.

Lemma find_files_complete_witness :
  let start := mk 2017 11 12 12 0 0 0 in
  let end_ := mk 2017 11 12 13 0 0 0 in
  let o := find_files overlaps_spec two_files placeholder_table minutely
             start end_ true true in
  ∃ path,
    _get_files_path two_files minutely (mk 2017 11 12 0 0 0 0)
      (Str.split "/" (files minutely))
      (find_day_index 0 (Str.split "/" (files minutely))) = Ok path
    ∧ ∀ file, file ∈ walk two_files path →
      ∃ times, (time_coverages_cache (final o) !! file = Some times
                ∨ time_coverage minutely = Explicit times)
               ∧ (overlaps_spec times (start, end_) = true →
                  (file, times) ∈ yielded o).
Proof.
  intros start end_ o.
  assert (Hregex : ∃ regex, template_regex placeholder_table (files minutely)
                            = Ok regex
                            ∧ ∀ file, file ∈ walk two_files "/dir/2017/11/12/" →
                              Re.matches regex file = true).
  { eexists. split; [vm_compute; reflexivity|].
    intros file Hin. vm_compute in Hin.
    apply elem_of_cons in Hin as [->|Hin]; [vm_compute; reflexivity|].
    apply list_elem_of_singleton in Hin as ->. vm_compute. reflexivity. }
  destruct Hregex as (regex & Hregex & Hmatch).
  destruct (find_files_complete overlaps_spec two_files placeholder_table
              minutely start end_ true true regex
              [mk 2017 11 11 0 0 0 0; mk 2017 11 12 0 0 0 0]
              (mk 2017 11 12 0 0 0 0))
    as (path & Hpath & Hall).
  - reflexivity.
  - exact Hregex.
  - vm_compute. reflexivity.
  - vm_compute. reflexivity.
  - apply list_elem_of_further, list_elem_of_here.
  - exists path. split; [exact Hpath|]. intros file Hin.
    apply Hall; [exact Hin|]. apply Hmatch.
    assert (Hp : path = "/dir/2017/11/12/").
    { vm_compute in Hpath. by injection Hpath as <-. }
    by rewrite <- Hp.
Defined.

(** ** Timestamps in a dataset *)

Section ContainsProperties.

Variable overlaps : interval → interval → bool.
Variable fs : filesystem.
Variable table : gmap string string.

Lemma item_induction (P : item → Prop) :
  (∀ t, P (Timestamp t)) → (∀ l, Forall P l → P (Items l)) → ∀ it, P it.
Proof.
  intros Ht Hl. fix IH 1. intros [t|l]; [apply Ht|]. apply Hl.
  induction l as [|x l IHl]; constructor; [apply IH|exact IHl].
Qed.

Lemma contains_timestamp_extends (d : Dataset) (t : datetime) (b : bool)
    (d' : Dataset) :
  contains_timestamp overlaps fs table d t = Ok (b, d') → extends d d'.
Proof.
  unfold contains_timestamp. destruct (add t (seconds 5)) as [end_|]; [|done].
  simpl.
  pose proof (find_files_extends overlaps fs table d t end_ true false) as H.
  destruct (raised _); [done|]. by intros [= _ <-].
Qed.

Lemma contains_extends (it : item) :
  ∀ d b d', __contains__ overlaps fs table d it = Ok (b, d') → extends d d'.
Proof.
  induction it as [t|l IH] using item_induction; intros d b d'.
  - apply contains_timestamp_extends.
  - simpl. revert d. induction IH as [|x l Hx _ IHl]; intros d.
    + by intros [= _ <-].
    + destruct (__contains__ overlaps fs table d x) as [[inside d1]|] eqn:E;
        [|done].
      apply Hx in E. destruct inside.
      * intros H. etrans; [exact E|]. by apply IHl.
      * by intros [= _ <-].
Qed.

Lemma covered_extends (d d' : Dataset) (t : datetime) :
  extends d d' → covered overlaps d t → covered overlaps d' t.
Proof.
  intros Hext (end_ & file & times & Ha & Hov & Hk).
  exists end_, file, times. split; [done|]. split; [done|].
  by eapply known_extends.
Qed.

(** X17: when [item in dataset] is [True], every timestamp of the item
    has a file whose time coverage overlaps the five seconds that start
    with it. *)
Theorem contains_sound (it : item) (d d' : Dataset) :
  __contains__ overlaps fs table d it = Ok (true, d') →
  Forall (covered overlaps d') (timestamps it).
Proof.
  revert d d'. induction it as [t|l IH] using item_induction; intros d d'.
  - simpl. unfold contains_timestamp.
    destruct (add t (seconds 5)) as [end_|] eqn:Ea; [|done]. simpl.
    destruct (raised _) eqn:Er; [done|].
    intros [= Hy <-]. constructor; [|constructor].
    destruct (yielded (find_files overlaps fs table d t end_ true false))
      as [|[file times] items] eqn:Ey; [done|].
    destruct (find_files_found overlaps fs table d t end_ true false
                (file, times)) as [[Hov Hk] _].
    { rewrite Ey. apply list_elem_of_here. }
    exists end_, file, times. split; [done|]. split; [done|]. exact Hk.
  - simpl. revert d. induction IH as [|x l Hx _ IHl]; intros d.
    + intros _. constructor.
    + destruct (__contains__ overlaps fs table d x) as [[inside d1]|] eqn:E;
        [|done].
      destruct inside; [|done]. intros H.
      apply Forall_app. split; [|by eapply IHl].
      eapply Forall_impl; [by eapply Hx|]. intros t.
      apply covered_extends.
      apply (contains_extends (Items l) d1 true d'). exact H.
Qed.

End ContainsProperties.

Lemma contains_sound_witness :
  let it := Items [Timestamp (mk 2017 11 12 12 29 57 0);
                   Timestamp (mk 2017 11 12 1 30 30 0)] in
  ∃ d', __contains__ overlaps_spec two_files placeholder_table minutely it
        = Ok (true, d')
        ∧ Forall (covered overlaps_spec d') (timestamps it).
Proof.
  intros it.
  destruct (__contains__ overlaps_spec two_files placeholder_table minutely it)
    as [[[|] d']|e] eqn:E; try (vm_compute in E; discriminate).
  exists d'. split; [reflexivity|].
  exact (contains_sound overlaps_spec two_files placeholder_table it minutely
           d' E).
Defined.

(** ** The manager of datasets *)

Section Manager.

(** X16: after datasets were added to a manager one after the other,
    the manager holds under a name the last dataset that was added with
    it, and under a name that none of them has what it held before. *)
Theorem manager_holds_last (self : gmap string Dataset)
    (before after : list Dataset) (dataset : Dataset) (other : string) :
  Forall (fun d => name d ≠ name dataset) after →
  Forall (fun d => name d ≠ other) (before ++ dataset :: after) →
  let manager := foldl __iadd__ self (before ++ dataset :: after) in
  manager !! name dataset = Some dataset ∧ manager !! other = self !! other.
Proof.
  intros Hafter Hother. cbv zeta.
  assert (Hkeep : ∀ (l : list Dataset) (m : gmap string Dataset) (k : string),
            Forall (fun d => name d ≠ k) l →
            foldl __iadd__ m l !! k = m !! k).
  { induction l as [|d l IH]; intros m k Hl; [done|].
    apply Forall_cons in Hl as [Hd Hl]. cbn [foldl]. rewrite IH by done.
    unfold __iadd__. by rewrite lookup_insert_ne. }
  split; [|by apply Hkeep].
  rewrite foldl_app. cbn [foldl]. rewrite Hkeep by done.
  unfold __iadd__. apply lookup_insert_eq.
Qed.

End Manager.

Lemma manager_holds_last_witness :
  let manager := foldl __iadd__ ∅ [minutely; named; daily] in
  manager !! "A" = Some named
  ∧ manager !! "B" = (∅ : gmap string Dataset) !! "B".
Proof.
  apply (manager_holds_last ∅ [minutely] [daily] named "B").
  - repeat constructor. discriminate.
  - repeat constructor; discriminate.
Defined.

(** ** Loading a cache *)

Section Loading.

(** X13: a cache that was saved is loaded into a dataset that has a
    cache of its own: the entries of the file replace those of the same
    files, and the other entries stay. *)
Theorem load_merges_saved (w : world) (d1 d2 : Dataset) (f : string) :
  map_Forall (fun _ times => representable times.1 ∧ representable times.2)
             (time_coverages_cache d1) →
  ∃ d', load_time_coverages (save_time_coverages w d1 (Some f)) d2 (Some f)
        = Ok d'
        ∧ d' = set_cache (time_coverages_cache d') d2
        ∧ ∀ file, time_coverages_cache d' !! file
                  = match time_coverages_cache d1 !! file with
                    | Some times => Some times
                    | None => time_coverages_cache d2 !! file
                    end.
Proof.
  intros Hc. pose proof (load_saved _ Hc) as Hl.
  unfold load_time_coverages, save_time_coverages. cbn [disk].
  rewrite lookup_insert_eq. fold saved_times. rewrite Hl. simpl.
  eexists. split; [reflexivity|]. split; [reflexivity|].
  intros file. cbn [time_coverages_cache set_cache].
  rewrite list_to_map_to_list, lookup_union.
  destruct (time_coverages_cache d1 !! file),
    (time_coverages_cache d2 !! file); reflexivity.
Qed.

Lemma parse_members_error (l : list (string * list string)) (file : string)
    (times : list string) :
  (file, times) ∈ l → is_ok (parse_times times) = false →
  is_ok (parse_members l) = false.
Proof.
  induction l as [|[f t] l IH]; intros Hin Ht.
  { by apply elem_of_nil in Hin. }
  simpl. apply elem_of_cons in Hin as [[= <- <-]|Hin].
  - by destruct (parse_times times).
  - destruct (parse_times t); [|done]. simpl.
    specialize (IH Hin Ht). by destruct (parse_members l).
Qed.

(** X14: a file of saved time coverages that is JSON, with one member
    that is not a pair of timestamps of the format (fewer than two
    strings, or a string that [strptime] refuses): no dataset is
    constructed with it as its cache. *)
Theorem malformed_cache_fails (w : world) (f : string)
    (obj : gmap string (list string)) (file : string) (times : list string)
    (obj_id files : string) (handler : option (string → result interval))
    (name : option string) (time_coverage : option coverage)
    (continuous : bool) (max_processes : option Z) :
  disk w !! f = Some (Json obj) →
  obj !! file = Some times →
  is_ok (parse_times times) = false →
  is_ok (init w obj_id files handler name time_coverage (Some f) continuous
           max_processes) = false.
Proof.
  intros Hdisk Hobj Htimes. unfold init, set_name. simpl.
  unfold load_time_coverages. cbn [disk]. rewrite Hdisk.
  assert (Hp : is_ok (parse_members (map_to_list obj)) = false).
  { apply (parse_members_error _ file times); [|done].
    by apply elem_of_map_to_list. }
  by destruct (parse_members (map_to_list obj)).
Qed.

End Loading.

Lemma load_merges_saved_witness :
  let a := (mk 2017 11 12 0 0 0 0, mk 2017 11 13 0 0 0 0) in
  let b := (mk 2017 11 13 0 0 0 0, mk 2017 11 14 0 0 0 0) in
  let d1 := set_cache {[ "/dir/2017/11/12.nc" := a ]} daily in
  let d2 := set_cache {[ "/dir/2017/11/12.nc" := b;
                         "/dir/2017/11/13.nc" := b ]} daily in
  ∃ d', load_time_coverages
          (save_time_coverages initial_world d1 (Some "times.json")) d2
          (Some "times.json") = Ok d'
        ∧ time_coverages_cache d' !! "/dir/2017/11/12.nc" = Some a
        ∧ time_coverages_cache d' !! "/dir/2017/11/13.nc" = Some b.
Proof.
  intros a b d1 d2.
  destruct (load_merges_saved initial_world d1 d2 "times.json")
    as (d' & Hload & _ & Hlook).
  - intros file times H. cbn [time_coverages_cache set_cache d1] in H.
    apply lookup_singleton_Some in H as [_ <-].
    repeat split; simpl; lia.
  - exists d'. split; [exact Hload|]. rewrite !Hlook. split; reflexivity.
Defined.

Lemma malformed_cache_fails_witness :
  let w := mkWorld placeholder_table
             {[ "times.json" :=
                  Json {[ "/dir/2017/11/12.nc"
                          := ["2017-11-12T00:00:00.000000"] ]} ]} in
  is_ok (init w "140277501327120" "/dir/{year}/{month}/{day}.nc" None None
           None (Some "times.json") true None) = false.
Proof.
  intros w.
  apply (malformed_cache_fails w "times.json"
           {[ "/dir/2017/11/12.nc" := ["2017-11-12T00:00:00.000000"] ]}
           "/dir/2017/11/12.nc" ["2017-11-12T00:00:00.000000"]).
  - reflexivity.
  - reflexivity.
  - vm_compute. reflexivity.
Defined.

(** ** Placeholders that [generate_filename] does not know *)

Section UnknownPlaceholder.

Lemma rev_app_rev_app (s a b : string) :
  String.rev_app (String.rev_app s a) b = String.rev_app a (s +:+ b).
Proof.
  revert a. induction s as [|c s IH]; intros a; [done|].
  simpl. by rewrite IH.
Qed.

Lemma word_not_brace (c : ascii) :
  Chars.is_word c = true →
  Ascii.eqb c "{" = false ∧ Ascii.eqb c "}" = false
  ∧ Format.is_special c = false.
Proof.
  intros Hw. unfold Format.is_special.
  destruct (Ascii.eqb c "{") eqn:E1; [apply Ascii.eqb_eq in E1; by subst|].
  destruct (Ascii.eqb c "}") eqn:E2; [apply Ascii.eqb_eq in E2; by subst|].
  destruct (Ascii.eqb c ".") eqn:E3; [apply Ascii.eqb_eq in E3; by subst|].
  destruct (Ascii.eqb c "[") eqn:E4; [apply Ascii.eqb_eq in E4; by subst|].
  destruct (Ascii.eqb c "!") eqn:E5; [apply Ascii.eqb_eq in E5; by subst|].
  destruct (Ascii.eqb c ":") eqn:E6; [apply Ascii.eqb_eq in E6; by subst|].
  done.
Qed.

Lemma word_not_special (s : string) :
  Str.all Chars.is_word s = true →
  Str.all (fun c => negb (Format.is_special c)) s = true.
Proof.
  induction s as [|c s IH]; [done|]. simpl.
  intros [Hc Hs]%andb_true_iff.
  destruct (word_not_brace c Hc) as (_ & _ & ->). by apply IH.
Qed.

(** Reading the name of a replacement field. *)
Lemma format_go_name (kw : gmap string string) (nm rest : string) :
  Str.all Chars.is_word nm = true →
  ∀ acc,
  Format.go kw false (Some acc) (nm +:+ String "}" rest)
  = (v ← Format.field kw (String.rev (String.rev_app nm acc));
     r ← Format.go kw false None rest;
     Ok (v +:+ r)).
Proof.
  induction nm as [|c nm IH]; intros Hw acc.
  - reflexivity.
  - simpl in Hw. apply andb_true_iff in Hw as [Hc Hw].
    destruct (word_not_brace c Hc) as (H1 & H2 & _).
    simpl. rewrite H1, H2. by apply IH.
Qed.

Lemma filename_fields_known (d : Dataset) (start_time end_time : datetime)
    (f : start_field) :
  is_Some (filename_fields d start_time end_time !! field_name f).
Proof. destruct f; eexists; reflexivity. Qed.

(** X15: a template with a replacement field that is not one of the
    placeholders.  [generate_filename] raises a [KeyError] for a name,
    an [IndexError] for a number or an empty field, which [str.format]
    takes for a position, and a [ValueError] for digits whose number
    does not fit the index type. *)
Theorem generate_filename_unknown_placeholder (d : Dataset)
    (ps : list piece) (nm rest : string) (start_time : datetime)
    (end_time : option datetime) :
  forallb piece_ok ps = true →
  Str.all Chars.is_word nm = true →
  nm ∉ placeholder_names →
  generate_filename d (render ps +:+ "{" +:+ nm +:+ "}" +:+ rest) start_time
    end_time
  = Raise (match Format.get_integer nm 0 with
           | Format.Number _ => IndexError
           | Format.TooManyDigits => ValueError
           | Format.NotNumber => KeyError
           end).
Proof.
  intros Hok Hw Hnm. unfold generate_filename, Format.format.
  set (kw := filename_fields d start_time (default start_time end_time)).
  assert (Hkw : ∀ f, f ∈ fields_of ps →
            kw !! field_name f = Some (default "" (kw !! field_name f))).
  { intros f _.
    pose proof (filename_fields_known d start_time
                  (default start_time end_time) f) as [v Hv].
    change (kw !! field_name f = Some v) in Hv. by rewrite Hv. }
  rewrite (format_render_app kw (fun f => default "" (kw !! field_name f))
             ps _ Hok Hkw).
  assert (Hgo : Format.go kw false None ("{" +:+ nm +:+ "}" +:+ rest)
                = Raise (match Format.get_integer nm 0 with
                         | Format.Number _ => IndexError
                         | Format.TooManyDigits => ValueError
                         | Format.NotNumber => KeyError
                         end)).
  { change ("{" +:+ nm +:+ "}" +:+ rest)
      with (String "{" (nm +:+ String "}" rest)).
    cbn [Format.go].
    assert (Hp : Str.prefix "{" (nm +:+ String "}" rest) = false).
    { destruct nm as [|c nm]; [done|]. cbn [Str.all] in Hw.
      apply andb_true_iff in Hw as [Hc _].
      destruct (word_not_brace c Hc) as (H1 & _ & _).
      change (Str.prefix "{" (String c nm +:+ String "}" rest))
        with (Ascii.eqb "{" c && true).
      by rewrite (Ascii.eqb_sym "{" c), H1. }
    cbn [Ascii.eqb Bool.eqb]. cbn [andb]. rewrite Hp.
    rewrite format_go_name by done.
    unfold String.rev. rewrite rev_app_rev_app. cbn [String.rev_app].
    rewrite str_app_empty_r. unfold Format.field.
    rewrite word_not_special by done. cbn [negb].
    destruct (Format.get_integer nm 0); [done| |done].
    assert (Hnone : kw !! nm = None).
    { unfold kw, filename_fields. apply not_elem_of_list_to_map_1. exact Hnm. }
    by rewrite Hnone. }
  by rewrite Hgo.
Qed.

End UnknownPlaceholder.

Lemma generate_filename_unknown_placeholder_witness :
  generate_filename daily "/dir/{year}/{month}/{week}.nc"
    (mk 2017 11 12 0 0 0 0) None = Raise KeyError
  ∧ generate_filename daily "/dir/{year}/{month}/{0}.nc"
      (mk 2017 11 12 0 0 0 0) None = Raise IndexError
  ∧ generate_filename daily "/dir/{year}/{month}/{9223372036854775807}.nc"
      (mk 2017 11 12 0 0 0 0) None = Raise IndexError
  ∧ generate_filename daily "/dir/{year}/{month}/{9223372036854775808}.nc"
      (mk 2017 11 12 0 0 0 0) None = Raise ValueError.
Proof.
  pose (ps := [Text "/"; Text "d"; Text "i"; Text "r"; Text "/"; Field Fyear;
               Text "/"; Field Fmonth; Text "/"]%char).
  split; [|split; [|split]].
  - apply (generate_filename_unknown_placeholder daily ps "week" ".nc");
      [reflexivity | reflexivity | apply (bool_decide_unpack _); by vm_compute].
  - apply (generate_filename_unknown_placeholder daily ps "0" ".nc");
      [reflexivity | reflexivity | apply (bool_decide_unpack _); by vm_compute].
  - apply (generate_filename_unknown_placeholder daily ps
             "9223372036854775807" ".nc");
      [reflexivity | reflexivity | apply (bool_decide_unpack _); by vm_compute].
  - apply (generate_filename_unknown_placeholder daily ps
             "9223372036854775808" ".nc");
      [reflexivity | reflexivity | apply (bool_decide_unpack _); by vm_compute].
Defined.

Lemma search_dates_days_witness :
  ∃ dates,
    search_dates (mk 2017 11 12 5 0 0 0) (mk 2017 11 13 0 0 0 0) = Ok dates
    ∧ toordinal <$> dates
      = zrange (toordinal (mk 2017 11 12 5 0 0 0) - 1)
               (searched_days (mk 2017 11 12 5 0 0 0) (mk 2017 11 13 0 0 0 0))
    ∧ Forall (fun date => date = midnight (date_of date)) dates.
Proof.
  apply search_dates_days; first [reflexivity | simpl; lia].
Defined.

(** ** Names with something after them *)

Section Suffix.

Lemma take_app_full (n : nat) (s suffix : string) :
  Str.length (Str.take n s) = n →
  Str.take n (s +:+ suffix) = Str.take n s
  ∧ Str.drop n (s +:+ suffix) = Str.drop n s +:+ suffix.
Proof.
  revert s. induction n as [|n IH]; intros s Hlen.
  - split; [by destruct s, suffix|by destruct s].
  - destruct s as [|c s]; [done|]. simpl in Hlen. injection Hlen as Hlen.
    destruct (IH s Hlen) as [H1 H2]. simpl. by rewrite H1, H2.
Qed.

(** A match at the start of a string is one at the start of every
    string that it starts. *)
Lemma match_here_suffix (r : Re.regex) (suffix : string) :
  ∀ s, is_Some (Re.match_here r s) → is_Some (Re.match_here r (s +:+ suffix)).
Proof.
  induction r as [|a r IH]; intros s; [by eexists|].
  destruct a as [c| |n|].
  - destruct s as [|c' s]; simpl; [by intros [? ?]|].
    destruct (Ascii.eqb c c'); [apply IH|by intros [? ?]].
  - destruct s as [|c' s]; simpl; [by intros [? ?]|].
    destruct (Ascii.eqb c' Chars.newline); [by intros [? ?]|apply IH].
  - cbn [Re.match_here].
    destruct ((Str.length (Str.take n s) =? n)%nat) eqn:El;
      [|by intros [? ?]].
    apply Nat.eqb_eq in El. destruct (take_app_full n s suffix El) as [-> ->].
    rewrite El, Nat.eqb_refl. cbn [andb].
    destruct (Str.all Chars.is_digit (Str.take n s)); [|by intros [? ?]].
    destruct (Re.match_here r (Str.drop n s)) as [[caps rest]|] eqn:E;
      [|by intros [? ?]].
    intros _. destruct (IH (Str.drop n s)) as [[caps' rest'] ->]; [by rewrite E|].
    by eexists.
  - cbn [Re.match_here]. induction s as [|c s IHs].
    + cbn [String.append].
      destruct (Re.match_here r "") as [x|] eqn:E; [|by intros [? ?]].
      intros _. destruct (IH "") as [y Hy]; [by rewrite E|].
      cbn [String.append] in Hy.
      destruct suffix; cbn [String.append] in *; by rewrite Hy.
    + cbn [String.append].
      destruct (Re.match_here r (String c s)) as [x|] eqn:E.
      * intros _. destruct (IH (String c s)) as [y Hy]; [by rewrite E|].
        cbn [String.append] in Hy. by rewrite Hy.
      * destruct (Re.match_here r (String c (s +:+ suffix))); [by eexists|].
        destruct (Ascii.eqb c Chars.newline); [by intros [? ?]|]. exact IHs.
Qed.

Variable fs : filesystem.

(** X19: the files of a search are those whose path the regular
    expression of the template matches at its start; what follows the
    match is not looked at, so that a file whose path continues the
    path of a file of the dataset (a copy with another extension) is a
    file of the dataset as well. *)
Theorem get_all_files_accepts_suffix (path : string) (regex : Re.regex)
    (file suffix : string) :
  file +:+ suffix ∈ walk fs path →
  Re.matches regex file = true →
  file +:+ suffix ∈ _get_all_files fs path regex.
Proof.
  intros Hin Hm. unfold _get_all_files.
  apply list_elem_of_In, filter_In. split; [by apply list_elem_of_In|].
  unfold Re.matches in *.
  destruct (Re.match_here regex file) as [x|] eqn:E; [|done].
  destruct (match_here_suffix regex suffix file) as [y ->]; [by rewrite E|].
  reflexivity.
Qed.

End Suffix.

(** ** A query that ends before it starts *)

Section Reversed.

Variable overlaps : interval → interval → bool.
Variable fs : filesystem.
Variable table : gmap string string.

(** X20: a query whose end lies two days or more before the day of its
    start.  The search of a dataset of several files looks at no day:
    it finds nothing, whatever files there are, and leaves the dataset
    as it is. *)
Theorem find_files_reversed_query (d : Dataset) (start end_ : datetime)
    (sort : bool) :
  single_file d = false →
  is_ok (template_regex table (files d)) = true →
  valid start = true → valid end_ = true →
  1678 <= year end_ → year start <= 2261 →
  toordinal end_ < toordinal start - 1 →
  find_files overlaps fs table d start end_ sort true = stop NoFilesError d
  ∧ find_files overlaps fs table d start end_ sort false = mkOutcome [] None d.
Proof.
  intros Hsingle Hregex Hvs Hve Hye Hys Hord.
  assert (Hy2 : 2 <= year start).
  { destruct (Z_lt_le_dec (year start) 2) as [Hlt|]; [|done]. exfalso.
    pose proof Hvs as (Hy & Hds & _)%valid_spec.
    pose proof Hve as (_ & Hde & _)%valid_spec.
    pose proof (ord_in_year _ Hds) as H1. pose proof (ord_in_year _ Hde) as H2.
    unfold date_of in H1, H2. cbn [fst snd] in H1, H2.
    pose proof (days_before_year_mono (year start + 1) (year end_)).
    change (ord (date_of start)) with (toordinal start) in *.
    change (ord (date_of end_)) with (toordinal end_) in *.
    unfold toordinal, ord in *. simpl in *. lia. }
  destruct (search_dates_first start end_ Hvs Hy2)
    as (first & Hfirst & _ & _ & Hof).
  assert (Hdates : search_dates start end_ = Ok []).
  { unfold search_dates. rewrite Hfirst. simpl.
    pose proof (date_range_length first end_) as Hlen.
    destruct (date_range first end_); [done|]. simpl in Hlen. lia. }
  unfold find_files. rewrite Hsingle, Hdates.
  destruct (template_regex table (files d)); [|done].
  split; by destruct sort.
Qed.

End Reversed.

Lemma get_all_files_accepts_suffix_witness :
  match template_regex placeholder_table (files minutely) with
  | Ok regex =>
      "/dir/2017/11/12/1230.nc.bak"
      ∈ _get_all_files with_backup "/dir/2017/11/12/" regex
  | Raise _ => False
  end.
Proof.
  destruct (template_regex placeholder_table (files minutely)) as [regex|e]
    eqn:E; [|vm_compute in E; discriminate].
  apply (get_all_files_accepts_suffix with_backup "/dir/2017/11/12/" regex
           "/dir/2017/11/12/1230.nc" ".bak").
  - apply list_elem_of_here.
  - vm_compute in E. injection E as <-. vm_compute. reflexivity.
Defined.

Lemma find_files_reversed_query_witness :
  find_files overlaps_spec two_files placeholder_table minutely
    (mk 2017 11 12 12 0 0 0) (mk 2017 11 10 12 0 0 0) true true
  = stop NoFilesError minutely
  ∧ find_files overlaps_spec two_files placeholder_table minutely
      (mk 2017 11 12 12 0 0 0) (mk 2017 11 10 12 0 0 0) true false
    = mkOutcome [] None minutely.
Proof.
  apply find_files_reversed_query;
    first [vm_compute; reflexivity | simpl; lia].
Defined.

(** ** Templates without placeholders of the end *)

Section WithoutEnd.

(** Without a placeholder of the end, the end pass stores nothing. *)
Lemma end_pass_without_end (placeholders values : list string)
    (start_args args : gmap string Z) :
  Forall (fun p => Str.prefix "end_" p = false) placeholders →
  _create_date_from_placeholders placeholders values (Some "end_") None
    (Some start_args) = Ok args →
  args = start_args.
Proof.
  intros Hps H. unfold _create_date_from_placeholders in H.
  cbv [default from_option id] in H.
  destruct (create_date_loop _ _ _ _ _ _) as [m|e] eqn:Hloop; [|discriminate].
  simpl in H. rewrite bool_decide_false in H.
  2:{ intros Hin. rewrite Forall_forall in Hps. by specialize (Hps _ Hin). }
  injection H as <-. apply map_eq. intros k.
  apply (loop_untouched "end_" None k values placeholders) with (i := 0%nat);
    [|exact Hloop].
  eapply Forall_impl; [exact Hps|]. intros p Hp Hw.
  apply written_key_cases in Hw as [->|[[-> _]|[-> _]]]; done.
Qed.

(** X21: a template without placeholders of the end.  The time coverage
    that is retrieved from a file name starts and ends at the same time
    when the dataset is not continuous; when it is continuous, it lasts
    one second, one minute, one hour or one day, and never one
    millisecond. *)
Theorem coverage_without_end (table : gmap string string) (d : Dataset)
    (filename : string) (start end_ : datetime) :
  Forall (fun p => Str.prefix "end_" p = false) (files_placeholders d) →
  coverage_from_filename table d filename = Ok (start, end_) →
  if continuous d
  then stamp end_ - stamp start ∈ [seconds 1; minutes 1; hours 1; days 1]
  else end_ = start.
Proof.
  intros Hps. unfold coverage_from_filename.
  destruct (single_file d); [discriminate|].
  destruct (template_regex _ _) as [regex|]; [|discriminate]. simpl.
  destruct (lookup_or ValueError _) as [values|]; [|discriminate]. simpl.
  destruct (_create_date_from_placeholders _ _ None _ _) as [sa|] eqn:Es;
    [|discriminate].
  simpl.
  destruct (_create_date_from_placeholders _ _ (Some "end_") _ _) as [ea|] eqn:E;
    [|discriminate].
  simpl. apply end_pass_without_end in E; [|done]. subst ea.
  destruct (of_kwargs sa) as [s|] eqn:Eo; [|discriminate]. simpl.
  pose proof (of_kwargs_fields _ _ Eo) as (Hvs & _).
  unfold eqb. rewrite bool_decide_true by done.
  assert (Hrefl : ltb s s = false).
  { apply not_true_is_false. rewrite ltb_stamp by done. lia. }
  destruct (continuous d); cbn [andb].
  - destruct (_get_time_resolution sa) as [dt|] eqn:Er; [|discriminate].
    cbn [add_opt]. destruct (add s dt) as [e1|] eqn:E1; [|discriminate]. simpl.
    pose proof Hvs as (_ & Hd1 & Ht1)%valid_spec.
    destruct (add_stamp _ _ _ Hd1 Ht1 E1) as [Hst Hv1].
    pose proof (resolution_bounds _ _ Er) as Hdt.
    assert (Hlt : ltb e1 s = false).
    { apply not_true_is_false. rewrite ltb_stamp by done. lia. }
    rewrite Hlt. simpl. intros [= <- <-].
    replace (stamp e1 - stamp s) with dt by lia.
    destruct (start_args_no_millisecond _ _ _ Es) as [Hms _].
    unfold _get_time_resolution in Er.
    rewrite bool_decide_false in Er by (rewrite Hms; by intros [? ?]).
    repeat case_bool_decide; try discriminate; injection Er as <-;
      apply (bool_decide_unpack _); by vm_compute.
  - simpl. rewrite Hrefl. simpl. by intros [= <- <-].
Qed.

End WithoutEnd.

Lemma coverage_without_end_witness :
  coverage_from_filename placeholder_table minutely "/dir/2017/11/12/1230.nc"
  = Ok (mk 2017 11 12 12 30 0 0, mk 2017 11 12 12 31 0 0)
  ∧ stamp (mk 2017 11 12 12 31 0 0) - stamp (mk 2017 11 12 12 30 0 0)
    ∈ [seconds 1; minutes 1; hours 1; days 1].
Proof.
  assert (H : coverage_from_filename placeholder_table minutely
                "/dir/2017/11/12/1230.nc"
              = Ok (mk 2017 11 12 12 30 0 0, mk 2017 11 12 12 31 0 0))
    by (vm_compute; reflexivity).
  assert (Hps : Forall (fun p => Str.prefix "end_" p = false)
                       (files_placeholders minutely)).
  { apply (bool_decide_unpack _). by vm_compute. }
  split; [exact H|].
  exact (coverage_without_end placeholder_table minutely
           "/dir/2017/11/12/1230.nc" _ _ Hps H).
Defined.

(** ** The policy when no file is found (C5) *)

Section NoFiles.

Variable overlaps : interval → interval → bool.
Variable fs : filesystem.
Variable table : gmap string string.








(** The one file of a single-file dataset is not there: a [ValueError],
    whatever [no_files_error] is. *)
Lemma single_file_missing (d : Dataset) (start end_ : datetime)
    (sort no_files_error : bool) :
  single_file d = true → isfile fs (files d) = false →
  find_files overlaps fs table d start end_ sort no_files_error
  = stop ValueError d.
Proof. intros H1 H2. unfold find_files. by rewrite H1, H2. Qed.

End NoFiles.



(** ** Sorting the files that were found (C7) *)

Section Sorted.

Variable overlaps : interval → interval → bool.
Variable fs : filesystem.
Variable table : gmap string string.

(** The search with [sort=True] against the search with [sort=False]. *)
Lemma find_files_in_order (d : Dataset) (start end_ : datetime)
    (no_files_error : bool) :
  let sorted := find_files overlaps fs table d start end_ true no_files_error in
  let unsorted := find_files overlaps fs table d start end_ false no_files_error in
  StronglySorted start_le (yielded sorted)
  ∧ raised sorted = raised unsorted
  ∧ final sorted = final unsorted
  ∧ (raised unsorted = None → yielded sorted ≡ₚ yielded unsorted).
Proof.
  unfold find_files.
  destruct (single_file d).
  { destruct (isfile fs (files d)); [|by repeat split; try constructor].
    destruct (retrieve_time_coverage _ _ _ _) as [[tc d']|e];
      [|by repeat split; try constructor].
    destruct (overlaps tc _); [by repeat split; repeat constructor|].
    destruct no_files_error; by repeat split; try constructor. }
  destruct (template_regex _ _) as [regex|e];
    [|by repeat split; try constructor].
  destruct (search_dates _ _) as [dates|e];
    [|by repeat split; try constructor].
  set (found := scan_dates _ _ _ _ _ _ _ _ _ _).
  assert (Hgoal : StronglySorted start_le (yielded (in_order true found))
            ∧ raised (in_order true found) = raised (in_order false found)
            ∧ final (in_order true found) = final (in_order false found)
            ∧ (raised (in_order false found) = None →
               yielded (in_order true found) ≡ₚ yielded (in_order false found))).
  { split; [apply in_order_sorted|]. rewrite !in_order_raised, !in_order_final.
    split; [done|]. split; [done|]. apply in_order_perm. }
  destruct no_files_error; simpl negb; cbv iota; [|exact Hgoal].
  destruct (yielded found) eqn:Ey; [|exact Hgoal].
  destruct (raised found); by repeat split; try constructor.
Qed.

(** C7: whatever the file system enumerates, the items that
    [find_files] yields with [sort=True] have non-decreasing starts.
    The sorted search ends as the unsorted one, with the same exception
    if any and the same cache.  When the search ends without an
    exception, the sorted items are the items of the unsorted search in
    another order, and no file was left out: on every day of the search
    every file that the file system enumerates and that the template
    matches has a time coverage, and is among the sorted items if that
    time coverage overlaps the query. *)
Theorem find_files_sorted (d : Dataset) (start end_ : datetime)
    (no_files_error : bool) :
  let sorted := find_files overlaps fs table d start end_ true no_files_error in
  let unsorted := find_files overlaps fs table d start end_ false no_files_error in
  StronglySorted start_le (yielded sorted)
  ∧ raised sorted = raised unsorted
  ∧ final sorted = final unsorted
  ∧ (raised unsorted = None →
     yielded sorted ≡ₚ yielded unsorted
     ∧ (single_file d = false →
        ∀ regex dates date,
          template_regex table (files d) = Ok regex →
          search_dates start end_ = Ok dates →
          date ∈ dates →
          ∃ path,
            _get_files_path fs d date (Str.split "/" (files d))
              (find_day_index 0 (Str.split "/" (files d))) = Ok path
            ∧ ∀ file, file ∈ walk fs path → Re.matches regex file = true →
              ∃ times,
                (time_coverages_cache (final sorted) !! file = Some times
                 ∨ time_coverage d = Explicit times)
                ∧ (overlaps times (start, end_) = true →
                   (file, times) ∈ yielded sorted))).
Proof.
  cbv zeta.
  destruct (find_files_in_order d start end_ no_files_error)
    as (Hsorted & Hraised & Hfinal & Hperm).
  split; [exact Hsorted|]. split; [exact Hraised|]. split; [exact Hfinal|].
  intros Hr. split; [by apply Hperm|].
  intros Hsingle regex dates date Hregex Hdates Hin.
  apply (find_files_examined overlaps fs table d start end_ true
           no_files_error regex dates date Hsingle Hregex Hdates);
    [by rewrite Hraised|exact Hin].
Qed.

End Sorted.

(** The file system enumerates the file of 12:30 before the file of
    1:30; the sorted search yields the file of 1:30 first. *)
Lemma find_files_sorted_witness :
  let start := mk 2017 11 12 0 0 0 0 in
  let end_ := mk 2017 11 13 0 0 0 0 in
  let early := ("/dir/2017/11/12/0130.nc",
                (mk 2017 11 12 1 30 0 0, mk 2017 11 12 1 31 0 0)) in
  let late := ("/dir/2017/11/12/1230.nc",
               (mk 2017 11 12 12 30 0 0, mk 2017 11 12 12 31 0 0)) in
  let sorted := find_files overlaps_spec two_files placeholder_table minutely
                  start end_ true true in
  let unsorted := find_files overlaps_spec two_files placeholder_table minutely
                    start end_ false true in
  walk two_files "/dir/2017/11/12/" = [late.1; early.1]
  ∧ yielded unsorted = [late; early]
  ∧ yielded sorted = [early; late]
  ∧ StronglySorted start_le (yielded sorted)
  ∧ raised sorted = None
  ∧ yielded sorted ≡ₚ yielded unsorted.
Proof.
  intros start end_ early late sorted unsorted.
  destruct (find_files_sorted overlaps_spec two_files placeholder_table
              minutely start end_ true)
    as (Hsorted & Hraised & _ & Hrest).
  assert (Hr : raised unsorted = None) by (vm_compute; reflexivity).
  destruct (Hrest Hr) as [Hperm _].
  split; [vm_compute; reflexivity|]. split; [vm_compute; reflexivity|].
  split; [vm_compute; reflexivity|]. split; [exact Hsorted|].
  split; [by rewrite <- Hr|exact Hperm].
Defined.

(** ** The shared table of placeholders (C10) *)

Section SharedTable.

Lemma regex_of_app (ps qs : list piece) :
  regex_of (ps ++ qs) = regex_of ps ++ regex_of qs.
Proof. induction ps as [|[c| |f] ps IH]; simpl; by rewrite ?IH. Qed.












End SharedTable.


